(** * online_subscription: the service layer and the storage aggregator

    A shallow embedding of
      - internal/models/models.go        (records),
      - internal/service/interface.go    (validation and the repository interface),
      - internal/service/dto.go          (input records),
      - internal/storage/storage.go      (the SQL-backed repository and [Sum]),
      - the query constants of package storage,
    together with the parts of Go's standard library the service calls
    with constant arguments ([time.Parse] at the layout "01-2006",
    [Time.Before], [Time.After], [Time.Date], [errors.Is], [fmt.Errorf]). *)

From stdpp Require Import base numbers list strings gmap.
From Stdlib Require Import ZArith Lia Ascii String Permutation.

Local Open Scope string_scope.
Local Open Scope Z_scope.

(** ** Go's [int]

    The Dockerfile builds the server for linux on a 64-bit target, so [int]
    is a signed 64-bit integer; [+], [-] and [*] wrap around silently. *)
Module goint.

Definition min_int : Z := - 2 ^ 63.
Definition max_int : Z := 2 ^ 63 - 1.

Definition in_range (z : Z) : Prop := min_int <= z <= max_int.

Definition wrap (z : Z) : Z := (z + 2 ^ 63) mod 2 ^ 64 - 2 ^ 63.

Definition add (a b : Z) : Z := wrap (a + b).
Definition sub (a b : Z) : Z := wrap (a - b).
Definition mul (a b : Z) : Z := wrap (a * b).

End goint.

(** ** package time

    A [time.Time] in UTC, kept as its civil fields.  [time.Parse] without a
    zone in the layout yields UTC, and the comparison of two instants of the
    same location is the lexicographic comparison of their fields. *)
Module time.

Record Time : Type := mkTime {
  t_year  : Z;
  t_month : Z;   (* time.Month: January = 1 ... December = 12 *)
  t_day   : Z;
  t_nanos : Z    (* nanoseconds elapsed since 00:00:00 of that day *)
}.

#[global] Instance Time_eq_dec : EqDecision Time.
Proof. solve_decision. Defined.

(** [time.Date(year, month, day, 0, 0, 0, 0, time.UTC)] for a day that
    needs no normalisation. *)
Definition Date (year month day : Z) : Time := mkTime year month day 0.

(** [t.Before(u)] *)
Definition Before (t u : Time) : bool :=
  if t_year t <? t_year u then true
  else if t_year u <? t_year t then false
  else if t_month t <? t_month u then true
  else if t_month u <? t_month t then false
  else if t_day t <? t_day u then true
  else if t_day u <? t_day t then false
  else t_nanos t <? t_nanos u.

(** [t.After(u)] *)
Definition After (t u : Time) : bool := Before u t.

(** [t.Date()] *)
Definition Date_of (t : Time) : Z * Z * Z := (t_year t, t_month t, t_day t).

(** The years a [time.Time] can hold stay far below 2^39 in absolute
    value (the instant is a signed 64-bit count of seconds). *)
Definition wf (t : Time) : Prop :=
  - 2 ^ 39 < t_year t < 2 ^ 39 /\ 1 <= t_month t <= 12.

(** *** Parsing at the layout "01-2006" *)

Definition is_digit_char (c : ascii) : bool :=
  (48 <=? Z.of_N (N_of_ascii c)) && (Z.of_N (N_of_ascii c) <=? 57).

Definition digit_val (c : ascii) : Z := Z.of_N (N_of_ascii c) - 48.

(** [isDigit(s, i)] *)
Definition isDigit (s : string) (i : nat) : bool :=
  match String.get i s with
  | Some c => is_digit_char c
  | None => false
  end.

(** [s[n:]] for [n <= len(s)] *)
Fixpoint string_drop (n : nat) (s : string) : string :=
  match n, s with
  | O, _ => s
  | S n', String _ s' => string_drop n' s'
  | S _, EmptyString => EmptyString
  end.

(** [getnum(s, fixed)]: one or two leading digits; exactly two when
    [fixed]. *)
Definition getnum (s : string) (fixed : bool) : option (Z * string) :=
  if negb (isDigit s 0) then None
  else if negb (isDigit s 1) then
    if fixed then None
    else match String.get 0 s with
         | Some c0 => Some (digit_val c0, string_drop 1 s)
         | None => None
         end
  else match String.get 0 s, String.get 1 s with
       | Some c0, Some c1 =>
           Some (digit_val c0 * 10 + digit_val c1, string_drop 2 s)
       | _, _ => None
       end.

(** [cutspace(s)] *)
Fixpoint cutspace (s : string) : string :=
  match s with
  | String " " s' => cutspace s'
  | _ => s
  end.

(** [skip(value, prefix)]: removes [prefix] from the front of [value];
    a run of spaces in [prefix] matches a run of spaces in [value]. *)
Fixpoint skip_loop (fuel : nat) (value prefix : string) : option string :=
  match prefix with
  | EmptyString => Some value
  | String p prefix' =>
      match fuel with
      | O => None
      | S fuel' =>
          if Ascii.eqb p " " then
            match value with
            | String v _ =>
                if Ascii.eqb v " " then skip_loop fuel' (cutspace value) (cutspace prefix)
                else None
            | EmptyString => skip_loop fuel' (cutspace value) (cutspace prefix)
            end
          else
            match value with
            | String v value' =>
                if Ascii.eqb v p then skip_loop fuel' value' prefix' else None
            | EmptyString => None
            end
      end
  end.

(** Every turn of the loop shortens [prefix], so its length bounds the
    number of turns. *)
Definition skip (value prefix : string) : option string :=
  skip_loop (String.length prefix) value prefix.

(** [leadingInt(s)]: the leading decimal digits of [s] as an unsigned
    number, with the rest; fails on overflow past 2^63. *)
Fixpoint leadingInt (x : Z) (s : string) : option (Z * string) :=
  match s with
  | EmptyString => Some (x, s)
  | String c s' =>
      if negb (is_digit_char c) then Some (x, s)
      else if 2 ^ 63 / 10 <? x then None
      else
        let x' := x * 10 + digit_val c in
        if 2 ^ 63 <? x' then None else leadingInt x' s'
  end.

(** [atoi(s)] *)
Definition atoi (s : string) : option Z :=
  let '(neg, s) :=
    match s with
    | String "-" s' => (true, s')
    | String "+" s' => (false, s')
    | _ => (false, s)
    end in
  match leadingInt 0 s with
  | Some (q, EmptyString) => Some (if neg then - q else q)
  | _ => None
  end.

(** [time.Parse("01-2006", value)].  The layout splits into the chunks
    (prefix "", stdZeroMonth), (prefix "-", stdLongYear) and the empty
    rest; the day defaults to 1, which every month has, and the location
    to UTC.  [None] stands for the returned [*ParseError]. *)
Definition Parse_01_2006 (value : string) : option Time :=
  (* stdZeroMonth *)
  match skip value "" with
  | None => None
  | Some value =>
  match getnum value true with
  | None => None
  | Some (month, value) =>
  if (month <=? 0) || (12 <? month) then None (* month out of range *)
  else
  (* "-" then stdLongYear *)
  match skip value "-" with
  | None => None
  | Some value =>
  if (Z.of_nat (String.length value) <? 4) || negb (isDigit value 0) then None
  else
  let p := substring 0 4 value in
  let value := string_drop 4 value in
  match atoi p with
  | None => None
  | Some year =>
  (* end of layout *)
  match skip value "" with
  | None => None
  | Some value =>
  if negb (Nat.eqb (String.length value) 0) then None (* extra text *)
  else Some (Date year month 1)
  end end end end end.

End time.

Import time.

(** ** Go [error] values

    The sentinels of package service, [sql.ErrNoRows], any other error that
    database/sql or the driver reports, and [fmt.Errorf("<msg>: %w", err)]. *)
Inductive error : Type :=
  | ErrInvalidID
  | ErrInvalidServiceName
  | ErrInvalidPrice
  | ErrInvalidUserID
  | ErrInvalidStartDate
  | ErrInvalidEndDate
  | ErrSubscriptionNotFound
  | sql_ErrNoRows
  | driver_error (msg : string)
  | Errorf (msg : string) (wrapped : error).

#[global] Instance error_eq_dec : EqDecision error.
Proof. solve_decision. Defined.

(** [errors.Is(err, target)] for a comparable [target]: walks the chain of
    wrapped errors. *)
Fixpoint errors_Is (err target : error) : bool :=
  if decide (err = target) then true
  else match err with
       | Errorf _ wrapped => errors_Is wrapped target
       | _ => false
       end.

(** The errors the service produces while validating its input. *)
Definition is_validation_error (e : error) : bool :=
  match e with
  | ErrInvalidID | ErrInvalidServiceName | ErrInvalidPrice
  | ErrInvalidUserID | ErrInvalidStartDate | ErrInvalidEndDate => true
  | _ => false
  end.

(** ** package models *)
Module models.

Record Subscription : Type := mkSubscription {
  ID          : Z;            (* int64 *)
  ServiceName : string;
  Price       : Z;            (* int *)
  UserID      : string;
  StartDate   : Time;
  EndDate     : option Time   (* *time.Time, nil = no end *)
}.

(** The assignment [sub.ID = id]. *)
Definition set_ID (sub : Subscription) (id : Z) : Subscription :=
  mkSubscription id (ServiceName sub) (Price sub) (UserID sub)
                 (StartDate sub) (EndDate sub).

Record SumSubscription : Type := mkSumSubscription {
  filter_UserID      : string;
  filter_ServiceName : string;
  From               : Time;
  To                 : Time
}.

End models.

(** ** package storage *)
Module storage.
Import models.

(** What the database can report: no row, or any other failure (lost
    connection, cancelled context, conversion failure in [Scan], ...). *)
Inductive dberr : Type :=
  | db_no_rows
  | db_failure (msg : string).

Definition dberr_error (e : dberr) : error :=
  match e with
  | db_no_rows => sql_ErrNoRows
  | db_failure msg => driver_error msg
  end.

(** A [*sql.Rows] cursor as the loop sees it: for each [Next] that
    answered true the outcome of [Scan], then the value of [rows.Err()]. *)
Record Rows (A : Type) : Type := mkRows {
  rows_items : list (A + dberr);
  rows_Err   : option dberr
}.
Arguments mkRows {A} _ _.
Arguments rows_items {A} _.
Arguments rows_Err {A} _.

(** The three columns [SumQuery] selects. *)
Record SumRow : Type := mkSumRow {
  price     : Z;
  startDate : Time;
  endDate   : option Time
}.

(** The database handle [*sql.DB], one operation per statement of the
    package.  [Exec] statements answer with the outcome of
    [RowsAffected]. *)
Class Database (D : Type) : Type := {
  InsertSubQuery : D -> string -> Z -> string -> Time -> option Time -> D * (Z + dberr);
  SelectSubQuery : D -> Z -> D * (Subscription + dberr);
  UpdateQuery : D -> string -> Z -> string -> Time -> option Time -> Z -> D * ((Z + dberr) + dberr);
  DeleteQuery : D -> Z -> D * ((Z + dberr) + dberr);
  ListQuery : D -> string -> D * (Rows Subscription + dberr);
  SumQuery : D -> string -> string -> Time -> Time -> D * (Rows SumRow + dberr)
}.

(** [y1, m1, _ := from.Date(); y2, m2, _ := to.Date();
     months := (y2-y1)*12 + int(m2-m1) + 1] *)
Definition months_inclusive (from to : Time) : Z :=
  let '(y1, m1, _) := Date_of from in
  let '(y2, m2, _) := Date_of to in
  goint.add (goint.add (goint.mul (goint.sub y2 y1) 12) (goint.sub m2 m1)) 1.

(** One turn of the loop of [Storage.Sum] on a scanned row; [continue]
    leaves [total] as it is. *)
Definition Sum_step (filter : SumSubscription) (total : Z) (row : SumRow) : Z :=
  let from := From filter in
  let to := To filter in
  let from := if After (startDate row) from then startDate row else from in
  let to := match endDate row with
            | Some e => if Before e to then e else to
            | None => to
            end in
  if After from to then total
  else
    let months := months_inclusive from to in
    if months <? 0 then total
    else goint.add total (goint.mul (price row) months).

(** What a row adds to an empty total, and the exact sum of these. *)
Definition Sum_delta (filter : SumSubscription) (row : SumRow) : Z :=
  Sum_step filter 0 row.

Definition Sum_deltas (filter : SumSubscription) (rows : list SumRow) : Z :=
  foldr (fun row acc => Sum_delta filter row + acc) 0 rows.

(** [for rows.Next() { ... }] of [Storage.Sum]. *)
Fixpoint Sum_loop (filter : SumSubscription) (items : list (SumRow + dberr))
    (total : Z) : Z + error :=
  match items with
  | [] => inl total
  | inr e :: _ => inr (Errorf "scan rows" (dberr_error e))
  | inl row :: rest => Sum_loop filter rest (Sum_step filter total row)
  end.

(** [for rows.Next() { ... }] of [Storage.List]. *)
Fixpoint List_loop (items : list (Subscription + dberr))
    (result : list Subscription) : list Subscription + error :=
  match items with
  | [] => inl result
  | inr e :: _ => inr (Errorf "scan rows" (dberr_error e))
  | inl res :: rest => List_loop rest (result ++ [res])%list
  end.

Section Storage.
Context {D : Type} `{Database D}.

(** [Storage.Create]: [Scan(&sub.ID)] writes through the pointer. *)
Definition Create (db : D) (sub : Subscription) : D * Subscription * (Z + error) :=
  match InsertSubQuery db (ServiceName sub) (Price sub) (UserID sub)
                       (StartDate sub) (EndDate sub) with
  | (db, inr err) => (db, sub, inr (Errorf "failed to create new row" (dberr_error err)))
  | (db, inl id) => let sub := set_ID sub id in (db, sub, inl (ID sub))
  end.

(** [Storage.Get] *)
Definition Get (db : D) (id : Z) : D * (Subscription + error) :=
  match SelectSubQuery db id with
  | (db, inr err) => (db, inr (Errorf "failed to get subscription" (dberr_error err)))
  | (db, inl sub) => (db, inl sub)
  end.

(** [Storage.Update] *)
Definition Update (db : D) (sub : Subscription) : D * option error :=
  match UpdateQuery db (ServiceName sub) (Price sub) (UserID sub)
                    (StartDate sub) (EndDate sub) (ID sub) with
  | (db, inr err) => (db, Some (Errorf "failed to update table" (dberr_error err)))
  | (db, inl (inr err)) =>
      (db, Some (Errorf "failed to check affected rows" (dberr_error err)))
  | (db, inl (inl rows)) =>
      if rows =? 0 then (db, Some sql_ErrNoRows) else (db, None)
  end.

(** [Storage.Delete] *)
Definition Delete (db : D) (id : Z) : D * option error :=
  match DeleteQuery db id with
  | (db, inr err) => (db, Some (Errorf "failed to delete subscription" (dberr_error err)))
  | (db, inl (inr err)) =>
      (db, Some (Errorf "failed check affected rows" (dberr_error err)))
  | (db, inl (inl rows)) =>
      if rows =? 0 then (db, Some sql_ErrNoRows) else (db, None)
  end.

(** [Storage.List] *)
Definition List (db : D) (userID : string) : D * (list Subscription + error) :=
  match ListQuery db userID with
  | (db, inr err) => (db, inr (Errorf "failed to get query from db" (dberr_error err)))
  | (db, inl rows) =>
      match List_loop (rows_items rows) [] with
      | inr err => (db, inr err)
      | inl result =>
          match rows_Err rows with
          | Some err => (db, inr (Errorf "rows iteration error" (dberr_error err)))
          | None => (db, inl result)
          end
      end
  end.

(** [Storage.Sum] *)
Definition Sum (db : D) (filter : SumSubscription) : D * (Z + error) :=
  match SumQuery db (filter_UserID filter) (filter_ServiceName filter)
                 (From filter) (To filter) with
  | (db, inr err) => (db, inr (Errorf "query failed" (dberr_error err)))
  | (db, inl rows) =>
      match Sum_loop filter (rows_items rows) 0 with
      | inr err => (db, inr err)
      | inl total =>
          match rows_Err rows with
          | Some err => (db, inr (Errorf "rows iteration error" (dberr_error err)))
          | None => (db, inl total)
          end
      end
  end.

End Storage.

End storage.

(** ** package service *)
Module service.
Import models.

(** dto.go *)
Record CreateSubscription : Type := mkCreateSubscription {
  ServiceName : string;
  Price       : Z;               (* int *)
  UserID      : string;
  StartDate   : string;
  EndDate     : option string    (* *string, nil = field absent *)
}.

Record FilterForSumSubscription : Type := mkFilterForSumSubscription {
  filter_UserID      : string;
  filter_ServiceName : string;
  From               : string;
  To                 : string
}.

(** [SubscriptionRepository]: the state of the repository is threaded
    through every call.  [Create] receives a pointer, so it also answers
    with the subscription as it stands behind that pointer afterwards. *)
Class SubscriptionRepository (R : Type) : Type := {
  repo_Create : R -> Subscription -> R * Subscription * (Z + error);
  repo_Get    : R -> Z -> R * (Subscription + error);
  repo_Update : R -> Subscription -> R * option error;
  repo_Delete : R -> Z -> R * option error;
  repo_List   : R -> string -> R * (list Subscription + error);
  repo_Sum    : R -> SumSubscription -> R * (Z + error)
}.

Section Service.
(** [strings.TrimSpace], and whether [uuid.Parse] returns a nil error. *)
Variable strings_TrimSpace : string -> string.
Variable uuid_Parse : string -> bool.

Context {R : Type} `{SubscriptionRepository R}.

(** [Service.Create] *)
Definition Create (repo : R) (data : CreateSubscription)
    : R * (Subscription + error) :=
  let data := mkCreateSubscription (strings_TrimSpace (ServiceName data))
                (Price data) (UserID data) (StartDate data) (EndDate data) in
  if String.eqb (ServiceName data) "" then (repo, inr ErrInvalidServiceName)
  else if Price data <=? 0 then (repo, inr ErrInvalidPrice)
  else if negb (uuid_Parse (UserID data)) then (repo, inr ErrInvalidUserID)
  else
    match Parse_01_2006 (StartDate data) with
    | None => (repo, inr ErrInvalidStartDate)
    | Some start =>
        let end_ : option Time + error :=
          match EndDate data with
          | Some raw =>
              if negb (String.eqb raw "") then
                match Parse_01_2006 raw with
                | None => inr ErrInvalidEndDate
                | Some endParse =>
                    if Before endParse start then inr ErrInvalidEndDate
                    else inl (Some endParse)
                end
              else inl None
          | None => inl None
          end in
        match end_ with
        | inr err => (repo, inr err)
        | inl end_ =>
            let sub := mkSubscription 0 (ServiceName data) (Price data)
                         (UserID data) start end_ in
            let '(repo, sub, res) := repo_Create repo sub in
            match res with
            | inr err => (repo, inr err)
            | inl id => (repo, inl (set_ID sub id))
            end
        end
    end.

(** [Service.Get] *)
Definition Get (repo : R) (id : Z) : R * (Subscription + error) :=
  if id <=? 0 then (repo, inr ErrInvalidID)
  else
    match repo_Get repo id with
    | (repo, inr err) =>
        if errors_Is err sql_ErrNoRows then (repo, inr ErrSubscriptionNotFound)
        else (repo, inr err)
    | (repo, inl sub) => (repo, inl sub)
    end.

(** [Service.Update] *)
Definition Update (repo : R) (id : Z) (sub : CreateSubscription)
    : R * option error :=
  if id <=? 0 then (repo, Some ErrInvalidID)
  else
  let sub := mkCreateSubscription (strings_TrimSpace (ServiceName sub))
               (Price sub) (UserID sub) (StartDate sub) (EndDate sub) in
  if String.eqb (ServiceName sub) "" then (repo, Some ErrInvalidServiceName)
  else if Price sub <=? 0 then (repo, Some ErrInvalidPrice)
  else if negb (uuid_Parse (UserID sub)) then (repo, Some ErrInvalidUserID)
  else
    match Parse_01_2006 (StartDate sub) with
    | None => (repo, Some ErrInvalidStartDate)
    | Some start =>
        let end_ : option Time + error :=
          match EndDate sub with
          | Some raw =>
              if negb (String.eqb raw "") then
                match Parse_01_2006 raw with
                | None => inr ErrInvalidEndDate
                | Some endParse =>
                    if Before endParse start then inr ErrInvalidEndDate
                    else inl (Some endParse)
                end
              else inl None
          | None => inl None
          end in
        match end_ with
        | inr err => (repo, Some err)
        | inl end_ =>
            let subToRepo := mkSubscription id (ServiceName sub) (Price sub)
                               (UserID sub) start end_ in
            match repo_Update repo subToRepo with
            | (repo, Some err) =>
                if errors_Is err sql_ErrNoRows
                then (repo, Some ErrSubscriptionNotFound)
                else (repo, Some err)
            | (repo, None) => (repo, None)
            end
        end
    end.

(** [Service.Delete] *)
Definition Delete (repo : R) (id : Z) : R * option error :=
  if id <=? 0 then (repo, Some ErrInvalidID)
  else
    match repo_Delete repo id with
    | (repo, Some err) =>
        if errors_Is err sql_ErrNoRows then (repo, Some ErrSubscriptionNotFound)
        else (repo, Some err)
    | (repo, None) => (repo, None)
    end.

(** [Service.List] *)
Definition List (repo : R) (userID : string) : R * (list Subscription + error) :=
  if negb (uuid_Parse userID) then (repo, inr ErrInvalidUserID)
  else
    match repo_List repo userID with
    | (repo, inr err) => (repo, inr err)
    | (repo, inl result) => (repo, inl result)
    end.

(** [Service.Sum] *)
Definition Sum (repo : R) (filter : FilterForSumSubscription) : R * (Z + error) :=
  let filter := mkFilterForSumSubscription (filter_UserID filter)
                  (strings_TrimSpace (filter_ServiceName filter))
                  (From filter) (To filter) in
  if String.eqb (filter_ServiceName filter) "" then (repo, inr ErrInvalidServiceName)
  else if negb (uuid_Parse (filter_UserID filter)) then (repo, inr ErrInvalidUserID)
  else
    match Parse_01_2006 (From filter) with
    | None => (repo, inr ErrInvalidStartDate)
    | Some from =>
        match Parse_01_2006 (To filter) with
        | None => (repo, inr ErrInvalidEndDate)
        | Some to =>
            if Before to from then (repo, inr ErrInvalidEndDate)
            else
              let sumFilter := mkSumSubscription (filter_UserID filter)
                                 (filter_ServiceName filter) from to in
              match repo_Sum repo sumFilter with
              | (repo, inr err) => (repo, inr err)
              | (repo, inl totalSum) => (repo, inl totalSum)
              end
        end
    end.

End Service.

End service.

(** [main] hands the storage to the service: [service.NewService(storage)]. *)
#[global] Instance Storage_repository {D : Type} `{storage.Database D}
    : service.SubscriptionRepository D := {
  service.repo_Create := storage.Create;
  service.repo_Get := storage.Get;
  service.repo_Update := storage.Update;
  service.repo_Delete := storage.Delete;
  service.repo_List := storage.List;
  service.repo_Sum := storage.Sum
}.

(** ** A log of repository calls

    Wrapping a repository so that every method first records its call makes
    "the repository was not called" a statement about the log. *)
Module traced.
Import models service.

Inductive call : Type :=
  | call_Create (sub : Subscription)
  | call_Get (id : Z)
  | call_Update (sub : Subscription)
  | call_Delete (id : Z)
  | call_List (userID : string)
  | call_Sum (filter : SumSubscription).

#[global] Instance repository {R : Type} `{SubscriptionRepository R}
    : SubscriptionRepository (R * list call) := {
  repo_Create st sub :=
    let '(r, sub', res) := repo_Create (fst st) sub in
    ((r, (snd st ++ [call_Create sub])%list), sub', res);
  repo_Get st id :=
    let '(r, res) := repo_Get (fst st) id in
    ((r, (snd st ++ [call_Get id])%list), res);
  repo_Update st sub :=
    let '(r, res) := repo_Update (fst st) sub in
    ((r, (snd st ++ [call_Update sub])%list), res);
  repo_Delete st id :=
    let '(r, res) := repo_Delete (fst st) id in
    ((r, (snd st ++ [call_Delete id])%list), res);
  repo_List st userID :=
    let '(r, res) := repo_List (fst st) userID in
    ((r, (snd st ++ [call_List userID])%list), res);
  repo_Sum st filter :=
    let '(r, res) := repo_Sum (fst st) filter in
    ((r, (snd st ++ [call_Sum filter])%list), res)
}.

End traced.

(** ** An in-memory database

    One table [subscriptions] keyed by [id], answering the six statements
    of package storage the way their SQL text reads, on a connection that
    never fails. *)
Module memdb.
Import models storage.

Record t : Type := mk {
  subscriptions : gmap Z Subscription;
  last_id       : Z          (* the sequence behind the [id] column *)
}.

Definition empty : t := mk ∅ 0.

Definition rows_of (db : t) : list Subscription :=
  (map_to_list (subscriptions db)).*2.

(** The WHERE clause of [SumQuery]:
    user_id = $1 AND service_name = $2 AND start_date <= $4
    AND (end_date IS NULL OR end_date >= $3). *)
Definition SumQuery_where (userID serviceName : string) (from to : Time)
    (sub : Subscription) : bool :=
  bool_decide (UserID sub = userID)
  && bool_decide (ServiceName sub = serviceName)
  && negb (After (StartDate sub) to)
  && match EndDate sub with
     | None => true
     | Some e => negb (Before e from)
     end.

#[global] Instance database : Database t := {
  InsertSubQuery db name price uid start end_ :=
    let id := last_id db + 1 in
    (mk (<[id := mkSubscription id name price uid start end_]> (subscriptions db)) id,
     inl id);
  SelectSubQuery db id :=
    (db, match subscriptions db !! id with
         | Some sub => inl sub
         | None => inr db_no_rows
         end);
  UpdateQuery db name price uid start end_ id :=
    match subscriptions db !! id with
    | Some _ =>
        (mk (<[id := mkSubscription id name price uid start end_]> (subscriptions db))
            (last_id db),
         inl (inl 1))
    | None => (db, inl (inl 0))
    end;
  DeleteQuery db id :=
    match subscriptions db !! id with
    | Some _ => (mk (delete id (subscriptions db)) (last_id db), inl (inl 1))
    | None => (db, inl (inl 0))
    end;
  ListQuery db userID :=
    (db, inl (mkRows
                (inl <$> List.filter (fun sub => bool_decide (UserID sub = userID))
                                     (rows_of db))
                None));
  SumQuery db userID serviceName from to :=
    (db, inl (mkRows
                (inl <$> ((fun sub => mkSumRow (Price sub) (StartDate sub) (EndDate sub))
                          <$> List.filter (SumQuery_where userID serviceName from to)
                                          (rows_of db)))
                None))
}.

End memdb.

(** ** Executable instances of the two library functions

    The service is parametric in [strings.TrimSpace] and [uuid.Parse];
    these run it on ASCII names and on identifiers in the hyphenated
    36-character form. *)
Module ascii_libs.

Definition is_space (c : ascii) : bool :=
  let n := Z.of_N (N_of_ascii c) in
  ((9 <=? n) && (n <=? 13)) || (n =? 32).

Fixpoint trim_left (s : string) : string :=
  match s with
  | String c s' => if is_space c then trim_left s' else s
  | EmptyString => EmptyString
  end.

Fixpoint trim_right (s : string) : string :=
  match s with
  | EmptyString => EmptyString
  | String c s' =>
      match trim_right s' with
      | EmptyString => if is_space c then EmptyString else String c EmptyString
      | r => String c r
      end
  end.

Definition TrimSpace (s : string) : string := trim_right (trim_left s).

Definition is_hex (c : ascii) : bool :=
  let n := Z.of_N (N_of_ascii c) in
  ((48 <=? n) && (n <=? 57)) || ((65 <=? n) && (n <=? 70))
  || ((97 <=? n) && (n <=? 102)).

Fixpoint hyphenated (groups : list nat) (s : string) : bool :=
  match groups with
  | [] => false
  | [n] => Nat.eqb (String.length s) n && forallb is_hex (list_ascii_of_string s)
  | n :: groups' =>
      forallb is_hex (list_ascii_of_string (substring 0 n s))
      && Nat.eqb (String.length (substring 0 n s)) n
      && match String.get n s with
         | Some c => Ascii.eqb c "-"
         | None => false
         end
      && hyphenated groups' (string_drop (S n) s)
  end.

Definition uuid_Parse (s : string) : bool := hyphenated [8; 4; 4; 4; 12]%nat s.

End ascii_libs.

(** ** The specification's vocabulary

    The wire format, the normalizer and the aggregator in the words of the
    specification; the theorems below compare them with the code. *)
Module spec.
Import models storage.

(** *** The wire format MM-YYYY *)

Definition digit_char (d : Z) : ascii := ascii_of_N (Z.to_N (48 + d)).

Definition two_digits (n : Z) : string :=
  String (digit_char (n / 10)) (String (digit_char (n mod 10)) EmptyString).

Definition four_digits (n : Z) : string :=
  String (digit_char (n / 1000))
    (String (digit_char (n / 100 mod 10))
       (String (digit_char (n / 10 mod 10))
          (String (digit_char (n mod 10)) EmptyString))).

(** The text of month [month] of year [year], for instance "01-2024". *)
Definition month_string (year month : Z) : string :=
  two_digits month ++ "-" ++ four_digits year.

(** Exactly two digits that read 01 to 12, a hyphen, exactly four digits. *)
Definition MM_YYYY (s : string) : bool :=
  match s with
  | String m1 (String m2 (String sep (String y1 (String y2 (String y3
      (String y4 EmptyString)))))) =>
      is_digit_char m1 && is_digit_char m2 && Ascii.eqb sep "-"
      && is_digit_char y1 && is_digit_char y2 && is_digit_char y3
      && is_digit_char y4
      && (1 <=? digit_val m1 * 10 + digit_val m2)
      && (digit_val m1 * 10 + digit_val m2 <=? 12)
  | _ => false
  end.

(** The (year, month) pair such a text denotes. *)
Definition read_month (s : string) : option (Z * Z) :=
  match s with
  | String m1 (String m2 (String _ (String y1 (String y2 (String y3
      (String y4 EmptyString)))))) =>
      if MM_YYYY s
      then Some (((digit_val y1 * 10 + digit_val y2) * 10 + digit_val y3) * 10
                 + digit_val y4,
                 digit_val m1 * 10 + digit_val m2)
      else None
  | _ => None
  end.

(** The first instant of a month, the canonical value of that month. *)
Definition canonical_month (year month : Z) : Time := Date year month 1.

(** Months compared as (year, month) pairs. *)
Definition month_lt (y1 m1 y2 m2 : Z) : Prop :=
  y1 < y2 \/ (y1 = y2 /\ m1 < m2).

(** [normalizeMonth]: the canonical month a text denotes, if any. *)
Definition normalizeMonth (raw : string) : option Time :=
  match read_month raw with
  | Some (y, m) => Some (canonical_month y m)
  | None => None
  end.

(** The end of a subscription whose fields are all valid: open when the
    text is absent or empty. *)
Definition end_or_open (raw : option string) : option Time :=
  match raw with
  | Some raw => normalizeMonth raw
  | None => None
  end.

Definition month_ltb (y1 m1 y2 m2 : Z) : bool :=
  (y1 <? y2) || ((y1 =? y2) && (m1 <? m2)).

(** *** The normalizer: which fields are invalid, each taken alone *)
Section Normalizer.
Variable strings_TrimSpace : string -> string.
Variable uuid_Parse : string -> bool.

Definition invalid_service_name (raw : string) : bool :=
  String.eqb (strings_TrimSpace raw) "".

Definition invalid_price (raw : Z) : bool := raw <=? 0.

Definition invalid_user_id (raw : string) : bool := negb (uuid_Parse raw).

Definition invalid_month (raw : string) : bool := negb (MM_YYYY raw).

(** An end month is invalid when it is present, not empty, and either
    not in the format or strictly before the start month. *)
Definition invalid_end_month (start_raw : string) (end_raw : option string) : bool :=
  match end_raw with
  | None => false
  | Some raw =>
      if String.eqb raw "" then false
      else match read_month raw with
           | None => true
           | Some (ye, me) =>
               match read_month start_raw with
               | Some (ys, ms) => month_ltb ye me ys ms
               | None => false
               end
           end
  end.

(** The ordering check of a query: [to] strictly before [from]. *)
Definition invalid_order (from_raw to_raw : string) : bool :=
  match read_month from_raw, read_month to_raw with
  | Some (yf, mf), Some (yt, mt) => month_ltb yt mt yf mf
  | _, _ => false
  end.

(** The checks in the order of section 4.1, each with its error. *)
Definition Create_checks (data : service.CreateSubscription) : list (bool * error) :=
  [ (invalid_service_name (service.ServiceName data), ErrInvalidServiceName);
    (invalid_price (service.Price data), ErrInvalidPrice);
    (invalid_user_id (service.UserID data), ErrInvalidUserID);
    (invalid_month (service.StartDate data), ErrInvalidStartDate);
    (invalid_end_month (service.StartDate data) (service.EndDate data),
     ErrInvalidEndDate) ].

Definition Sum_checks (filter : service.FilterForSumSubscription)
    : list (bool * error) :=
  [ (invalid_service_name (service.filter_ServiceName filter), ErrInvalidServiceName);
    (invalid_user_id (service.filter_UserID filter), ErrInvalidUserID);
    (invalid_month (service.From filter), ErrInvalidStartDate);
    (invalid_month (service.To filter), ErrInvalidEndDate);
    (invalid_order (service.From filter) (service.To filter), ErrInvalidEndDate) ].

End Normalizer.

(** The error of the first check that fails, if any does. *)
Fixpoint first_failure (checks : list (bool * error)) : option error :=
  match checks with
  | [] => None
  | (true, err) :: _ => Some err
  | (false, _) :: rest => first_failure rest
  end.

(** What [Create] answers once the repository has answered: the error, or
    the subscription behind the pointer with [sub.ID = id]. *)
Definition stored {R : Type} (out : R * Subscription * (Z + error))
    : R * (Subscription + error) :=
  let '(repo, sub, res) := out in
  match res with
  | inr err => (repo, inr err)
  | inl id => (repo, inl (set_ID sub id))
  end.

(** What [Update] answers once the repository has answered. *)
Definition updated {R : Type} (out : R * option error) : R * option error :=
  match out with
  | (repo, Some err) =>
      if errors_Is err sql_ErrNoRows then (repo, Some ErrSubscriptionNotFound)
      else (repo, Some err)
  | (repo, None) => (repo, None)
  end.

(** A repository whose errors are never the validation errors of the
    service. *)
Definition foreign_errors (R : Type) `{service.SubscriptionRepository R} : Prop :=
  (forall r sub r' sub' e,
      service.repo_Create r sub = (r', sub', inr e) -> is_validation_error e = false)
  /\ (forall r id r' e,
      service.repo_Get r id = (r', inr e) -> is_validation_error e = false)
  /\ (forall r sub r' e,
      service.repo_Update r sub = (r', Some e) -> is_validation_error e = false)
  /\ (forall r id r' e,
      service.repo_Delete r id = (r', Some e) -> is_validation_error e = false)
  /\ (forall r userID r' e,
      service.repo_List r userID = (r', inr e) -> is_validation_error e = false)
  /\ (forall r filter r' e,
      service.repo_Sum r filter = (r', inr e) -> is_validation_error e = false).

(** A repository whose [Create] writes nothing but the ID through the
    pointer it receives. *)
Definition Create_writes_ID_only (R : Type) `{service.SubscriptionRepository R} : Prop :=
  forall r sub r' sub' res,
    service.repo_Create r sub = (r', sub', res) -> sub' = set_ID sub (ID sub').

(** *** The aggregator *)

Definition time_max (a b : Time) : Time := if Before a b then b else a.
Definition time_min (a b : Time) : Time := if Before b a then b else a.

Definition effective_start (query : SumSubscription) (s : SumRow) : Time :=
  time_max (startDate s) (From query).

Definition effective_end (query : SumSubscription) (s : SumRow) : Time :=
  match endDate s with
  | None => To query
  | Some e => time_min e (To query)
  end.

Definition monthsSpan (effectiveStart effectiveEnd : Time) : Z :=
  (t_year effectiveEnd - t_year effectiveStart) * 12
  + (t_month effectiveEnd - t_month effectiveStart) + 1.

(** The formula of the specification, with no regard to overlap. *)
Definition formula (query : SumSubscription) (s : SumRow) : Z :=
  price s * monthsSpan (effective_start query s) (effective_end query s).

(** Steps 3 to 6: nothing without overlap, else price times span. *)
Definition contribution (query : SumSubscription) (s : SumRow) : Z :=
  if After (effective_start query s) (effective_end query s) then 0
  else if monthsSpan (effective_start query s) (effective_end query s) <=? 0 then 0
  else formula query s.

(** The total as an exact integer. *)
Definition totalCost (query : SumSubscription) (subs : list SumRow) : Z :=
  foldr (fun s acc => contribution query s + acc) 0 subs.

(** What the aggregation loop answers on rows that all scanned. *)
Definition aggregate (query : SumSubscription) (subs : list SumRow) : Z + error :=
  Sum_loop query (inl <$> subs) 0.

(** Rows and queries whose times are real [time.Time] values. *)
Definition row_wf (s : SumRow) : Prop :=
  wf (startDate s) /\ match endDate s with Some e => wf e | None => True end.

Definition query_wf (query : SumSubscription) : Prop :=
  wf (From query) /\ wf (To query).

(** A row as the data model wants it: a positive price, and [end = open]
    or [end >= start]. *)
Definition row_ok (s : SumRow) : Prop :=
  row_wf s /\ 0 < price s /\
  match endDate s with
  | None => True
  | Some e => Before e (startDate s) = false
  end.

(** A query interval as the data model wants it: [to >= from]. *)
Definition query_ok (query : SumSubscription) : Prop :=
  query_wf query /\ Before (To query) (From query) = false.

End spec.

(** ** Concrete inputs used in the examples below *)
Module scenario.
Import models storage.

(** from = 2024-01, to = 2024-03 *)
Definition query : SumSubscription :=
  mkSumSubscription "550e8400-e29b-41d4-a716-446655440000" "Netflix"
                    (Date 2024 1 1) (Date 2024 3 1).

(** price = 100, start = 2024-01, end = open *)
Definition open_ended : SumRow := mkSumRow 100 (Date 2024 1 1) None.

(** price = 50, start = 2024-02, end = 2024-02 *)
Definition february : SumRow :=
  mkSumRow 50 (Date 2024 2 1) (Some (Date 2024 2 1)).

(** price = 100, start = 2024-05, end = open: begins after the query ends *)
Definition starts_later : SumRow := mkSumRow 100 (Date 2024 5 1) None.

(** from = 2024-01, to = 2024-02 *)
Definition two_months : SumSubscription :=
  mkSumSubscription "550e8400-e29b-41d4-a716-446655440000" "Netflix"
                    (Date 2024 1 1) (Date 2024 2 1).

(** price = 2^62, start = 2024-01, end = open *)
Definition costly : SumRow := mkSumRow (2 ^ 62) (Date 2024 1 1) None.

Definition user : string := "550e8400-e29b-41d4-a716-446655440000".

(** A valid request: January and February 2024. *)
Definition netflix : service.CreateSubscription :=
  service.mkCreateSubscription "  Netflix " 100 user "01-2024" (Some "02-2024").

(** No end date. *)
Definition netflix_open : service.CreateSubscription :=
  service.mkCreateSubscription "  Netflix " 100 user "01-2024" None.

(** The end month is the start month. *)
Definition netflix_one_month : service.CreateSubscription :=
  service.mkCreateSubscription "Netflix" 100 user "01-2024" (Some "01-2024").

(** start = 2024-01, end = 2023-12 *)
Definition ends_early : service.CreateSubscription :=
  service.mkCreateSubscription "Netflix" 100 user "01-2024" (Some "12-2023").

(** Blank name and a price of zero. *)
Definition blank_and_free : service.CreateSubscription :=
  service.mkCreateSubscription "   " 0 user "01-2024" None.

(** Start date in another format. *)
Definition iso_start : service.CreateSubscription :=
  service.mkCreateSubscription "Netflix" 100 user "2024-01-01" None.

(** from = 2024-02, to = 2024-01 *)
Definition backwards : service.FilterForSumSubscription :=
  service.mkFilterForSumSubscription user "Netflix" "02-2024" "01-2024".

(** from = 2024-01, to = 2024-03 *)
Definition first_quarter : service.FilterForSumSubscription :=
  service.mkFilterForSumSubscription user " Netflix" "01-2024" "03-2024".

(** February 2024 alone, at a price of 50. *)
Definition netflix_february : service.CreateSubscription :=
  service.mkCreateSubscription "Netflix" 50 user "02-2024" (Some "02-2024").

(** The end date is present and empty. *)
Definition netflix_empty_end : service.CreateSubscription :=
  service.mkCreateSubscription "Netflix" 100 user "01-2024" (Some "").

(** What the empty database holds after [netflix] was created. *)
Definition netflix_stored : Subscription :=
  mkSubscription 1 "Netflix" 100 user (Date 2024 1 1) (Some (Date 2024 2 1)).

Definition after_netflix : memdb.t :=
  memdb.mk (<[1 := netflix_stored]> ∅) 1.

End scenario.

(** ** Chains of wrapped errors *)

(** The error at the end of the [Unwrap] chain. *)
Fixpoint errors_root (err : error) : error :=
  match err with
  | Errorf _ wrapped => errors_root wrapped
  | _ => err
  end.

(** A repository none of whose errors wraps a validation error of the
    service. *)
Definition sealed_errors (R : Type) `{service.SubscriptionRepository R} : Prop :=
  (forall r sub r' sub' e,
      service.repo_Create r sub = (r', sub', inr e) ->
      is_validation_error (errors_root e) = false)
  /\ (forall r id r' e,
      service.repo_Get r id = (r', inr e) ->
      is_validation_error (errors_root e) = false)
  /\ (forall r sub r' e,
      service.repo_Update r sub = (r', Some e) ->
      is_validation_error (errors_root e) = false)
  /\ (forall r id r' e,
      service.repo_Delete r id = (r', Some e) ->
      is_validation_error (errors_root e) = false)
  /\ (forall r userID r' e,
      service.repo_List r userID = (r', inr e) ->
      is_validation_error (errors_root e) = false)
  /\ (forall r filter r' e,
      service.repo_Sum r filter = (r', inr e) ->
      is_validation_error (errors_root e) = false).

(** An error that is a validation error itself, or has none at the end of
    its chain. *)
Definition plain_error (e : error) : Prop :=
  is_validation_error e = true \/ is_validation_error (errors_root e) = false.

(** ** package strconv *)
Module strconv.

(** The value with a nil error, [ErrSyntax], or the value returned beside
    [ErrRange]. *)
Inductive result : Type :=
  | ok (n : Z)
  | ErrSyntax
  | ErrRange (n : Z).

(** The loop of [ParseUint(s, 10, 64)] on the bytes of [s]; [n] is the
    number read so far.  Base 10 is given, so an underscore is a syntax
    error like any other byte that is not a decimal digit. *)
Fixpoint ParseUint_loop (s : string) (n : Z) : result :=
  match s with
  | EmptyString => ok n
  | String c s' =>
      if negb (is_digit_char c) then ErrSyntax
      else if (2 ^ 64 - 1) / 10 + 1 <=? n then ErrRange (2 ^ 64 - 1)
      else
        let n1 := n * 10 + digit_val c in
        if 2 ^ 64 - 1 <? n1 then ErrRange (2 ^ 64 - 1)
        else ParseUint_loop s' n1
  end.

(** [ParseUint(s, 10, 64)] *)
Definition ParseUint (s : string) : result :=
  match s with
  | EmptyString => ErrSyntax
  | _ => ParseUint_loop s 0
  end.

(** [ParseInt(s, 10, 64)] *)
Definition ParseInt (s : string) : result :=
  match s with
  | EmptyString => ErrSyntax
  | String c rest =>
      let '(neg, s) :=
        if Ascii.eqb c "+" then (false, rest)
        else if Ascii.eqb c "-" then (true, rest)
        else (false, s) in
      match ParseUint s with
      | ErrSyntax => ErrSyntax
      | ok un | ErrRange un =>
          if negb neg && (2 ^ 63 <=? un) then ErrRange (2 ^ 63 - 1)
          else if neg && (2 ^ 63 <? un) then ErrRange (- 2 ^ 63)
          else ok (if neg then - un else un)
      end
  end.

End strconv.

(** ** package handlers *)
Module handlers.
Import models.

Definition StatusOK : Z := 200.
Definition StatusCreated : Z := 201.
Definition StatusNoContent : Z := 204.
Definition StatusBadRequest : Z := 400.
Definition StatusNotFound : Z := 404.
Definition StatusInternalServerError : Z := 500.

(** What a handler reads of [*http.Request]: the body, the route parameters
    chi has bound, and the query string as [r.URL.Query()] parses it. *)
Record Request : Type := mkRequest {
  Body      : string;
  URLParams : gmap string string;
  URLQuery  : gmap string (list string)
}.

(** [chi.URLParam(r, key)]: the empty string when the key is not bound. *)
Definition chi_URLParam (r : Request) (key : string) : string :=
  default "" (URLParams r !! key).

(** [r.URL.Query().Get(key)]: the first value, the empty string when there
    is none. *)
Definition Query_Get (r : Request) (key : string) : string :=
  match URLQuery r !! key with
  | Some (v :: _) => v
  | _ => ""
  end.

(** The values handed to [json.NewEncoder(w).Encode]. *)
Inductive payload : Type :=
  | json_Subscription (sub : Subscription)
  | json_Subscriptions (subs : list Subscription)
  | json_total (total : Z).          (* map[string]int{"total": total} *)

(** The calls a handler makes on its [http.ResponseWriter], in order. *)
Inductive call : Type :=
  | Header_Set (key value : string)          (* w.Header().Set(key, value) *)
  | WriteHeader (statusCode : Z)             (* w.WriteHeader(statusCode) *)
  | json_Encode (v : payload)                (* json.NewEncoder(w).Encode(v) *)
  | http_Error (message : string) (code : Z).  (* http.Error(w, message, code) *)

(** Arguments of a log call, kept unformatted. *)
Inductive log_arg : Type :=
  | arg_error (err : error)
  | arg_text (s : string)
  | arg_int (n : Z).

(** The calls a handler makes on its [*zap.SugaredLogger]. *)
Inductive log_call : Type :=
  | Errorf_log (template : string) (args : list log_arg)
  | Error_log (message : string)
  | Infow_log (message : string) (keysAndValues : list (string * log_arg)).

Record Response : Type := mkResponse {
  calls : list call;
  logs  : list log_call
}.

(** The status codes a handler sets, in order: [http.Error] calls
    [w.WriteHeader] with its code. *)
Definition statuses (cs : list call) : list Z :=
  omap (fun c => match c with
                 | WriteHeader code | http_Error _ code => Some code
                 | _ => None
                 end) cs.


Section Handlers.
Variable strings_TrimSpace : string -> string.
Variable uuid_Parse : string -> bool.
(** [json.NewDecoder(r.Body).Decode(&req)] on a zero [req]: the decoded
    request, or the text of the error. *)
Variable json_Decode : string -> service.CreateSubscription + string.
(** The error [json.NewEncoder(w).Encode(v)] returns, if any. *)
Variable json_Encode_error : payload -> option string.

Context {R : Type} `{service.SubscriptionRepository R}.

(** [if err := json.NewEncoder(w).Encode(v); err != nil { sugar.Errorf(template, err) }] *)
Definition encode_logs (template : string) (v : payload) : list log_call :=
  match json_Encode_error v with
  | Some err => [Errorf_log template [arg_text err]]
  | None => []
  end.

(** [CreateSubscriptionHandler] *)
Definition CreateSubscriptionHandler (repo : R) (r : Request) : R * Response :=
  match json_Decode (Body r) with
  | inr err =>
      (repo, mkResponse [http_Error "Invalid JSON format" StatusBadRequest]
               [Errorf_log "cannot decode request JSON body: %v" [arg_text err]])
  | inl req =>
      match service.Create strings_TrimSpace uuid_Parse repo req with
      | (repo, inr err) =>
          if errors_Is err ErrInvalidServiceName then
            (repo, mkResponse [http_Error "Invalid service name" StatusBadRequest] [])
          else if errors_Is err ErrInvalidPrice then
            (repo, mkResponse [http_Error "invalid price" StatusBadRequest] [])
          else if errors_Is err ErrInvalidUserID then
            (repo, mkResponse [http_Error "invalid userID" StatusBadRequest] [])
          else if errors_Is err ErrInvalidStartDate then
            (repo, mkResponse [http_Error "invalid start date" StatusBadRequest] [])
          else if errors_Is err ErrInvalidEndDate then
            (repo, mkResponse [http_Error "invalid end date" StatusBadRequest] [])
          else
            (repo, mkResponse
                     [http_Error "internal server error" StatusInternalServerError]
                     [Errorf_log "internal error in Create: %v" [arg_error err]])
      | (repo, inl resp) =>
          (repo, mkResponse
                   [Header_Set "Content-Type" "application/json";
                    WriteHeader StatusCreated;
                    json_Encode (json_Subscription resp)]
                   (encode_logs "error encoding response: %v" (json_Subscription resp)
                    ++ [Infow_log "subscription created"
                          [("id", arg_int (ID resp));
                           ("user_id", arg_text (UserID resp));
                           ("service_name", arg_text (ServiceName resp))]])%list)
      end
  end.

(** [GetSubscriptionHandler] *)
Definition GetSubscriptionHandler (repo : R) (r : Request) : R * Response :=
  let idStr := chi_URLParam r "id" in
  if String.eqb idStr "" then
    (repo, mkResponse [http_Error "invalid request id" StatusBadRequest]
             [Errorf_log "invalid request id" []])
  else
    match strconv.ParseInt idStr with
    | strconv.ok id =>
        match service.Get repo id with
        | (repo, inr err) =>
            if errors_Is err ErrInvalidID then
              (repo, mkResponse [http_Error "invalid id" StatusBadRequest] [])
            else if errors_Is err ErrSubscriptionNotFound then
              (repo, mkResponse [http_Error "subscription not found" StatusNotFound] [])
            else
              (repo, mkResponse
                       [http_Error "internal server error" StatusInternalServerError]
                       [Errorf_log "failed to get subscription id=%d: %v"
                          [arg_int id; arg_error err]])
        | (repo, inl sub) =>
            (repo, mkResponse
                     [Header_Set "Content-Type" "application/json";
                      WriteHeader StatusOK;
                      json_Encode (json_Subscription sub)]
                     (encode_logs "error encoding response: %v" (json_Subscription sub)))
        end
    | _ => (repo, mkResponse [http_Error "id must be integer" StatusBadRequest] [])
    end.

(** [UpdateSubscriptionHandler] *)
Definition UpdateSubscriptionHandler (repo : R) (r : Request) : R * Response :=
  let idStr := chi_URLParam r "id" in
  if String.eqb idStr "" then
    (repo, mkResponse [http_Error "invalid id" StatusBadRequest]
             [Error_log "invalid request id"])
  else
    match strconv.ParseInt idStr with
    | strconv.ok id =>
        match json_Decode (Body r) with
        | inr err =>
            (repo, mkResponse [http_Error "Invalid JSON format" StatusBadRequest]
                     [Errorf_log "cannot decode request JSON body: %v" [arg_text err]])
        | inl req =>
            match service.Update strings_TrimSpace uuid_Parse repo id req with
            | (repo, Some err) =>
                (repo, mkResponse
                   [if errors_Is err ErrInvalidID then
                      http_Error "invalid id" StatusBadRequest
                    else if errors_Is err ErrInvalidServiceName then
                      http_Error "invalid service name" StatusBadRequest
                    else if errors_Is err ErrInvalidPrice then
                      http_Error "invalid price" StatusBadRequest
                    else if errors_Is err ErrInvalidUserID then
                      http_Error "invalid user id" StatusBadRequest
                    else if errors_Is err ErrInvalidStartDate then
                      http_Error "invalid start date" StatusBadRequest
                    else if errors_Is err ErrInvalidEndDate then
                      http_Error "invalid end date" StatusBadRequest
                    else if errors_Is err ErrSubscriptionNotFound then
                      http_Error "subscription not found" StatusNotFound
                    else http_Error "internal server error" StatusInternalServerError]
                   [Errorf_log "update subscription failed: %v" [arg_error err]])
            | (repo, None) =>
                (repo, mkResponse [WriteHeader StatusNoContent]
                         [Infow_log "subscription updated" [("id", arg_int id)]])
            end
        end
    | _ => (repo, mkResponse [http_Error "id must be integer" StatusBadRequest] [])
    end.

(** [DeleteSubscriptionsHandler] *)
Definition DeleteSubscriptionsHandler (repo : R) (r : Request) : R * Response :=
  let idStr := chi_URLParam r "id" in
  if String.eqb idStr "" then
    (repo, mkResponse [http_Error "invalid request id" StatusBadRequest]
             [Error_log "invalid request id"])
  else
    match strconv.ParseInt idStr with
    | strconv.ok id =>
        match service.Delete repo id with
        | (repo, Some err) =>
            (repo, mkResponse
               [if errors_Is err ErrInvalidID then
                  http_Error "invalid id" StatusBadRequest
                else if errors_Is err ErrSubscriptionNotFound then
                  http_Error "subscription not found" StatusNotFound
                else http_Error "internal server error" StatusInternalServerError]
               [Errorf_log "failed to delete subscription id=%d: %v"
                  [arg_int id; arg_error err]])
        | (repo, None) =>
            (repo, mkResponse [WriteHeader StatusNoContent]
                     [Infow_log "subscription deleted" [("id", arg_int id)]])
        end
    | _ => (repo, mkResponse [http_Error "id must be integer" StatusBadRequest] [])
    end.

(** [ListSubscriptionHandler] *)
Definition ListSubscriptionHandler (repo : R) (r : Request) : R * Response :=
  let userID := Query_Get r "user_id" in
  if String.eqb userID "" then
    (repo, mkResponse [http_Error "invalid userID in request" StatusBadRequest]
             [Error_log "invalid userID in request"])
  else
    match service.List uuid_Parse repo userID with
    | (repo, inr err) =>
        (repo, mkResponse
           [if errors_Is err ErrInvalidUserID then
              http_Error "invalid userID" StatusBadRequest
            else http_Error "internal server error" StatusInternalServerError]
           [Errorf_log "failed list subscriptions for user_id=%s: %v"
              [arg_text userID; arg_error err]])
    | (repo, inl subs) =>
        (repo, mkResponse
                 [Header_Set "Content-Type" "application/json";
                  WriteHeader StatusOK;
                  json_Encode (json_Subscriptions subs)]
                 (encode_logs "failed to encode list response: %v" (json_Subscriptions subs)
                  ++ [Infow_log "subscriptions listed"
                        [("user_id", arg_text userID);
                         ("count", arg_int (Z.of_nat (List.length subs)))]])%list)
    end.

(** [SumSubscriptionHandler] *)
Definition SumSubscriptionHandler (repo : R) (r : Request) : R * Response :=
  let userID := Query_Get r "user_id" in
  let serviceName := Query_Get r "service_name" in
  let from := Query_Get r "from" in
  let toStr := Query_Get r "to" in
  if String.eqb userID "" || String.eqb serviceName "" || String.eqb from ""
     || String.eqb toStr "" then
    (repo, mkResponse
             [http_Error "user_id, service_name, from, to are required" StatusBadRequest]
             [])
  else
    let filter := service.mkFilterForSumSubscription userID serviceName from toStr in
    match service.Sum strings_TrimSpace uuid_Parse repo filter with
    | (repo, inr err) =>
        if errors_Is err ErrInvalidServiceName then
          (repo, mkResponse [http_Error "invalid service name" StatusBadRequest] [])
        else if errors_Is err ErrInvalidUserID then
          (repo, mkResponse [http_Error "invalid userID" StatusBadRequest] [])
        else if errors_Is err ErrInvalidStartDate then
          (repo, mkResponse [http_Error "invalid start date" StatusBadRequest] [])
        else if errors_Is err ErrInvalidEndDate then
          (repo, mkResponse [http_Error "invalid end date" StatusBadRequest] [])
        else
          (repo, mkResponse
                   [http_Error "internal server error" StatusInternalServerError]
                   [Errorf_log "failed sum function: %v" [arg_error err]])
    | (repo, inl total) =>
        (repo, mkResponse
                 [Header_Set "Content-Type" "application/json";
                  WriteHeader StatusOK;
                  json_Encode (json_total total)]
                 (encode_logs "failed to encode sum response: %v" (json_total total)
                  ++ [Infow_log "subscriptions sum calculated"
                        [("user_id", arg_text userID);
                         ("service_name", arg_text serviceName);
                         ("from", arg_text from);
                         ("to", arg_text toStr);
                         ("total", arg_int total)]])%list)
    end.

End Handlers.

End handlers.

(** ** package middleware *)
Module middleware.

(** [http.ResponseWriter]: the state of the writer is threaded through
    every call.  [Header()] hands out the header map, which the caller then
    changes in place. *)
Inductive header_op : Type :=
  | Header_Set (key value : string)
  | Header_Add (key value : string)
  | Header_Del (key : string).

Class ResponseWriter (W : Type) : Type := {
  rw_Header      : W -> header_op -> W;
  rw_Write       : W -> string -> W * (Z * option string);
  rw_WriteHeader : W -> Z -> W
}.

(** An [http.Handler] serving one request, as the calls it makes on the
    writer it is given; after [Write] it goes on with the count and the
    error it got back. *)
Inductive Handler : Type :=
  | Return
  | CallHeader (op : header_op) (next : Handler)
  | CallWrite (n : string) (next : Z -> option string -> Handler)
  | CallWriteHeader (statusCode : Z) (next : Handler).

(** [h.ServeHTTP(w, r)] *)
Fixpoint ServeHTTP {W : Type} `{ResponseWriter W} (h : Handler) (w : W) : W :=
  match h with
  | Return => w
  | CallHeader op next => ServeHTTP next (rw_Header w op)
  | CallWrite n next =>
      let '(w, (size, err)) := rw_Write w n in
      ServeHTTP (next size err) w
  | CallWriteHeader statusCode next => ServeHTTP next (rw_WriteHeader w statusCode)
  end.

Record responseData : Type := mkResponseData {
  size   : Z;   (* int *)
  status : Z    (* int *)
}.

(** [loggingResponseWritter]: the embedded writer and the responseData
    behind the pointer.  [Header] is promoted from the embedded writer. *)
#[global] Instance loggingResponseWritter {W : Type} `{ResponseWriter W}
    : ResponseWriter (W * responseData) := {
  rw_Header l op := (rw_Header (fst l) op, snd l);
  rw_Write l n :=
    let '(w, (written, err)) := rw_Write (fst l) n in
    ((w, mkResponseData (goint.add (size (snd l)) written) (status (snd l))),
     (written, err));
  rw_WriteHeader l statusCode :=
    (rw_WriteHeader (fst l) statusCode, mkResponseData (size (snd l)) statusCode)
}.

(** The entry [logger.Infow("http_request", ...)] writes. *)
Record http_request : Type := mk_http_request {
  uri       : string;
  method    : string;
  log_status : Z;
  log_size   : Z;
  duratioin : Z
}.

(** [LoggingMiddleware(logger)(next).ServeHTTP(w, r)], where [start] and
    [finish] are the clock readings of [time.Now()] and of [time.Since]. *)
Definition LoggingMiddleware {W : Type} `{ResponseWriter W}
    (next : Handler) (RequestURI Method : string) (start finish : Z) (w : W)
    : W * http_request :=
  let respData := mkResponseData 0 handlers.StatusOK in
  let lw := (w, respData) in
  let '(w, respData) := ServeHTTP next lw in
  let duration := finish - start in
  (w, mk_http_request RequestURI Method (status respData) (size respData) duration).

(** What the writer underneath saw of a handler: its calls, with what
    [Write] answered. *)
Inductive event : Type :=
  | ev_Header (op : header_op)
  | ev_Write (n : string) (written : Z) (err : option string)
  | ev_WriteHeader (statusCode : Z).

Fixpoint events {W : Type} `{ResponseWriter W} (h : Handler) (w : W) : list event :=
  match h with
  | Return => []
  | CallHeader op next => ev_Header op :: events next (rw_Header w op)
  | CallWrite n next =>
      let '(w, (written, err)) := rw_Write w n in
      ev_Write n written err :: events (next written err) w
  | CallWriteHeader statusCode next =>
      ev_WriteHeader statusCode :: events next (rw_WriteHeader w statusCode)
  end.

(** The byte counts [Write] answered, added up. *)
Definition bytes_written (evs : list event) : Z :=
  foldr (fun ev acc => match ev with
                       | ev_Write _ written _ => written + acc
                       | _ => acc
                       end) 0 evs.

(** The code of the last [WriteHeader], or [default] without any. *)
Definition last_status (default : Z) (evs : list event) : Z :=
  foldl (fun st ev => match ev with
                      | ev_WriteHeader statusCode => statusCode
                      | _ => st
                      end) default evs.

(** A writer in the manner of [httptest.ResponseRecorder]: the first
    status set wins, a [Write] without one sets 200, every byte is kept. *)
Record recorder : Type := mk_recorder {
  rec_Code        : Z;
  rec_wroteHeader : bool;
  rec_Body        : string;
  rec_headers     : list header_op
}.

Definition recorder_WriteHeader (rw : recorder) (code : Z) : recorder :=
  if rec_wroteHeader rw then rw
  else mk_recorder code true (rec_Body rw) (rec_headers rw).

#[global] Instance recorder_writer : ResponseWriter recorder := {
  rw_Header rw op :=
    mk_recorder (rec_Code rw) (rec_wroteHeader rw) (rec_Body rw)
                (rec_headers rw ++ [op])%list;
  rw_Write rw n :=
    let rw := recorder_WriteHeader rw 200 in
    (mk_recorder (rec_Code rw) (rec_wroteHeader rw) (rec_Body rw ++ n) (rec_headers rw),
     (Z.of_nat (String.length n), None));
  rw_WriteHeader := recorder_WriteHeader
}.

Definition NewRecorder : recorder := mk_recorder 200 false "" [].

End middleware.

(** ** package config *)
Module config.

Record Config : Type := mkConfig {
  ServerAddr  : string;
  DatabaseDSN : string
}.

(** [os.Getenv(key)] in an environment: the empty string for a variable
    that is not set. *)
Definition os_Getenv (env : gmap string string) (key : string) : string :=
  default "" (env !! key).

(** [Load]; the error is the one message [fmt.Errorf] is given. *)
Definition Load (env : gmap string string) : Config + string :=
  let ServerAddr := os_Getenv env "SERVER_ADDR" in
  let ServerAddr := if String.eqb ServerAddr "" then ":8080" else ServerAddr in
  let DatabaseDSN := os_Getenv env "DATABASE_DSN" in
  if String.eqb DatabaseDSN "" then inr "DATABASE_DSN is required"
  else inl (mkConfig ServerAddr DatabaseDSN).

End config.

(** ** Months as numbers *)
Module months.
Import models storage.

(** Months counted from year 0: consecutive months have consecutive
    indices. *)
Definition index (t : Time) : Z := 12 * t_year t + t_month t.

(** The first instant of a month of a real [time.Time]: what the service
    stores and what it hands to [Sum]. *)
Definition canonical (t : Time) : Prop :=
  wf t /\ t_day t = 1 /\ t_nanos t = 0.

Definition canonical_row (row : SumRow) : Prop :=
  canonical (startDate row)
  /\ match endDate row with Some e => canonical e | None => True end.

(** The first instant of the month after [t]. *)
Definition next (t : Time) : Time :=
  if t_month t =? 12 then Date (t_year t + 1) 1 1
  else Date (t_year t) (t_month t + 1) 1.

(** The query of [filter] over another interval. *)
Definition between (filter : SumSubscription) (from to : Time) : SumSubscription :=
  mkSumSubscription (filter_UserID filter) (filter_ServiceName filter) from to.

(** The month index of the clamped end of a row. *)
Definition end_index (filter : SumSubscription) (row : SumRow) : Z :=
  match endDate row with
  | Some e => Z.min (index e) (index (To filter))
  | None => index (To filter)
  end.

(** What a call hands to the repository carries canonical months, the end
    not before the start. *)
Definition canonical_call (c : traced.call) : Prop :=
  match c with
  | traced.call_Create sub | traced.call_Update sub =>
      canonical (StartDate sub)
      /\ match EndDate sub with
         | Some e => canonical e /\ Before e (StartDate sub) = false
         | None => True
         end
  | traced.call_Sum filter =>
      canonical (From filter) /\ canonical (To filter)
      /\ Before (To filter) (From filter) = false
  | _ => True
  end.

End months.

(** ** Scanned times in a Location of their own

    The bounds of a query come from [time.Parse] and are in UTC.  The
    start and the end of a row come from [rows.Scan], in the Location the
    driver gave them.  [After] and [Before] compare instants, whatever the
    Locations; [Date()] reads the year and the month of a value in its own
    Location.  Here a time keeps both: the instant, as its civil fields in
    UTC, and what [Date()] answers. *)
Module zoned.

Record Time : Type := mkTime {
  instant   : time.Time;
  own_year  : Z;
  own_month : Z;
  own_day   : Z
}.

(** A time in UTC, or in any Location with no offset from it. *)
Definition UTC (t : time.Time) : Time :=
  mkTime t (t_year t) (t_month t) (t_day t).

Definition in_UTC (t : Time) : Prop := t = UTC (instant t).

(** [t.Before(u)] *)
Definition Before (t u : Time) : bool := time.Before (instant t) (instant u).

(** [t.After(u)] *)
Definition After (t u : Time) : bool := Before u t.

(** [t.Date()] *)
Definition Date_of (t : Time) : Z * Z * Z := (own_year t, own_month t, own_day t).

(** The three columns [SumQuery] selects, as [Scan] fills them. *)
Record SumRow : Type := mkSumRow {
  price     : Z;
  startDate : Time;
  endDate   : option Time
}.

(** [y1, m1, _ := from.Date(); y2, m2, _ := to.Date();
     months := (y2-y1)*12 + int(m2-m1) + 1] *)
Definition months_inclusive (from to : Time) : Z :=
  let '(y1, m1, _) := Date_of from in
  let '(y2, m2, _) := Date_of to in
  goint.add (goint.add (goint.mul (goint.sub y2 y1) 12) (goint.sub m2 m1)) 1.

(** One turn of the loop of [Storage.Sum], [from] and [to] being
    [filter.From] and [filter.To]. *)
Definition Sum_step (from to : Time) (total : Z) (row : SumRow) : Z :=
  let from := if After (startDate row) from then startDate row else from in
  let to := match endDate row with
            | Some e => if Before e to then e else to
            | None => to
            end in
  if After from to then total
  else
    let months := months_inclusive from to in
    if months <? 0 then total
    else goint.add total (goint.mul (price row) months).

(** [for rows.Next() { ... }] of [Storage.Sum]. *)
Fixpoint Sum_loop (from to : Time) (items : list (SumRow + storage.dberr))
    (total : Z) : Z + error :=
  match items with
  | [] => inl total
  | inr e :: _ => inr (Errorf "scan rows" (storage.dberr_error e))
  | inl row :: rest => Sum_loop from to rest (Sum_step from to total row)
  end.

(** The loop on the bounds of a filter of the service, which are in UTC:
    what one row adds to an empty total, and the total of rows that all
    scanned. *)
Definition Sum_delta (filter : models.SumSubscription) (row : SumRow) : Z :=
  Sum_step (UTC (models.From filter)) (UTC (models.To filter)) 0 row.

Definition aggregate (filter : models.SumSubscription) (rows : list SumRow)
    : Z + error :=
  Sum_loop (UTC (models.From filter)) (UTC (models.To filter)) (inl <$> rows) 0.

(** Rows whose times are in UTC, and such a row without its Locations. *)
Definition row_in_UTC (row : SumRow) : Prop :=
  in_UTC (startDate row)
  /\ match endDate row with Some e => in_UTC e | None => True end.

Definition instants (row : SumRow) : storage.SumRow :=
  storage.mkSumRow (price row) (instant (startDate row)) (instant <$> endDate row).

Definition of_UTC (row : storage.SumRow) : SumRow :=
  mkSumRow (storage.price row) (UTC (storage.startDate row))
           (UTC <$> storage.endDate row).

(** 2024-01-01 02:00 UTC held at -05:00: 2023-12-31 21:00 there. *)
Definition new_year_at_minus_five : Time :=
  mkTime (time.mkTime 2024 1 1 7200000000000) 2023 12 31.

(** 2024-03-01 00:00 UTC held at -05:00: 2024-02-29 19:00 there. *)
Definition march_at_minus_five : Time :=
  mkTime (Date 2024 3 1) 2024 2 29.

End zoned.

(** ** Executable instances for the examples *)

(** A database whose every statement fails, as when the connection is
    lost. *)
Module downdb.
Import storage.

Definition failure : dberr := db_failure "connection refused".

#[global] Instance database : Database unit := {
  InsertSubQuery db _ _ _ _ _ := (db, inr failure);
  SelectSubQuery db _ := (db, inr failure);
  UpdateQuery db _ _ _ _ _ _ := (db, inr failure);
  DeleteQuery db _ := (db, inr failure);
  ListQuery db _ := (db, inr failure);
  SumQuery db _ _ _ _ := (db, inr failure)
}.

End downdb.

Module requests.
Import handlers.

(** A decoder that knows two bodies: enough to run the handlers. *)
Definition decode (body : string) : service.CreateSubscription + string :=
  if String.eqb body "netflix" then inl scenario.netflix
  else if String.eqb body "blank" then inl scenario.blank_and_free
  else inr "invalid character".

(** An encoder that never fails. *)
Definition encode_error (v : payload) : option string := None.

(** A request for the subscription with the id [idStr]. *)
Definition with_id (idStr body : string) : Request :=
  mkRequest body {[ "id" := idStr ]} ∅.

(** A request with the body alone. *)
Definition with_body (body : string) : Request := mkRequest body ∅ ∅.

End requests.

Module served.
Import middleware.

(** The handler of the middleware's own test: 201, then "test-data". *)
Definition test_data : Handler :=
  CallWriteHeader 201 (CallWrite "test-data" (fun _ _ => Return)).

(** A handler that sets the status twice. *)
Definition twice : Handler :=
  CallWriteHeader 201 (CallWriteHeader 500 Return).

End served.

(** * Theorems *)

Import models storage.

Example parse_ok : Parse_01_2006 "01-2024" = Some (Date 2024 1 1).
Proof. reflexivity. Qed.

Example parse_iso : Parse_01_2006 "2024-01-01" = None.
Proof. reflexivity. Qed.

Example parse_month_13 : Parse_01_2006 "13-2024" = None.
Proof. reflexivity. Qed.

Example parse_one_digit_month : Parse_01_2006 "1-2024" = None.
Proof. reflexivity. Qed.

Example parse_extra_text : Parse_01_2006 "01-20245" = None.
Proof. reflexivity. Qed.

Example parse_two_digit_year : Parse_01_2006 "01-24" = None.
Proof. reflexivity. Qed.

(** ** [time.Parse] at the layout "01-2006" *)

Lemma digit_char_inv (c : ascii) :
  is_digit_char c = true ->
  0 <= digit_val c <= 9 /\ spec.digit_char (digit_val c) = c.
Proof.
  destruct c as [[] [] [] [] [] [] [] []]; vm_compute; intros; try discriminate;
    (split; [split; discriminate | reflexivity]).
Qed.

Lemma digit_char_is_digit (d : Z) :
  0 <= d <= 9 -> is_digit_char (spec.digit_char d) = true /\ digit_val (spec.digit_char d) = d.
Proof.
  intros Hd.
  assert (d = 0 \/ d = 1 \/ d = 2 \/ d = 3 \/ d = 4 \/ d = 5 \/ d = 6 \/ d = 7 \/ d = 8 \/ d = 9) as Hc by lia.
  repeat destruct Hc as [-> | Hc]; try subst d; split; reflexivity.
Qed.

Lemma leadingInt_digit (x : Z) (c : ascii) (s : string) :
  is_digit_char c = true -> 0 <= x <= 99999 ->
  leadingInt x (String c s) = leadingInt (x * 10 + digit_val c) s.
Proof.
  intros Hc Hx. cbn [leadingInt]. rewrite Hc. cbn [negb].
  pose proof (digit_char_inv c Hc) as [Hv _].
  destruct (Z.ltb_spec (2 ^ 63 / 10) x) as [Hlt | _].
  { exfalso. change (2 ^ 63 / 10) with 922337203685477580 in Hlt. lia. }
  destruct (Z.ltb_spec (2 ^ 63) (x * 10 + digit_val c)) as [Hlt | _].
  { exfalso. change (2 ^ 63) with 9223372036854775808 in Hlt. lia. }
  reflexivity.
Qed.

Lemma atoi_digit (c : ascii) (s : string) :
  is_digit_char c = true ->
  atoi (String c s) =
    match leadingInt 0 (String c s) with
    | Some (q, EmptyString) => Some q
    | _ => None
    end.
Proof.
  destruct c as [[] [] [] [] [] [] [] []]; intros Hc; try discriminate Hc; reflexivity.
Qed.

Lemma leadingInt_other (x : Z) (c : ascii) (s : string) :
  is_digit_char c = false -> leadingInt x (String c s) = Some (x, String c s).
Proof. intros Hc. cbn [leadingInt]. rewrite Hc. reflexivity. Qed.

Lemma Parse_seven (m1 m2 sep y1 y2 y3 y4 : ascii) :
  Parse_01_2006 (String m1 (String m2 (String sep (String y1 (String y2 (String y3 (String y4 EmptyString))))))) =
  if spec.MM_YYYY (String m1 (String m2 (String sep (String y1 (String y2 (String y3 (String y4 EmptyString)))))))
  then Some (Date (((digit_val y1 * 10 + digit_val y2) * 10 + digit_val y3) * 10 + digit_val y4)
                  (digit_val m1 * 10 + digit_val m2) 1)
  else None.
Proof.
  unfold Parse_01_2006, spec.MM_YYYY, skip, getnum, isDigit.
  cbn -[digit_val is_digit_char Z.leb Z.ltb Z.mul Z.add atoi].
  destruct (is_digit_char m1) eqn:Hm1; cbn [negb andb]; [|reflexivity].
  destruct (is_digit_char m2) eqn:Hm2; cbn [negb andb]; [|reflexivity].
  set (month := digit_val m1 * 10 + digit_val m2).
  destruct (Z.leb_spec month 0), (Z.ltb_spec 12 month), (Z.leb_spec 1 month),
    (Z.leb_spec month 12); try lia; cbn [orb];
    rewrite ?andb_false_r, ?andb_true_r; try reflexivity.
  destruct (Ascii.eqb sep "-"); cbn [andb]; [|reflexivity].
  cbn -[digit_val is_digit_char Z.mul Z.add atoi].
  destruct (is_digit_char y1) eqn:Hy1; cbn [negb andb]; [|reflexivity].
  rewrite (atoi_digit _ _ Hy1), (leadingInt_digit _ _ _ Hy1) by lia.
  pose proof (digit_char_inv _ Hy1) as [? _].
  destruct (is_digit_char y2) eqn:Hy2; cbn [negb andb];
    [|rewrite (leadingInt_other _ _ _ Hy2); reflexivity].
  rewrite (leadingInt_digit _ _ _ Hy2) by lia.
  pose proof (digit_char_inv _ Hy2) as [? _].
  destruct (is_digit_char y3) eqn:Hy3; cbn [negb andb];
    [|rewrite (leadingInt_other _ _ _ Hy3); reflexivity].
  rewrite (leadingInt_digit _ _ _ Hy3) by lia.
  pose proof (digit_char_inv _ Hy3) as [? _].
  destruct (is_digit_char y4) eqn:Hy4; cbn [negb andb];
    [|rewrite (leadingInt_other _ _ _ Hy4); reflexivity].
  rewrite (leadingInt_digit _ _ _ Hy4) by lia.
  cbn [leadingInt]. reflexivity.
Qed.

Lemma Parse_other (s : string) :
  String.length s <> 7%nat -> Parse_01_2006 s = None.
Proof.
  intros Hlen.
  destruct s as [|m1 [|m2 [|sep [|y1 [|y2 [|y3 [|y4 [|c rest]]]]]]]];
    try (exfalso; apply Hlen; reflexivity);
    unfold Parse_01_2006, skip, getnum, isDigit;
    cbn -[digit_val is_digit_char Z.leb Z.ltb Z.mul Z.add atoi];
    try reflexivity.
  all: repeat match goal with
       | |- context [is_digit_char ?c] => destruct (is_digit_char c) eqn:?; cbn [negb andb orb]; try reflexivity
       | |- context [Z.leb ?a ?b] => destruct (Z.leb a b); cbn [negb andb orb]; try reflexivity
       | |- context [Z.ltb ?a ?b] => destruct (Z.ltb a b); cbn [negb andb orb]; try reflexivity
       | |- context [Ascii.eqb ?a ?b] => destruct (Ascii.eqb a b); cbn [negb andb orb]; try reflexivity
       end.
  all: cbn -[digit_val is_digit_char Z.leb Z.ltb Z.mul Z.add atoi]; try reflexivity.
  destruct (is_digit_char y1); cbn [negb]; [|reflexivity].
  destruct (atoi _); reflexivity.
Qed.

Lemma Parse_mismatch (s : string) :
  spec.MM_YYYY s = false -> Parse_01_2006 s = None.
Proof.
  intros Hs.
  destruct (decide (String.length s = 7%nat)) as [Hlen | Hlen];
    [|apply Parse_other, Hlen].
  destruct s as [|m1 [|m2 [|sep [|y1 [|y2 [|y3 [|y4 [|c rest]]]]]]]];
    try discriminate Hlen.
  rewrite Parse_seven, Hs. reflexivity.
Qed.

Lemma decimal_split (n : Z) :
  0 <= n <= 9999 ->
  0 <= n / 1000 <= 9 /\ 0 <= n / 100 mod 10 <= 9 /\ 0 <= n / 10 mod 10 <= 9 /\
  0 <= n mod 10 <= 9 /\
  ((n / 1000 * 10 + n / 100 mod 10) * 10 + n / 10 mod 10) * 10 + n mod 10 = n.
Proof. intros Hn. Z.div_mod_to_equations. lia. Qed.

Lemma decimal_join (a b c d : Z) :
  0 <= a <= 9 -> 0 <= b <= 9 -> 0 <= c <= 9 -> 0 <= d <= 9 ->
  let n := ((a * 10 + b) * 10 + c) * 10 + d in
  0 <= n <= 9999 /\ n / 1000 = a /\ n / 100 mod 10 = b /\ n / 10 mod 10 = c /\
  n mod 10 = d.
Proof. intros Ha Hb Hc Hd n. subst n. Z.div_mod_to_equations. lia. Qed.

Lemma month_string_chars (y m : Z) :
  spec.month_string y m =
  String (spec.digit_char (m / 10))
    (String (spec.digit_char (m mod 10))
       (String "-"
          (String (spec.digit_char (y / 1000))
             (String (spec.digit_char (y / 100 mod 10))
                (String (spec.digit_char (y / 10 mod 10))
                   (String (spec.digit_char (y mod 10)) EmptyString)))))).
Proof. reflexivity. Qed.

Lemma Parse_month_string (y m : Z) :
  0 <= y <= 9999 -> 1 <= m <= 12 ->
  spec.MM_YYYY (spec.month_string y m) = true /\
  Parse_01_2006 (spec.month_string y m) = Some (spec.canonical_month y m).
Proof.
  intros Hy Hm.
  destruct (decimal_split y Hy) as (Ha & Hb & Hc & Hd & Hyear).
  assert (0 <= m / 10 <= 9 /\ 0 <= m mod 10 <= 9 /\ m / 10 * 10 + m mod 10 = m)
    as (Hm1 & Hm2 & Hmonth) by (Z.div_mod_to_equations; lia).
  rewrite month_string_chars, Parse_seven.
  assert (spec.MM_YYYY
            (String (spec.digit_char (m / 10))
               (String (spec.digit_char (m mod 10))
                  (String "-"
                     (String (spec.digit_char (y / 1000))
                        (String (spec.digit_char (y / 100 mod 10))
                           (String (spec.digit_char (y / 10 mod 10))
                              (String (spec.digit_char (y mod 10)) EmptyString)))))))
          = true) as Hok.
  { unfold spec.MM_YYYY.
    destruct (digit_char_is_digit _ Hm1) as [-> ->].
    destruct (digit_char_is_digit _ Hm2) as [-> ->].
    destruct (digit_char_is_digit _ Ha) as [-> _].
    destruct (digit_char_is_digit _ Hb) as [-> _].
    destruct (digit_char_is_digit _ Hc) as [-> _].
    destruct (digit_char_is_digit _ Hd) as [-> _].
    rewrite Hmonth. cbn [andb Ascii.eqb Bool.eqb].
    apply andb_true_intro; split; [apply Z.leb_le | apply Z.leb_le]; lia. }
  rewrite Hok. split; [reflexivity|].
  destruct (digit_char_is_digit _ Hm1) as [_ ->].
  destruct (digit_char_is_digit _ Hm2) as [_ ->].
  destruct (digit_char_is_digit _ Ha) as [_ ->].
  destruct (digit_char_is_digit _ Hb) as [_ ->].
  destruct (digit_char_is_digit _ Hc) as [_ ->].
  destruct (digit_char_is_digit _ Hd) as [_ ->].
  rewrite Hmonth, Hyear. reflexivity.
Qed.

Lemma MM_YYYY_month_string (s : string) :
  spec.MM_YYYY s = true ->
  exists y m, 0 <= y <= 9999 /\ 1 <= m <= 12 /\ s = spec.month_string y m.
Proof.
  intros Hs.
  destruct s as [|m1 [|m2 [|sep [|y1 [|y2 [|y3 [|y4 [|c rest]]]]]]]];
    try discriminate Hs.
  unfold spec.MM_YYYY in Hs. rewrite !andb_true_iff in Hs.
  destruct Hs as ((((((((Hm1 & Hm2) & Hsep) & Hy1) & Hy2) & Hy3) & Hy4) & Hlo) & Hhi).
  apply Ascii.eqb_eq in Hsep. subst sep.
  destruct (digit_char_inv m1 Hm1) as [Hv1 Hc1].
  destruct (digit_char_inv m2 Hm2) as [Hv2 Hc2].
  destruct (digit_char_inv y1 Hy1) as [Hv3 Hc3].
  destruct (digit_char_inv y2 Hy2) as [Hv4 Hc4].
  destruct (digit_char_inv y3 Hy3) as [Hv5 Hc5].
  destruct (digit_char_inv y4 Hy4) as [Hv6 Hc6].
  apply Z.leb_le in Hlo, Hhi.
  destruct (decimal_join _ _ _ _ Hv3 Hv4 Hv5 Hv6) as (Hn & Ea & Eb & Ec & Ed).
  exists (((digit_val y1 * 10 + digit_val y2) * 10 + digit_val y3) * 10 + digit_val y4),
         (digit_val m1 * 10 + digit_val m2).
  split; [exact Hn|]. split; [lia|].
  rewrite month_string_chars, Ea, Eb, Ec, Ed.
  replace ((digit_val m1 * 10 + digit_val m2) / 10) with (digit_val m1)
    by (Z.div_mod_to_equations; lia).
  replace ((digit_val m1 * 10 + digit_val m2) mod 10) with (digit_val m2)
    by (Z.div_mod_to_equations; lia).
  rewrite Hc1, Hc2, Hc3, Hc4, Hc5, Hc6. reflexivity.
Qed.

(** ** Go's [int] *)

Lemma wrap_in_range (z : Z) : goint.in_range (goint.wrap z).
Proof.
  unfold goint.in_range, goint.wrap, goint.min_int, goint.max_int.
  pose proof (Z.mod_pos_bound (z + 2 ^ 63) (2 ^ 64) ltac:(lia)). lia.
Qed.

Lemma wrap_id (z : Z) : goint.in_range z -> goint.wrap z = z.
Proof.
  unfold goint.in_range, goint.wrap, goint.min_int, goint.max_int. intros Hz.
  rewrite Z.mod_small; lia.
Qed.

Lemma wrap_add_wrap_l (a b : Z) : goint.wrap (goint.wrap a + b) = goint.wrap (a + b).
Proof.
  unfold goint.wrap.
  replace ((a + 2 ^ 63) mod 2 ^ 64 - 2 ^ 63 + b + 2 ^ 63)
    with ((a + 2 ^ 63) mod 2 ^ 64 + b) by lia.
  rewrite Zplus_mod_idemp_l. f_equal. f_equal. lia.
Qed.

Lemma wrap_add_wrap_r (a b : Z) : goint.wrap (a + goint.wrap b) = goint.wrap (a + b).
Proof. rewrite Z.add_comm, wrap_add_wrap_l. f_equal. lia. Qed.

Lemma wrap_wrap (a : Z) : goint.wrap (goint.wrap a) = goint.wrap a.
Proof. apply wrap_id, wrap_in_range. Qed.

(** ** The order of instants *)

Lemma Before_irrefl (t : Time) : Before t t = false.
Proof.
  unfold Before. rewrite !Z.ltb_irrefl. reflexivity.
Qed.

Ltac order_cases :=
  repeat match goal with
    | |- context [Z.ltb ?a ?b] => destruct (Z.ltb_spec a b)
    | H : context [Z.ltb ?a ?b] |- _ => destruct (Z.ltb_spec a b)
    end.

Lemma Before_asym (t u : Time) : Before t u = true -> Before u t = false.
Proof. unfold Before. order_cases; intros; try reflexivity; try discriminate; lia. Qed.

Lemma Before_total (t u : Time) : Before t u = false -> Before u t = false -> t = u.
Proof.
  destruct t as [y1 m1 d1 n1], u as [y2 m2 d2 n2]. unfold Before. cbn.
  order_cases; intros; try discriminate.
  f_equal; lia.
Qed.

Lemma Before_trans (t u v : Time) :
  Before t u = true -> Before u v = true -> Before t v = true.
Proof.
  unfold Before. order_cases; intros; try reflexivity; try discriminate; lia.
Qed.

Lemma Before_canonical (y1 m1 y2 m2 : Z) :
  Before (spec.canonical_month y1 m1) (spec.canonical_month y2 m2) = true
  <-> spec.month_lt y1 m1 y2 m2.
Proof.
  unfold Before, spec.canonical_month, spec.month_lt, Date. cbn.
  order_cases; split; intros; try reflexivity; try discriminate; lia.
Qed.

Lemma Before_lex (t u : Time) :
  Before t u = true <->
  t_year t < t_year u
  \/ (t_year t = t_year u
      /\ (t_month t < t_month u
          \/ (t_month t = t_month u
              /\ (t_day t < t_day u
                  \/ (t_day t = t_day u /\ t_nanos t < t_nanos u))))).
Proof.
  unfold Before. order_cases; split; intros; try reflexivity; try discriminate; lia.
Qed.

Lemma not_Before_lex (t u : Time) :
  Before t u = false <->
  ~ (t_year t < t_year u
     \/ (t_year t = t_year u
         /\ (t_month t < t_month u
             \/ (t_month t = t_month u
                 /\ (t_day t < t_day u
                     \/ (t_day t = t_day u /\ t_nanos t < t_nanos u)))))).
Proof. rewrite <- Before_lex. symmetry. apply not_true_iff_false. Qed.

(** ** The aggregation loop *)

Lemma effective_start_code (q : SumSubscription) (row : SumRow) :
  (if After (startDate row) (From q) then startDate row else From q)
  = spec.effective_start q row.
Proof.
  unfold spec.effective_start, spec.time_max, After.
  destruct (Before (From q) (startDate row)) eqn:Hfs.
  - rewrite (Before_asym _ _ Hfs). reflexivity.
  - destruct (Before (startDate row) (From q)) eqn:Hsf; [reflexivity|].
    symmetry. apply Before_total; assumption.
Qed.

Lemma effective_end_code (q : SumSubscription) (row : SumRow) :
  match endDate row with
  | Some e => if Before e (To q) then e else To q
  | None => To q
  end = spec.effective_end q row.
Proof.
  unfold spec.effective_end, spec.time_min.
  destruct (endDate row) as [e|]; [|reflexivity].
  destruct (Before e (To q)) eqn:Het.
  - rewrite (Before_asym _ _ Het). reflexivity.
  - destruct (Before (To q) e) eqn:Hte; [reflexivity|].
    symmetry. apply Before_total; assumption.
Qed.

Lemma Sum_step_eq (q : SumSubscription) (total : Z) (row : SumRow) :
  Sum_step q total row =
    if After (spec.effective_start q row) (spec.effective_end q row) then total
    else if months_inclusive (spec.effective_start q row) (spec.effective_end q row) <? 0
         then total
         else goint.add total
                (goint.mul (price row)
                   (months_inclusive (spec.effective_start q row)
                                     (spec.effective_end q row))).
Proof.
  unfold Sum_step. cbv zeta.
  rewrite effective_start_code, effective_end_code. reflexivity.
Qed.

Lemma months_exact (a b : Time) :
  wf a -> wf b -> months_inclusive a b = spec.monthsSpan a b.
Proof.
  intros [Hya Hma] [Hyb Hmb].
  unfold months_inclusive, spec.monthsSpan, Date_of, goint.add, goint.mul, goint.sub.
  change (2 ^ 39) with 549755813888 in *.
  rewrite (wrap_id (t_year b - t_year a))
    by (unfold goint.in_range, goint.min_int, goint.max_int; lia).
  rewrite (wrap_id (t_month b - t_month a))
    by (unfold goint.in_range, goint.min_int, goint.max_int; lia).
  rewrite (wrap_id ((t_year b - t_year a) * 12))
    by (unfold goint.in_range, goint.min_int, goint.max_int; lia).
  rewrite (wrap_id ((t_year b - t_year a) * 12 + (t_month b - t_month a)))
    by (unfold goint.in_range, goint.min_int, goint.max_int; lia).
  apply wrap_id. unfold goint.in_range, goint.min_int, goint.max_int. lia.
Qed.

Lemma monthsSpan_overlap (a b : Time) :
  wf a -> wf b -> After a b = false -> 1 <= spec.monthsSpan a b.
Proof.
  intros [Hya Hma] [Hyb Hmb]. unfold After, Before, spec.monthsSpan.
  order_cases; intros; try discriminate; lia.
Qed.

Lemma wf_effective_start (q : SumSubscription) (row : SumRow) :
  wf (From q) -> wf (startDate row) -> wf (spec.effective_start q row).
Proof.
  intros Hq Hr. unfold spec.effective_start, spec.time_max.
  destruct (Before _ _); assumption.
Qed.

Lemma wf_effective_end (q : SumSubscription) (row : SumRow) :
  wf (To q) -> match endDate row with Some e => wf e | None => True end ->
  wf (spec.effective_end q row).
Proof.
  intros Hq Hr. unfold spec.effective_end, spec.time_min.
  destruct (endDate row); [destruct (Before _ _)|]; assumption.
Qed.

Lemma Sum_step_in_range (q : SumSubscription) (total : Z) (row : SumRow) :
  goint.in_range total -> goint.in_range (Sum_step q total row).
Proof.
  intros Ht. rewrite Sum_step_eq.
  destruct (After _ _); [assumption|].
  destruct (_ <? 0); [assumption|]. apply wrap_in_range.
Qed.

Lemma Sum_step_delta (q : SumSubscription) (total : Z) (row : SumRow) :
  goint.in_range total ->
  Sum_step q total row = goint.wrap (total + Sum_delta q row).
Proof.
  intros Ht. unfold Sum_delta. rewrite !Sum_step_eq.
  destruct (After _ _); [rewrite Z.add_0_r, wrap_id; auto|].
  destruct (_ <? 0); [rewrite Z.add_0_r, wrap_id; auto|].
  unfold goint.add, goint.mul.
  rewrite Z.add_0_l, wrap_wrap. reflexivity.
Qed.

Lemma Sum_loop_scanned (q : SumSubscription) (rows : list SumRow) (total : Z) :
  goint.in_range total ->
  Sum_loop q (inl <$> rows) total = inl (goint.wrap (total + Sum_deltas q rows)).
Proof.
  revert total. induction rows as [|row rows IH]; intros total Ht; cbn.
  - rewrite Z.add_0_r, wrap_id; auto.
  - rewrite IH by (apply Sum_step_in_range; exact Ht).
    rewrite Sum_step_delta by exact Ht.
    rewrite wrap_add_wrap_l. do 2 f_equal.
    change (foldr _ 0 rows) with (Sum_deltas q rows). lia.
Qed.

Lemma zero_in_range : goint.in_range 0.
Proof. unfold goint.in_range, goint.min_int, goint.max_int. lia. Qed.

Lemma aggregate_deltas (q : SumSubscription) (rows : list SumRow) :
  spec.aggregate q rows = inl (goint.wrap (Sum_deltas q rows)).
Proof.
  unfold spec.aggregate. rewrite Sum_loop_scanned by apply zero_in_range.
  reflexivity.
Qed.

Lemma Sum_deltas_cons (q : SumSubscription) (row : SumRow) (rows : list SumRow) :
  Sum_deltas q (row :: rows) = Sum_delta q row + Sum_deltas q rows.
Proof. reflexivity. Qed.

Lemma Sum_deltas_perm (q : SumSubscription) (rows rows' : list SumRow) :
  Permutation rows rows' -> Sum_deltas q rows = Sum_deltas q rows'.
Proof.
  induction 1 as [|row l l' _ IH|a b l|l l' l'' _ IH1 _ IH2];
    rewrite ?Sum_deltas_cons.
  - reflexivity.
  - rewrite IH. reflexivity.
  - lia.
  - congruence.
Qed.

Lemma delta_contribution (q : SumSubscription) (row : SumRow) :
  spec.query_wf q -> spec.row_wf row ->
  Sum_delta q row = goint.wrap (spec.contribution q row).
Proof.
  intros [Hf Ht] [Hs He]. unfold Sum_delta, spec.contribution, spec.formula.
  rewrite Sum_step_eq.
  pose proof (wf_effective_start q row Hf Hs) as Hes.
  pose proof (wf_effective_end q row Ht He) as Hee.
  rewrite (months_exact _ _ Hes Hee).
  destruct (After _ _) eqn:Hov; [reflexivity|].
  pose proof (monthsSpan_overlap _ _ Hes Hee Hov) as Hspan.
  destruct (Z.ltb_spec (spec.monthsSpan (spec.effective_start q row)
                                        (spec.effective_end q row)) 0); [lia|].
  destruct (Z.leb_spec (spec.monthsSpan (spec.effective_start q row)
                                        (spec.effective_end q row)) 0); [lia|].
  unfold goint.add, goint.mul. rewrite Z.add_0_l, wrap_wrap. reflexivity.
Qed.

Lemma totalCost_cons (q : SumSubscription) (s : SumRow) (subs : list SumRow) :
  spec.totalCost q (s :: subs) = spec.contribution q s + spec.totalCost q subs.
Proof. reflexivity. Qed.

Lemma Sum_deltas_totalCost (q : SumSubscription) (rows : list SumRow) :
  spec.query_wf q -> Forall spec.row_wf rows ->
  goint.wrap (Sum_deltas q rows) = goint.wrap (spec.totalCost q rows).
Proof.
  intros Hq. induction 1 as [|row rows Hrow _ IH]; [reflexivity|].
  rewrite Sum_deltas_cons, totalCost_cons.
  rewrite (delta_contribution q row Hq Hrow), wrap_add_wrap_l.
  rewrite <- wrap_add_wrap_r, IH, wrap_add_wrap_r. reflexivity.
Qed.

Lemma aggregate_totalCost (q : SumSubscription) (rows : list SumRow) :
  spec.query_wf q -> Forall spec.row_wf rows ->
  spec.aggregate q rows = inl (goint.wrap (spec.totalCost q rows)).
Proof.
  intros Hq Hrows. rewrite aggregate_deltas, (Sum_deltas_totalCost q rows Hq Hrows).
  reflexivity.
Qed.

Lemma contribution_nonneg (q : SumSubscription) (s : SumRow) :
  0 <= price s -> 0 <= spec.contribution q s.
Proof.
  intros Hp. unfold spec.contribution, spec.formula.
  destruct (After _ _); [lia|].
  destruct (Z.leb_spec (spec.monthsSpan (spec.effective_start q s)
                                        (spec.effective_end q s)) 0); [lia|].
  apply Z.mul_nonneg_nonneg; lia.
Qed.

Lemma totalCost_nonneg (q : SumSubscription) (subs : list SumRow) :
  Forall (fun s => 0 <= price s) subs -> 0 <= spec.totalCost q subs.
Proof.
  induction 1 as [|s subs Hs _ IH]; [cbn; lia|].
  rewrite totalCost_cons. pose proof (contribution_nonneg q s Hs). lia.
Qed.

Lemma row_ok_wf (rows : list SumRow) :
  Forall spec.row_ok rows -> Forall spec.row_wf rows.
Proof. intros H. eapply Forall_impl; [exact H|]. intros s [Hwf _]. exact Hwf. Qed.

Lemma row_ok_price (rows : list SumRow) :
  Forall spec.row_ok rows -> Forall (fun s => 0 <= price s) rows.
Proof. intros H. eapply Forall_impl; [exact H|]. cbn. intros s (_ & Hp & _). lia. Qed.

Ltac by_computation :=
  vm_compute; repeat split; intros; try reflexivity; try discriminate.

Lemma Sum_deltas_app (q : SumSubscription) (l l' : list SumRow) :
  Sum_deltas q (l ++ l') = Sum_deltas q l + Sum_deltas q l'.
Proof.
  induction l as [|row l IH]; [reflexivity|].
  change ((row :: l) ++ l')%list with (row :: (l ++ l'))%list.
  rewrite !Sum_deltas_cons, IH. lia.
Qed.

Lemma Sum_delta_no_overlap (q : SumSubscription) (row : SumRow) :
  After (spec.effective_start q row) (spec.effective_end q row) = true
  \/ months_inclusive (spec.effective_start q row) (spec.effective_end q row) <= 0 ->
  Sum_delta q row = 0.
Proof.
  intros Hno. unfold Sum_delta. rewrite Sum_step_eq.
  destruct (After _ _); [reflexivity|].
  destruct Hno as [Hno | Hno]; [discriminate|].
  destruct (Z.ltb_spec (months_inclusive (spec.effective_start q row)
                                         (spec.effective_end q row)) 0); [reflexivity|].
  replace (months_inclusive (spec.effective_start q row) (spec.effective_end q row))
    with 0 by lia.
  unfold goint.add, goint.mul. rewrite Z.mul_0_r. reflexivity.
Qed.

(** C1 (as the code has it).  When the clamped interval is not empty, one
    turn of the loop adds [price * monthsSpan] to the total in Go's [int]
    arithmetic, so a row alone yields that product, and yields it exactly
    whenever it fits in an [int]; when the clamped interval is empty the row
    yields 0.  For the query 2024-01 to 2024-03 the open-ended row of price
    100 from 2024-01 yields 300, the row of price 50 for 2024-02 alone yields
    50, and both together 350. *)
Theorem overlap_contribution :
  (forall (q : SumSubscription) (row : SumRow) (total : Z),
     spec.query_wf q -> spec.row_wf row ->
     After (spec.effective_start q row) (spec.effective_end q row) = false ->
     Sum_step q total row
       = goint.add total
           (goint.mul (price row)
              (spec.monthsSpan (spec.effective_start q row) (spec.effective_end q row)))
     /\ spec.aggregate q [row] = inl (goint.wrap (spec.formula q row))
     /\ (goint.in_range (spec.formula q row) ->
         spec.aggregate q [row] = inl (spec.formula q row)))
  /\ (forall (q : SumSubscription) (row : SumRow),
        After (spec.effective_start q row) (spec.effective_end q row) = true ->
        spec.aggregate q [row] = inl 0)
  /\ spec.aggregate scenario.query [scenario.open_ended] = inl 300
  /\ spec.aggregate scenario.query [scenario.february] = inl 50
  /\ spec.aggregate scenario.query [scenario.open_ended; scenario.february] = inl 350.
Proof.
  split; [|split; [|by_computation]].
  - intros q row total Hq Hrow Hov.
    pose proof Hq as [Hf Ht]. pose proof Hrow as [Hs He].
    pose proof (wf_effective_start q row Hf Hs) as Hes.
    pose proof (wf_effective_end q row Ht He) as Hee.
    pose proof (monthsSpan_overlap _ _ Hes Hee Hov) as Hspan.
    assert (spec.contribution q row = spec.formula q row) as Hc.
    { unfold spec.contribution. rewrite Hov.
      destruct (Z.leb_spec (spec.monthsSpan (spec.effective_start q row)
                                            (spec.effective_end q row)) 0); [lia|].
      reflexivity. }
    assert (spec.aggregate q [row] = inl (goint.wrap (spec.formula q row))) as Hagg.
    { rewrite aggregate_totalCost by (auto using Forall_cons, Forall_nil).
      rewrite totalCost_cons, Hc. cbn. rewrite Z.add_0_r. reflexivity. }
    split; [|split].
    + rewrite Sum_step_eq, Hov, (months_exact _ _ Hes Hee).
      destruct (Z.ltb_spec (spec.monthsSpan (spec.effective_start q row)
                                            (spec.effective_end q row)) 0); [lia|].
      reflexivity.
    + exact Hagg.
    + intros Hfit. rewrite Hagg, (wrap_id _ Hfit). reflexivity.
  - intros q row Hno. rewrite aggregate_deltas, Sum_deltas_cons.
    rewrite Sum_delta_no_overlap by (left; exact Hno). reflexivity.
Qed.

Lemma overlap_contribution_witness :
  spec.aggregate scenario.query [scenario.february]
  = inl (spec.formula scenario.query scenario.february).
Proof.
  apply (proj1 overlap_contribution scenario.query scenario.february 0);
    by_computation.
Defined.

(** C1 fails as stated: for the query 2024-01 to 2024-03 a row of price 100
    that starts in 2024-05 with no end yields 0, while the formula gives
    100 * ((2024 - 2024) * 12 + (3 - 5) + 1) = -100. *)
Lemma formula_without_overlap :
  spec.query_ok scenario.query /\
  spec.row_ok scenario.starts_later /\
  spec.aggregate scenario.query [scenario.starts_later] = inl 0 /\
  spec.formula scenario.query scenario.starts_later = -100 /\
  spec.aggregate scenario.query [scenario.starts_later]
    <> inl (spec.formula scenario.query scenario.starts_later).
Proof. by_computation. Qed.

(** The rows [SumQuery] selects always overlap the query: with
    [to >= from] in the query and [end >= start] in the row, the WHERE
    clause leaves no row whose clamped interval is empty. *)
Lemma selected_rows_overlap (userID serviceName : string) (from to : Time)
    (sub : Subscription) :
  memdb.SumQuery_where userID serviceName from to sub = true ->
  Before to from = false ->
  match EndDate sub with
  | Some e => Before e (StartDate sub) = false
  | None => True
  end ->
  let q := mkSumSubscription userID serviceName from to in
  let row := mkSumRow (Price sub) (StartDate sub) (EndDate sub) in
  After (spec.effective_start q row) (spec.effective_end q row) = false.
Proof.
  intros Hwhere Hq Hrow q row. subst q row.
  unfold memdb.SumQuery_where in Hwhere. rewrite !andb_true_iff in Hwhere.
  destruct Hwhere as [[_ Hstart] Hend]. apply negb_true_iff in Hstart.
  unfold After in *. unfold spec.effective_start, spec.effective_end,
    spec.time_max, spec.time_min. cbn [From To startDate endDate].
  destruct (EndDate sub) as [e|].
  - apply negb_true_iff in Hend.
    destruct (Before (StartDate sub) from) eqn:H1, (Before to e) eqn:H2;
      rewrite ?Before_lex, ?not_Before_lex in *; lia.
  - destruct (Before (StartDate sub) from) eqn:H1;
      rewrite ?Before_lex, ?not_Before_lex in *; lia.
Qed.

(** C6.  The total of the aggregation loop does not depend on the order of
    the rows. *)
Theorem aggregate_permutation (q : SumSubscription) (rows rows' : list SumRow) :
  Permutation rows rows' -> spec.aggregate q rows = spec.aggregate q rows'.
Proof.
  intros Hperm. rewrite !aggregate_deltas, (Sum_deltas_perm q rows rows' Hperm).
  reflexivity.
Qed.

Lemma aggregate_permutation_witness :
  spec.aggregate scenario.query [scenario.open_ended; scenario.february]
  = spec.aggregate scenario.query [scenario.february; scenario.open_ended].
Proof. apply aggregate_permutation. apply perm_swap. Defined.

(** C7.  A row whose clamped interval is empty (effective start after
    effective end), or whose month count is not positive, leaves the total as
    it was: it adds exactly 0, wherever it stands among the rows. *)
Theorem no_overlap_contributes_nothing
    (q : SumSubscription) (row : SumRow) (total : Z) (before after : list SumRow) :
  goint.in_range total ->
  After (spec.effective_start q row) (spec.effective_end q row) = true
  \/ months_inclusive (spec.effective_start q row) (spec.effective_end q row) <= 0
  \/ (spec.query_wf q /\ spec.row_wf row /\
      spec.monthsSpan (spec.effective_start q row) (spec.effective_end q row) <= 0) ->
  Sum_step q total row = total
  /\ spec.aggregate q (before ++ row :: after) = spec.aggregate q (before ++ after).
Proof.
  intros Ht Hno.
  assert (Sum_delta q row = 0) as Hd.
  { apply Sum_delta_no_overlap.
    destruct Hno as [Hno | [Hno | ([Hf Hto] & [Hs He] & Hno)]]; auto.
    right. rewrite months_exact; [exact Hno| |].
    - apply wf_effective_start; assumption.
    - apply wf_effective_end; assumption. }
  split.
  - rewrite (Sum_step_delta q total row Ht), Hd, Z.add_0_r. apply wrap_id, Ht.
  - rewrite !aggregate_deltas, !Sum_deltas_app, Sum_deltas_cons, Hd. reflexivity.
Qed.

Lemma no_overlap_contributes_nothing_witness :
  Sum_step scenario.query 300 scenario.starts_later = 300
  /\ spec.aggregate scenario.query
       ([scenario.open_ended] ++ scenario.starts_later :: [scenario.february])
     = spec.aggregate scenario.query ([scenario.open_ended] ++ [scenario.february]).
Proof.
  apply (no_overlap_contributes_nothing scenario.query scenario.starts_later 300
           [scenario.open_ended] [scenario.february]).
  - by_computation.
  - left. by_computation.
Defined.

(** C8 (as the code has it).  For a query with [to >= from] and rows with a
    positive price and [end = open] or [end >= start], the loop never fails;
    when the exact total fits in an [int] the answer is that total, which is
    not negative.  [Storage.Sum] then answers with it whenever the database
    hands over these rows without an error. *)
Theorem aggregate_non_negative (q : SumSubscription) (rows : list SumRow) :
  spec.query_ok q -> Forall spec.row_ok rows ->
  spec.totalCost q rows <= goint.max_int ->
  spec.aggregate q rows = inl (spec.totalCost q rows)
  /\ 0 <= spec.totalCost q rows
  /\ (forall (D : Type) (DB : Database D) (db db' : D),
        SumQuery db (filter_UserID q) (filter_ServiceName q) (From q) (To q)
          = (db', inl (mkRows (inl <$> rows) None)) ->
        storage.Sum db q = (db', inl (spec.totalCost q rows))).
Proof.
  intros [Hq _] Hrows Hfit.
  pose proof (totalCost_nonneg q rows (row_ok_price rows Hrows)) as Hpos.
  assert (spec.aggregate q rows = inl (spec.totalCost q rows)) as Hagg.
  { rewrite (aggregate_totalCost q rows Hq (row_ok_wf rows Hrows)).
    rewrite wrap_id; [reflexivity|].
    unfold goint.in_range, goint.min_int. split; [lia | exact Hfit]. }
  split; [exact Hagg|]. split; [exact Hpos|].
  intros D DB db db' Hquery. unfold storage.Sum. rewrite Hquery.
  cbn [rows_items rows_Err]. unfold spec.aggregate in Hagg. rewrite Hagg.
  reflexivity.
Qed.

Lemma aggregate_non_negative_witness :
  spec.aggregate scenario.query [scenario.open_ended; scenario.february] = inl 350
  /\ 0 <= 350.
Proof.
  destruct (aggregate_non_negative scenario.query
              [scenario.open_ended; scenario.february]) as (H1 & H2 & _).
  - by_computation.
  - repeat constructor; by_computation.
  - by_computation.
  - split; [exact H1 | exact H2].
Defined.

(** C8 fails as stated: with a price of 2^62 over the two months 2024-01 and
    2024-02 the product 2^63 wraps around and the total is negative. *)
Lemma aggregate_wraps_negative :
  spec.query_ok scenario.two_months /\
  Forall spec.row_ok [scenario.costly] /\
  spec.aggregate scenario.two_months [scenario.costly] = inl (- 2 ^ 63) /\
  ~ (exists total, spec.aggregate scenario.two_months [scenario.costly] = inl total
                   /\ 0 <= total).
Proof.
  split; [by_computation|]. split; [repeat constructor; by_computation|].
  split; [by_computation|].
  intros (total & Htotal & Hpos).
  assert (spec.aggregate scenario.two_months [scenario.costly] = inl (- 2 ^ 63)) as E
    by by_computation.
  rewrite E in Htotal. injection Htotal as <-.
  change (- 2 ^ 63) with (-9223372036854775808) in Hpos. lia.
Qed.

(** ** The service *)

Lemma Parse_normalizeMonth (s : string) :
  Parse_01_2006 s = spec.normalizeMonth s.
Proof.
  unfold spec.normalizeMonth.
  destruct (decide (String.length s = 7%nat)) as [Hlen | Hlen].
  - destruct s as [|m1 [|m2 [|sep [|y1 [|y2 [|y3 [|y4 [|c rest]]]]]]]];
      try discriminate Hlen.
    rewrite Parse_seven. unfold spec.read_month.
    destruct (spec.MM_YYYY _); reflexivity.
  - rewrite (Parse_other s Hlen).
    destruct s as [|m1 [|m2 [|sep [|y1 [|y2 [|y3 [|y4 [|c rest]]]]]]]];
      try reflexivity.
    exfalso. apply Hlen. reflexivity.
Qed.

Lemma read_month_MM_YYYY (s : string) :
  spec.MM_YYYY s = match spec.read_month s with Some _ => true | None => false end.
Proof.
  destruct s as [|m1 [|m2 [|sep [|y1 [|y2 [|y3 [|y4 [|c rest]]]]]]]];
    try reflexivity.
  unfold spec.read_month. destruct (spec.MM_YYYY _); reflexivity.
Qed.

Lemma Before_month_ltb (y1 m1 y2 m2 : Z) :
  Before (spec.canonical_month y1 m1) (spec.canonical_month y2 m2)
  = spec.month_ltb y1 m1 y2 m2.
Proof.
  unfold Before, spec.canonical_month, spec.month_ltb, Date. cbn.
  destruct (Z.eqb_spec y1 y2); order_cases; try reflexivity; lia.
Qed.

Lemma read_month_month_string (y m : Z) :
  0 <= y <= 9999 -> 1 <= m <= 12 ->
  spec.read_month (spec.month_string y m) = Some (y, m).
Proof.
  intros Hy Hm. destruct (Parse_month_string y m Hy Hm) as [_ Hparse].
  rewrite Parse_normalizeMonth in Hparse. unfold spec.normalizeMonth in Hparse.
  destruct (spec.read_month _) as [[y' m']|]; [|discriminate].
  injection Hparse as -> ->. reflexivity.
Qed.

Lemma read_month_Some (s : string) (y m : Z) :
  spec.read_month s = Some (y, m) ->
  0 <= y <= 9999 /\ 1 <= m <= 12 /\ s = spec.month_string y m.
Proof.
  intros Hread.
  assert (spec.MM_YYYY s = true) as Hs by (rewrite read_month_MM_YYYY, Hread; reflexivity).
  destruct (MM_YYYY_month_string s Hs) as (y0 & m0 & Hy & Hm & ->).
  rewrite (read_month_month_string y0 m0 Hy Hm) in Hread.
  injection Hread as -> ->. auto.
Qed.

Lemma read_month_None (s : string) :
  spec.MM_YYYY s = false -> spec.read_month s = None.
Proof.
  rewrite read_month_MM_YYYY. destruct (spec.read_month s); [discriminate|reflexivity].
Qed.

Lemma month_ltb_lt (y1 m1 y2 m2 : Z) :
  spec.month_ltb y1 m1 y2 m2 = true <-> spec.month_lt y1 m1 y2 m2.
Proof. rewrite <- Before_month_ltb. apply Before_canonical. Qed.

Lemma month_ltb_not_lt (y1 m1 y2 m2 : Z) :
  spec.month_ltb y1 m1 y2 m2 = false <-> ~ spec.month_lt y1 m1 y2 m2.
Proof. rewrite <- month_ltb_lt. symmetry. apply not_true_iff_false. Qed.

Section ServiceFacts.
Variable strings_TrimSpace : string -> string.
Variable uuid_Parse : string -> bool.
Context {R : Type} `{service.SubscriptionRepository R}.

Lemma Create_spec (repo : R) (data : service.CreateSubscription) :
  service.Create strings_TrimSpace uuid_Parse repo data =
    match spec.first_failure (spec.Create_checks strings_TrimSpace uuid_Parse data) with
    | Some err => (repo, inr err)
    | None =>
        match spec.normalizeMonth (service.StartDate data) with
        | Some start =>
            spec.stored
              (service.repo_Create repo
                 (mkSubscription 0 (strings_TrimSpace (service.ServiceName data))
                    (service.Price data) (service.UserID data) start
                    (spec.end_or_open (service.EndDate data))))
        | None => (repo, inr ErrInvalidStartDate)
        end
    end.
Proof.
  unfold service.Create, spec.Create_checks, spec.invalid_service_name,
    spec.invalid_price, spec.invalid_user_id, spec.invalid_month,
    spec.invalid_end_month, spec.end_or_open.
  cbn [service.ServiceName service.Price service.UserID service.StartDate
       service.EndDate spec.first_failure].
  destruct (String.eqb _ ""); [reflexivity|].
  destruct (service.Price data <=? 0); [reflexivity|].
  destruct (uuid_Parse _); cbn [negb]; [|reflexivity].
  rewrite Parse_normalizeMonth, read_month_MM_YYYY. unfold spec.normalizeMonth.
  destruct (spec.read_month (service.StartDate data)) as [[ys ms]|];
    cbn [negb]; [|reflexivity].
  destruct (service.EndDate data) as [raw|]; [|reflexivity].
  destruct (String.eqb_spec raw "") as [-> | _]; cbn [negb]; [reflexivity|].
  rewrite Parse_normalizeMonth. unfold spec.normalizeMonth.
  destruct (spec.read_month raw) as [[ye me]|]; [|reflexivity].
  rewrite Before_month_ltb.
  destruct (spec.month_ltb ye me ys ms); reflexivity.
Qed.

Lemma Update_spec (repo : R) (id : Z) (data : service.CreateSubscription) :
  service.Update strings_TrimSpace uuid_Parse repo id data =
    if id <=? 0 then (repo, Some ErrInvalidID)
    else
      match spec.first_failure (spec.Create_checks strings_TrimSpace uuid_Parse data) with
      | Some err => (repo, Some err)
      | None =>
          match spec.normalizeMonth (service.StartDate data) with
          | Some start =>
              spec.updated
                (service.repo_Update repo
                   (mkSubscription id (strings_TrimSpace (service.ServiceName data))
                      (service.Price data) (service.UserID data) start
                      (spec.end_or_open (service.EndDate data))))
          | None => (repo, Some ErrInvalidStartDate)
          end
      end.
Proof.
  unfold service.Update, spec.Create_checks, spec.invalid_service_name,
    spec.invalid_price, spec.invalid_user_id, spec.invalid_month,
    spec.invalid_end_month, spec.end_or_open.
  cbn [service.ServiceName service.Price service.UserID service.StartDate
       service.EndDate spec.first_failure].
  destruct (id <=? 0); [reflexivity|].
  destruct (String.eqb _ ""); [reflexivity|].
  destruct (service.Price data <=? 0); [reflexivity|].
  destruct (uuid_Parse _); cbn [negb]; [|reflexivity].
  rewrite Parse_normalizeMonth, read_month_MM_YYYY. unfold spec.normalizeMonth.
  destruct (spec.read_month (service.StartDate data)) as [[ys ms]|];
    cbn [negb]; [|reflexivity].
  destruct (service.EndDate data) as [raw|]; [|reflexivity].
  destruct (String.eqb_spec raw "") as [-> | _]; cbn [negb]; [reflexivity|].
  rewrite Parse_normalizeMonth. unfold spec.normalizeMonth.
  destruct (spec.read_month raw) as [[ye me]|]; [|reflexivity].
  rewrite Before_month_ltb.
  destruct (spec.month_ltb ye me ys ms); reflexivity.
Qed.

Lemma Sum_spec (repo : R) (filter : service.FilterForSumSubscription) :
  service.Sum strings_TrimSpace uuid_Parse repo filter =
    match spec.first_failure (spec.Sum_checks strings_TrimSpace uuid_Parse filter) with
    | Some err => (repo, inr err)
    | None =>
        match spec.normalizeMonth (service.From filter),
              spec.normalizeMonth (service.To filter) with
        | Some from, Some to =>
            service.repo_Sum repo
              (mkSumSubscription (service.filter_UserID filter)
                 (strings_TrimSpace (service.filter_ServiceName filter)) from to)
        | None, _ => (repo, inr ErrInvalidStartDate)
        | Some _, None => (repo, inr ErrInvalidEndDate)
        end
    end.
Proof.
  unfold service.Sum, spec.Sum_checks, spec.invalid_service_name,
    spec.invalid_user_id, spec.invalid_month, spec.invalid_order.
  cbn [service.filter_ServiceName service.filter_UserID service.From service.To
       spec.first_failure].
  destruct (String.eqb _ ""); [reflexivity|].
  destruct (uuid_Parse _); cbn [negb]; [|reflexivity].
  rewrite !Parse_normalizeMonth, !read_month_MM_YYYY. unfold spec.normalizeMonth.
  destruct (spec.read_month (service.From filter)) as [[yf mf]|];
    cbn [negb]; [|reflexivity].
  destruct (spec.read_month (service.To filter)) as [[yt mt]|];
    cbn [negb]; [|reflexivity].
  rewrite Before_month_ltb.
  destruct (spec.month_ltb yt mt yf mf); [reflexivity|].
  destruct (service.repo_Sum _ _) as [repo' [total|err]]; reflexivity.
Qed.

(** C3 (as the code has it).  The error returned is that of the first
    check that fails, in the order service name, price, user id, start
    date, end date for [Create], and for [Update] once its id is positive
    (an id that is not positive is reported before anything else); in the
    order service name, user id, from, to, ordering of from and to for
    [Sum].  The repository is left as it was. *)
Theorem first_failing_check_reported :
  (forall (repo : R) (data : service.CreateSubscription) (err : error),
      spec.first_failure (spec.Create_checks strings_TrimSpace uuid_Parse data)
        = Some err ->
      service.Create strings_TrimSpace uuid_Parse repo data = (repo, inr err))
  /\ (forall (repo : R) (id : Z) (data : service.CreateSubscription) (err : error),
      0 < id ->
      spec.first_failure (spec.Create_checks strings_TrimSpace uuid_Parse data)
        = Some err ->
      service.Update strings_TrimSpace uuid_Parse repo id data = (repo, Some err))
  /\ (forall (repo : R) (id : Z) (data : service.CreateSubscription),
      id <= 0 ->
      service.Update strings_TrimSpace uuid_Parse repo id data
        = (repo, Some ErrInvalidID))
  /\ (forall (repo : R) (filter : service.FilterForSumSubscription) (err : error),
      spec.first_failure (spec.Sum_checks strings_TrimSpace uuid_Parse filter)
        = Some err ->
      service.Sum strings_TrimSpace uuid_Parse repo filter = (repo, inr err)).
Proof.
  repeat split.
  - intros repo data err Hfirst. rewrite Create_spec, Hfirst. reflexivity.
  - intros repo id data err Hid Hfirst. rewrite Update_spec, Hfirst.
    destruct (Z.leb_spec id 0); [lia|reflexivity].
  - intros repo id data Hid. rewrite Update_spec.
    destruct (Z.leb_spec id 0); [reflexivity|lia].
  - intros repo filter err Hfirst. rewrite Sum_spec, Hfirst. reflexivity.
Qed.

Lemma Create_checks_end (data : service.CreateSubscription) (ys ms : Z) :
  spec.invalid_service_name strings_TrimSpace (service.ServiceName data) = false ->
  spec.invalid_price (service.Price data) = false ->
  spec.invalid_user_id uuid_Parse (service.UserID data) = false ->
  spec.read_month (service.StartDate data) = Some (ys, ms) ->
  spec.first_failure (spec.Create_checks strings_TrimSpace uuid_Parse data)
  = if spec.invalid_end_month (service.StartDate data) (service.EndDate data)
    then Some ErrInvalidEndDate else None.
Proof.
  intros Hname Hprice Huser Hstart. unfold spec.Create_checks, spec.invalid_month.
  cbn [spec.first_failure]. rewrite Hname, Hprice, Huser.
  rewrite read_month_MM_YYYY, Hstart. cbn [negb].
  destruct (spec.invalid_end_month _ _); reflexivity.
Qed.

(** C4.  Once name, price, user id and start month are valid: an absent or
    empty end date reaches the repository as "no end"; an end month
    strictly before the start month is refused with [ErrInvalidEndDate]
    and nothing reaches the repository; an end month equal to the start
    month reaches the repository as that month.  [Update] does the same. *)
Theorem optional_end_month
    (repo : R) (id : Z) (data : service.CreateSubscription) (ys ms : Z) :
  0 < id -> 0 <= ys <= 9999 -> 1 <= ms <= 12 ->
  spec.invalid_service_name strings_TrimSpace (service.ServiceName data) = false ->
  spec.invalid_price (service.Price data) = false ->
  spec.invalid_user_id uuid_Parse (service.UserID data) = false ->
  service.StartDate data = spec.month_string ys ms ->
  let handed (id : Z) (end_ : option Time) :=
    mkSubscription id (strings_TrimSpace (service.ServiceName data))
      (service.Price data) (service.UserID data) (spec.canonical_month ys ms) end_ in
  (service.EndDate data = None \/ service.EndDate data = Some "" ->
     service.Create strings_TrimSpace uuid_Parse repo data
       = spec.stored (service.repo_Create repo (handed 0 None))
     /\ service.Update strings_TrimSpace uuid_Parse repo id data
       = spec.updated (service.repo_Update repo (handed id None)))
  /\ (forall ye me : Z,
        0 <= ye <= 9999 -> 1 <= me <= 12 ->
        service.EndDate data = Some (spec.month_string ye me) ->
        spec.month_lt ye me ys ms ->
        service.Create strings_TrimSpace uuid_Parse repo data
          = (repo, inr ErrInvalidEndDate)
        /\ service.Update strings_TrimSpace uuid_Parse repo id data
          = (repo, Some ErrInvalidEndDate))
  /\ (service.EndDate data = Some (spec.month_string ys ms) ->
        service.Create strings_TrimSpace uuid_Parse repo data
          = spec.stored (service.repo_Create repo
                           (handed 0 (Some (spec.canonical_month ys ms))))
        /\ service.Update strings_TrimSpace uuid_Parse repo id data
          = spec.updated (service.repo_Update repo
                            (handed id (Some (spec.canonical_month ys ms))))).
Proof.
  intros Hid Hys Hms Hname Hprice Huser Hstart handed.
  pose proof (read_month_month_string ys ms Hys Hms) as Hread.
  rewrite <- Hstart in Hread.
  pose proof (Create_checks_end data ys ms Hname Hprice Huser Hread) as Hchecks.
  assert (spec.normalizeMonth (service.StartDate data)
          = Some (spec.canonical_month ys ms)) as Hnorm
    by (unfold spec.normalizeMonth; rewrite Hread; reflexivity).
  assert ((id <=? 0) = false) as Hidb by (apply Z.leb_gt; lia).
  rewrite Create_spec, Update_spec, Hidb, Hchecks, Hnorm.
  split; [|split].
  - intros [Hend | Hend]; rewrite Hend; split; reflexivity.
  - intros ye me Hye Hme Hend Hlt. rewrite Hend.
    unfold spec.invalid_end_month.
    assert (String.eqb (spec.month_string ye me) "" = false) as -> by reflexivity.
    rewrite (read_month_month_string ye me Hye Hme), Hread.
    apply month_ltb_lt in Hlt. rewrite Hlt. split; reflexivity.
  - intros Hend. rewrite Hend.
    unfold spec.invalid_end_month, spec.end_or_open, spec.normalizeMonth.
    assert (String.eqb (spec.month_string ys ms) "" = false) as -> by reflexivity.
    rewrite Hstart, (read_month_month_string ys ms Hys Hms).
    assert (spec.month_ltb ys ms ys ms = false) as ->
      by (apply month_ltb_not_lt; unfold spec.month_lt; lia).
    split; reflexivity.
Qed.

(** C5.  Once name and user id are valid and both months are in the
    format: [Sum] refuses with [ErrInvalidEndDate] when [to] is strictly
    before [from], leaving the repository alone; otherwise it hands the
    trimmed name, the user id and the two canonical months to the
    repository and returns what the repository answers. *)
Theorem query_interval_order
    (repo : R) (filter : service.FilterForSumSubscription) (yf mf yt mt : Z) :
  0 <= yf <= 9999 -> 1 <= mf <= 12 -> 0 <= yt <= 9999 -> 1 <= mt <= 12 ->
  spec.invalid_service_name strings_TrimSpace (service.filter_ServiceName filter)
    = false ->
  spec.invalid_user_id uuid_Parse (service.filter_UserID filter) = false ->
  service.From filter = spec.month_string yf mf ->
  service.To filter = spec.month_string yt mt ->
  (spec.month_lt yt mt yf mf ->
     service.Sum strings_TrimSpace uuid_Parse repo filter
       = (repo, inr ErrInvalidEndDate))
  /\ (~ spec.month_lt yt mt yf mf ->
     service.Sum strings_TrimSpace uuid_Parse repo filter
       = service.repo_Sum repo
           (mkSumSubscription (service.filter_UserID filter)
              (strings_TrimSpace (service.filter_ServiceName filter))
              (spec.canonical_month yf mf) (spec.canonical_month yt mt))).
Proof.
  intros Hyf Hmf Hyt Hmt Hname Huser Hfrom Hto.
  rewrite Sum_spec. unfold spec.Sum_checks, spec.invalid_month, spec.invalid_order,
    spec.normalizeMonth.
  cbn [spec.first_failure]. rewrite Hname, Huser, Hfrom, Hto.
  rewrite !read_month_MM_YYYY.
  rewrite (read_month_month_string yf mf Hyf Hmf),
          (read_month_month_string yt mt Hyt Hmt).
  cbn [negb]. split.
  - intros Hlt. apply month_ltb_lt in Hlt. rewrite Hlt. reflexivity.
  - intros Hge. apply month_ltb_not_lt in Hge. rewrite Hge. reflexivity.
Qed.

Lemma checks_before_start (data : service.CreateSubscription) :
  spec.invalid_service_name strings_TrimSpace (service.ServiceName data) = false ->
  spec.invalid_price (service.Price data) = false ->
  spec.invalid_user_id uuid_Parse (service.UserID data) = false ->
  spec.MM_YYYY (service.StartDate data) = false ->
  spec.first_failure (spec.Create_checks strings_TrimSpace uuid_Parse data)
  = Some ErrInvalidStartDate.
Proof.
  intros Hname Hprice Huser Hstart. unfold spec.Create_checks, spec.invalid_month.
  cbn [spec.first_failure]. rewrite Hname, Hprice, Huser, Hstart. reflexivity.
Qed.

Lemma checks_before_end (data : service.CreateSubscription) (raw : string) :
  spec.invalid_service_name strings_TrimSpace (service.ServiceName data) = false ->
  spec.invalid_price (service.Price data) = false ->
  spec.invalid_user_id uuid_Parse (service.UserID data) = false ->
  spec.MM_YYYY (service.StartDate data) = true ->
  service.EndDate data = Some raw -> raw <> "" -> spec.MM_YYYY raw = false ->
  spec.first_failure (spec.Create_checks strings_TrimSpace uuid_Parse data)
  = Some ErrInvalidEndDate.
Proof.
  intros Hname Hprice Huser Hstart Hend Hraw Hbad.
  unfold spec.Create_checks, spec.invalid_month, spec.invalid_end_month.
  cbn [spec.first_failure]. rewrite Hname, Hprice, Huser, Hstart, Hend.
  cbn [negb]. destruct (String.eqb_spec raw ""); [contradiction|].
  rewrite (read_month_None raw Hbad). reflexivity.
Qed.

(** C2.  The texts in the format MM-YYYY are exactly the texts
    [month_string y m] with a year of four digits and a month from 01 to
    12; parsing such a text yields the first instant of that very month.
    Any other text fails to parse, and the service reports the failure as
    [ErrInvalidStartDate] when the text is a start or from date, and as
    [ErrInvalidEndDate] when it is a to date or a present, non-empty end
    date.  The empty text is not in the format, yet as an end date it is no
    error: [Create] and [Update] treat it as an absent end date. *)
Theorem month_format :
  (forall y m : Z,
      0 <= y <= 9999 -> 1 <= m <= 12 ->
      spec.MM_YYYY (spec.month_string y m) = true
      /\ Parse_01_2006 (spec.month_string y m) = Some (spec.canonical_month y m)
      /\ Date_of (spec.canonical_month y m) = (y, m, 1))
  /\ (forall s : string,
      spec.MM_YYYY s = true ->
      exists y m, 0 <= y <= 9999 /\ 1 <= m <= 12 /\ s = spec.month_string y m)
  /\ (forall s : string,
      spec.MM_YYYY s = false ->
      Parse_01_2006 s = None
      /\ (forall (repo : R) (id : Z) (data : service.CreateSubscription),
            0 < id ->
            spec.invalid_service_name strings_TrimSpace (service.ServiceName data)
              = false ->
            spec.invalid_price (service.Price data) = false ->
            spec.invalid_user_id uuid_Parse (service.UserID data) = false ->
            (service.StartDate data = s ->
               service.Create strings_TrimSpace uuid_Parse repo data
                 = (repo, inr ErrInvalidStartDate)
               /\ service.Update strings_TrimSpace uuid_Parse repo id data
                 = (repo, Some ErrInvalidStartDate))
            /\ (spec.MM_YYYY (service.StartDate data) = true ->
                service.EndDate data = Some s -> s <> "" ->
                service.Create strings_TrimSpace uuid_Parse repo data
                  = (repo, inr ErrInvalidEndDate)
                /\ service.Update strings_TrimSpace uuid_Parse repo id data
                  = (repo, Some ErrInvalidEndDate)))
      /\ (forall (repo : R) (filter : service.FilterForSumSubscription),
            spec.invalid_service_name strings_TrimSpace
              (service.filter_ServiceName filter) = false ->
            spec.invalid_user_id uuid_Parse (service.filter_UserID filter) = false ->
            (service.From filter = s ->
               service.Sum strings_TrimSpace uuid_Parse repo filter
                 = (repo, inr ErrInvalidStartDate))
            /\ (spec.MM_YYYY (service.From filter) = true ->
                service.To filter = s ->
                service.Sum strings_TrimSpace uuid_Parse repo filter
                  = (repo, inr ErrInvalidEndDate))))
  /\ (spec.MM_YYYY "" = false
      /\ forall (repo : R) (id : Z) (data : service.CreateSubscription),
          service.EndDate data = Some "" ->
          let absent :=
            service.mkCreateSubscription (service.ServiceName data)
              (service.Price data) (service.UserID data) (service.StartDate data)
              None in
          service.Create strings_TrimSpace uuid_Parse repo data
            = service.Create strings_TrimSpace uuid_Parse repo absent
          /\ service.Update strings_TrimSpace uuid_Parse repo id data
            = service.Update strings_TrimSpace uuid_Parse repo id absent).
Proof.
  split; [|split; [|split]].
  - intros y m Hy Hm. destruct (Parse_month_string y m Hy Hm) as [Hfmt Hparse].
    repeat split; assumption.
  - exact MM_YYYY_month_string.
  - intros s Hs. split; [exact (Parse_mismatch s Hs)|]. split.
    + intros repo id data Hid Hname Hprice Huser.
      assert ((id <=? 0) = false) as Hidb by (apply Z.leb_gt; lia).
      split.
      * intros Hstart. rewrite <- Hstart in Hs.
        rewrite Create_spec, Update_spec, Hidb,
          (checks_before_start data Hname Hprice Huser Hs).
        split; reflexivity.
      * intros Hstart Hend Hraw.
        rewrite Create_spec, Update_spec, Hidb,
          (checks_before_end data s Hname Hprice Huser Hstart Hend Hraw Hs).
        split; reflexivity.
    + intros repo filter Hname Huser. split.
      * intros Hfrom. rewrite <- Hfrom in Hs. rewrite Sum_spec.
        unfold spec.Sum_checks, spec.invalid_month. cbn [spec.first_failure].
        rewrite Hname, Huser, Hs. reflexivity.
      * intros Hfrom Hto. rewrite <- Hto in Hs. rewrite Sum_spec.
        unfold spec.Sum_checks, spec.invalid_month. cbn [spec.first_failure].
        rewrite Hname, Huser, Hfrom, Hs. reflexivity.
  - split; [reflexivity|]. intros repo id data Hend absent. subst absent.
    unfold service.Create, service.Update.
    cbn [service.ServiceName service.Price service.UserID service.StartDate
         service.EndDate].
    rewrite Hend. split; reflexivity.
Qed.

(** With a repository whose errors are its own, a validation error means
    that the repository was left alone. *)
Lemma validation_error_leaves_repository :
  spec.foreign_errors R ->
  (forall repo data repo' e,
      service.Create strings_TrimSpace uuid_Parse repo data = (repo', inr e) ->
      is_validation_error e = true -> repo' = repo)
  /\ (forall repo id repo' e,
      service.Get repo id = (repo', inr e) ->
      is_validation_error e = true -> repo' = repo)
  /\ (forall repo id data repo' e,
      service.Update strings_TrimSpace uuid_Parse repo id data = (repo', Some e) ->
      is_validation_error e = true -> repo' = repo)
  /\ (forall repo id repo' e,
      service.Delete repo id = (repo', Some e) ->
      is_validation_error e = true -> repo' = repo)
  /\ (forall repo userID repo' e,
      service.List uuid_Parse repo userID = (repo', inr e) ->
      is_validation_error e = true -> repo' = repo)
  /\ (forall repo filter repo' e,
      service.Sum strings_TrimSpace uuid_Parse repo filter = (repo', inr e) ->
      is_validation_error e = true -> repo' = repo).
Proof.
  intros (FCreate & FGet & FUpdate & FDelete & FList & FSum).
  repeat split.
  - intros repo data repo' e. rewrite Create_spec.
    destruct (spec.first_failure _); [congruence|].
    destruct (spec.normalizeMonth _); [|congruence].
    destruct (service.repo_Create _ _) as [[r1 sub1] [id|err]] eqn:Hcall;
      cbn; [discriminate|].
    intros [= <- <-] Hv. rewrite (FCreate _ _ _ _ _ Hcall) in Hv. discriminate.
  - intros repo id repo' e. unfold service.Get.
    destruct (id <=? 0); [congruence|].
    destruct (service.repo_Get _ _) as [r1 [sub|err]] eqn:Hcall; [discriminate|].
    destruct (errors_Is err sql_ErrNoRows); intros [= <- <-] Hv; [discriminate|].
    rewrite (FGet _ _ _ _ Hcall) in Hv. discriminate.
  - intros repo id data repo' e. rewrite Update_spec.
    destruct (id <=? 0); [congruence|].
    destruct (spec.first_failure _); [congruence|].
    destruct (spec.normalizeMonth _); [|congruence].
    unfold spec.updated.
    destruct (service.repo_Update _ _) as [r1 [err|]] eqn:Hcall; [|discriminate].
    destruct (errors_Is err sql_ErrNoRows); intros [= <- <-] Hv; [discriminate|].
    rewrite (FUpdate _ _ _ _ Hcall) in Hv. discriminate.
  - intros repo id repo' e. unfold service.Delete.
    destruct (id <=? 0); [congruence|].
    destruct (service.repo_Delete _ _) as [r1 [err|]] eqn:Hcall; [|discriminate].
    destruct (errors_Is err sql_ErrNoRows); intros [= <- <-] Hv; [discriminate|].
    rewrite (FDelete _ _ _ _ Hcall) in Hv. discriminate.
  - intros repo userID repo' e. unfold service.List.
    destruct (uuid_Parse userID); cbn [negb]; [|congruence].
    destruct (service.repo_List _ _) as [r1 [l|err]] eqn:Hcall; [discriminate|].
    intros [= <- <-] Hv. rewrite (FList _ _ _ _ Hcall) in Hv. discriminate.
  - intros repo filter repo' e. rewrite Sum_spec.
    destruct (spec.first_failure _); [congruence|].
    destruct (spec.normalizeMonth _); [|congruence].
    destruct (spec.normalizeMonth _); [|congruence].
    intros Hcall Hv. rewrite (FSum _ _ _ _ Hcall) in Hv. discriminate.
Qed.

Lemma first_failure_None_end (data : service.CreateSubscription) :
  spec.first_failure (spec.Create_checks strings_TrimSpace uuid_Parse data) = None ->
  spec.invalid_end_month (service.StartDate data) (service.EndDate data) = false.
Proof.
  unfold spec.Create_checks. cbn [spec.first_failure].
  repeat match goal with
         | |- context [if ?b then _ else _] => destruct b; try discriminate
         end.
  reflexivity.
Qed.

(** With a repository whose [Create] writes only the ID through the
    pointer, what a successful [Create] returns is the normalized input. *)
Lemma Create_returns_normalized (repo repo' : R)
    (data : service.CreateSubscription) (sub : Subscription) :
  spec.Create_writes_ID_only R ->
  service.Create strings_TrimSpace uuid_Parse repo data = (repo', inl sub) ->
  ServiceName sub = strings_TrimSpace (service.ServiceName data)
  /\ Price sub = service.Price data
  /\ UserID sub = service.UserID data
  /\ (exists y m,
        0 <= y <= 9999 /\ 1 <= m <= 12
        /\ service.StartDate data = spec.month_string y m
        /\ StartDate sub = spec.canonical_month y m)
  /\ match EndDate sub with
     | None => service.EndDate data = None \/ service.EndDate data = Some ""
     | Some e =>
         exists y m,
           0 <= y <= 9999 /\ 1 <= m <= 12
           /\ service.EndDate data = Some (spec.month_string y m)
           /\ e = spec.canonical_month y m
     end.
Proof.
  intros Hframe. rewrite Create_spec.
  destruct (spec.first_failure _) eqn:Hchecks; [discriminate|].
  apply first_failure_None_end in Hchecks.
  unfold spec.normalizeMonth.
  destruct (spec.read_month (service.StartDate data)) as [[ys ms]|] eqn:Hstart;
    [|discriminate].
  destruct (service.repo_Create _ _) as [[r1 sub1] res] eqn:Hcall.
  pose proof (Hframe _ _ _ _ _ Hcall) as Hsub1.
  destruct res as [id|err]; cbn; [|discriminate].
  intros [= <- <-]. rewrite Hsub1. cbn.
  destruct (read_month_Some _ _ _ Hstart) as (Hys & Hms & Hs).
  repeat split; [exists ys, ms; auto|].
  unfold spec.invalid_end_month in Hchecks. unfold spec.end_or_open, spec.normalizeMonth.
  destruct (service.EndDate data) as [raw|]; [|left; reflexivity].
  destruct (String.eqb_spec raw "") as [Hraw | Hraw];
    [subst raw; right; reflexivity|].
  destruct (spec.read_month raw) as [[ye me]|] eqn:Hend; [|discriminate].
  destruct (read_month_Some _ _ _ Hend) as (Hye & Hme & ->).
  exists ye, me. auto.
Qed.
End ServiceFacts.

(** ** The storage as the repository of the service *)

Lemma List_loop_error (items : list (Subscription + dberr))
    (result : list Subscription) (e : error) :
  List_loop items result = inr e -> is_validation_error e = false.
Proof.
  revert result. induction items as [|[res|err] items IH]; intros result; cbn.
  - discriminate.
  - apply IH.
  - intros [= <-]. reflexivity.
Qed.

Lemma Sum_loop_error (q : SumSubscription) (items : list (SumRow + dberr))
    (total : Z) (e : error) :
  Sum_loop q items total = inr e -> is_validation_error e = false.
Proof.
  revert total. induction items as [|[row|err] items IH]; intros total; cbn.
  - discriminate.
  - apply IH.
  - intros [= <-]. reflexivity.
Qed.

Lemma traced_foreign (R : Type) `{service.SubscriptionRepository R} :
  spec.foreign_errors R -> spec.foreign_errors (R * list traced.call).
Proof.
  intros (FCreate & FGet & FUpdate & FDelete & FList & FSum).
  repeat split; cbn.
  - intros [r log] sub r' sub' e.
    destruct (service.repo_Create _ _) as [[r1 sub1] res] eqn:Hcall.
    intros [= <- <- ->]. exact (FCreate _ _ _ _ _ Hcall).
  - intros [r log] id r' e.
    destruct (service.repo_Get _ _) as [r1 res] eqn:Hcall.
    intros [= <- ->]. exact (FGet _ _ _ _ Hcall).
  - intros [r log] sub r' e.
    destruct (service.repo_Update _ _) as [r1 res] eqn:Hcall.
    intros [= <- ->]. exact (FUpdate _ _ _ _ Hcall).
  - intros [r log] id r' e.
    destruct (service.repo_Delete _ _) as [r1 res] eqn:Hcall.
    intros [= <- ->]. exact (FDelete _ _ _ _ Hcall).
  - intros [r log] userID r' e.
    destruct (service.repo_List _ _) as [r1 res] eqn:Hcall.
    intros [= <- ->]. exact (FList _ _ _ _ Hcall).
  - intros [r log] filter r' e.
    destruct (service.repo_Sum _ _) as [r1 res] eqn:Hcall.
    intros [= <- ->]. exact (FSum _ _ _ _ Hcall).
Qed.

Section StorageFacts.
Variable strings_TrimSpace : string -> string.
Variable uuid_Parse : string -> bool.
Context {D : Type} `{Database D}.

Lemma Storage_foreign : spec.foreign_errors D.
Proof.
  repeat split; cbn.
  - intros db sub db' sub' e. unfold storage.Create.
    destruct (InsertSubQuery _ _ _ _ _ _) as [db1 [id|err]]; [discriminate|].
    intros [= <- <- <-]. reflexivity.
  - intros db id db' e. unfold storage.Get.
    destruct (SelectSubQuery _ _) as [db1 [sub|err]]; [discriminate|].
    intros [= <- <-]. reflexivity.
  - intros db sub db' e. unfold storage.Update.
    destruct (UpdateQuery _ _ _ _ _ _ _) as [db1 [[rows|err]|err]].
    + destruct (rows =? 0); [|discriminate]. intros [= <- <-]. reflexivity.
    + intros [= <- <-]. reflexivity.
    + intros [= <- <-]. reflexivity.
  - intros db id db' e. unfold storage.Delete.
    destruct (DeleteQuery _ _) as [db1 [[rows|err]|err]].
    + destruct (rows =? 0); [|discriminate]. intros [= <- <-]. reflexivity.
    + intros [= <- <-]. reflexivity.
    + intros [= <- <-]. reflexivity.
  - intros db userID db' e. unfold storage.List.
    destruct (ListQuery _ _) as [db1 [rows|err]].
    + destruct (List_loop _ _) as [result|err] eqn:Hloop.
      * destruct (rows_Err rows); [|discriminate]. intros [= <- <-]. reflexivity.
      * intros [= <- <-]. exact (List_loop_error _ _ _ Hloop).
    + intros [= <- <-]. reflexivity.
  - intros db filter db' e. unfold storage.Sum.
    destruct (SumQuery _ _ _ _ _) as [db1 [rows|err]].
    + destruct (Sum_loop _ _ _) as [total|err] eqn:Hloop.
      * destruct (rows_Err rows); [|discriminate]. intros [= <- <-]. reflexivity.
      * intros [= <- <-]. exact (Sum_loop_error _ _ _ _ Hloop).
    + intros [= <- <-]. reflexivity.
Qed.

Lemma Storage_Create_writes_ID_only : spec.Create_writes_ID_only D.
Proof.
  intros db sub db' sub' res. cbn. unfold storage.Create.
  destruct (InsertSubQuery _ _ _ _ _ _) as [db1 [id|err]]; intros [= <- <- <-].
  - reflexivity.
  - destruct sub; reflexivity.
Qed.

(** C9.  With the storage as repository and every call to it logged:
    [Get], [Update] and [Delete] answer [ErrInvalidID] for an id that is
    not positive; and whenever one of the six operations answers with a
    validation error, the database and the log of repository calls are
    what they were before the call. *)
Theorem validation_precedes_repository :
  (forall (st : D * list traced.call) (id : Z) (data : service.CreateSubscription),
      id <= 0 ->
      service.Get st id = (st, inr ErrInvalidID)
      /\ service.Update strings_TrimSpace uuid_Parse st id data
         = (st, Some ErrInvalidID)
      /\ service.Delete st id = (st, Some ErrInvalidID))
  /\ (forall (st st' : D * list traced.call) data e,
      service.Create strings_TrimSpace uuid_Parse st data = (st', inr e) ->
      is_validation_error e = true -> st' = st)
  /\ (forall (st st' : D * list traced.call) id e,
      service.Get st id = (st', inr e) ->
      is_validation_error e = true -> st' = st)
  /\ (forall (st st' : D * list traced.call) id data e,
      service.Update strings_TrimSpace uuid_Parse st id data = (st', Some e) ->
      is_validation_error e = true -> st' = st)
  /\ (forall (st st' : D * list traced.call) id e,
      service.Delete st id = (st', Some e) ->
      is_validation_error e = true -> st' = st)
  /\ (forall (st st' : D * list traced.call) userID e,
      service.List uuid_Parse st userID = (st', inr e) ->
      is_validation_error e = true -> st' = st)
  /\ (forall (st st' : D * list traced.call) filter e,
      service.Sum strings_TrimSpace uuid_Parse st filter = (st', inr e) ->
      is_validation_error e = true -> st' = st).
Proof.
  split.
  - intros st id data Hid.
    assert ((id <=? 0) = true) as Hidb by (apply Z.leb_le; exact Hid).
    unfold service.Get, service.Update, service.Delete. rewrite Hidb.
    repeat split.
  - pose proof (validation_error_leaves_repository strings_TrimSpace uuid_Parse
                  (R := D * list traced.call)
                  (traced_foreign D Storage_foreign))
      as (HCreate & HGet & HUpdate & HDelete & HList & HSum).
    repeat split; intros; eauto.
Qed.

(** C10.  What a successful [Create] returns carries the trimmed service
    name, the price and the user id of the input, and as start and end the
    canonical months of the input texts (no end for an absent or empty
    text); a canonical month is day 1 at 00:00:00 of its month, and
    canonical months compare as their (year, month) pairs do. *)
Theorem Create_returns_canonical
    (db db' : D) (data : service.CreateSubscription) (sub : Subscription) :
  service.Create strings_TrimSpace uuid_Parse db data = (db', inl sub) ->
  ServiceName sub = strings_TrimSpace (service.ServiceName data)
  /\ Price sub = service.Price data
  /\ UserID sub = service.UserID data
  /\ (exists y m,
        0 <= y <= 9999 /\ 1 <= m <= 12
        /\ service.StartDate data = spec.month_string y m
        /\ StartDate sub = spec.canonical_month y m)
  /\ match EndDate sub with
     | None => service.EndDate data = None \/ service.EndDate data = Some ""
     | Some e =>
         exists y m,
           0 <= y <= 9999 /\ 1 <= m <= 12
           /\ service.EndDate data = Some (spec.month_string y m)
           /\ e = spec.canonical_month y m
     end
  /\ (forall y m, spec.canonical_month y m = mkTime y m 1 0)
  /\ (forall y1 m1 y2 m2,
        Before (spec.canonical_month y1 m1) (spec.canonical_month y2 m2) = true
        <-> spec.month_lt y1 m1 y2 m2).
Proof.
  intros Hcreate.
  destruct (Create_returns_normalized strings_TrimSpace uuid_Parse db db' data sub
              Storage_Create_writes_ID_only Hcreate)
    as (Hname & Hprice & Huser & Hstart & Hend).
  repeat split; try assumption; apply Before_canonical.
Qed.
End StorageFacts.

(** ** The theorems at concrete inputs

    The service runs here on the in-memory database, with the ASCII
    instances of the two library functions. *)

Lemma month_format_witness :
  Parse_01_2006 "01-2024" = Some (Date 2024 1 1)
  /\ service.Create ascii_libs.TrimSpace ascii_libs.uuid_Parse memdb.empty
       scenario.iso_start
     = (memdb.empty, inr ErrInvalidStartDate).
Proof.
  destruct (month_format ascii_libs.TrimSpace ascii_libs.uuid_Parse (R := memdb.t))
    as (Hmatch & _ & Hother & _).
  split.
  - destruct (Hmatch 2024 1) as (_ & Hparse & _); [lia | lia | exact Hparse].
  - destruct (Hother "2024-01-01") as (_ & Hwrite & _); [reflexivity|].
    destruct (Hwrite memdb.empty 1 scenario.iso_start) as [Hstart _];
      [lia | reflexivity | reflexivity | reflexivity |].
    destruct Hstart as [Hcreate _]; [reflexivity | exact Hcreate].
Defined.

Lemma first_failing_check_reported_witness :
  service.Create ascii_libs.TrimSpace ascii_libs.uuid_Parse memdb.empty
    scenario.blank_and_free
  = (memdb.empty, inr ErrInvalidServiceName).
Proof.
  apply (proj1 (first_failing_check_reported ascii_libs.TrimSpace ascii_libs.uuid_Parse
                  (R := memdb.t))).
  reflexivity.
Defined.

(** C3 fails as stated for [Update]: with an id of 0, a blank name and a
    price of 0, the first invalid field in the order service name, price,
    user id, start date, end date is the service name, yet [Update] answers
    [ErrInvalidID]. *)
Lemma Update_reports_id_first :
  spec.first_failure
    (spec.Create_checks ascii_libs.TrimSpace ascii_libs.uuid_Parse
       scenario.blank_and_free)
  = Some ErrInvalidServiceName
  /\ service.Update ascii_libs.TrimSpace ascii_libs.uuid_Parse memdb.empty 0
       scenario.blank_and_free
     = (memdb.empty, Some ErrInvalidID)
  /\ service.Update ascii_libs.TrimSpace ascii_libs.uuid_Parse memdb.empty 0
       scenario.blank_and_free
     <> (memdb.empty, Some ErrInvalidServiceName).
Proof. repeat split; try reflexivity. discriminate. Qed.

(** C2 fails as stated for an end date: the empty text is not in the format
    MM-YYYY, yet [Create] with a present, empty end date and otherwise valid
    fields does not answer [ErrInvalidEndDate]; it stores the subscription
    with no end date. *)
Lemma empty_end_is_no_format_error :
  spec.MM_YYYY "" = false
  /\ Parse_01_2006 "" = None
  /\ service.Create ascii_libs.TrimSpace ascii_libs.uuid_Parse memdb.empty
       scenario.netflix_empty_end
     = (memdb.mk
          (<[1 := mkSubscription 1 "Netflix" 100 scenario.user (Date 2024 1 1) None]> ∅)
          1,
        inl (mkSubscription 1 "Netflix" 100 scenario.user (Date 2024 1 1) None))
  /\ service.Create ascii_libs.TrimSpace ascii_libs.uuid_Parse memdb.empty
       scenario.netflix_empty_end
     <> (memdb.empty, inr ErrInvalidEndDate).
Proof. repeat split; try reflexivity. discriminate. Qed.

Lemma optional_end_month_witness :
  service.Create ascii_libs.TrimSpace ascii_libs.uuid_Parse memdb.empty
    scenario.ends_early
  = (memdb.empty, inr ErrInvalidEndDate).
Proof.
  destruct (optional_end_month ascii_libs.TrimSpace ascii_libs.uuid_Parse
              memdb.empty 1 scenario.ends_early 2024 1)
    as (_ & Hbefore & _);
    [lia | lia | lia | reflexivity | reflexivity | reflexivity | reflexivity |].
  destruct (Hbefore 2023 12) as [Hcreate _];
    [lia | lia | reflexivity | left; lia | exact Hcreate].
Defined.

Lemma query_interval_order_witness :
  service.Sum ascii_libs.TrimSpace ascii_libs.uuid_Parse memdb.empty
    scenario.backwards
  = (memdb.empty, inr ErrInvalidEndDate).
Proof.
  destruct (query_interval_order ascii_libs.TrimSpace ascii_libs.uuid_Parse
              memdb.empty scenario.backwards 2024 2 2024 1)
    as [Hbefore _];
    [lia | lia | lia | lia | reflexivity | reflexivity | reflexivity | reflexivity |].
  apply Hbefore. right. lia.
Defined.

Lemma validation_precedes_repository_witness :
  service.Get (memdb.empty, @nil traced.call) 0
  = ((memdb.empty, []), inr ErrInvalidID)
  /\ service.Delete (scenario.after_netflix, @nil traced.call) (-1)
     = ((scenario.after_netflix, []), Some ErrInvalidID).
Proof.
  destruct (validation_precedes_repository ascii_libs.TrimSpace ascii_libs.uuid_Parse
              (D := memdb.t)) as [Hid _].
  split.
  - destruct (Hid (memdb.empty, []) 0 scenario.netflix) as (Hget & _ & _);
      [lia | exact Hget].
  - destruct (Hid (scenario.after_netflix, []) (-1) scenario.netflix)
      as (_ & _ & Hdelete); [lia | exact Hdelete].
Defined.

Lemma Create_returns_canonical_witness :
  ServiceName scenario.netflix_stored = "Netflix"
  /\ Price scenario.netflix_stored = 100
  /\ StartDate scenario.netflix_stored = mkTime 2024 1 1 0.
Proof.
  destruct (Create_returns_canonical ascii_libs.TrimSpace ascii_libs.uuid_Parse
              memdb.empty scenario.after_netflix scenario.netflix
              scenario.netflix_stored)
    as (Hname & Hprice & _).
  - vm_compute. reflexivity.
  - split; [exact Hname|]. split; [exact Hprice|]. reflexivity.
Defined.

(** The two subscriptions of the scenario created through the service, then
    summed over 2024-01 to 2024-03. *)
Example created_then_summed :
  let '(db1, _) := service.Create ascii_libs.TrimSpace ascii_libs.uuid_Parse
                     memdb.empty scenario.netflix_open in
  let '(db2, _) := service.Create ascii_libs.TrimSpace ascii_libs.uuid_Parse
                     db1 scenario.netflix_february in
  snd (service.Sum ascii_libs.TrimSpace ascii_libs.uuid_Parse db2
         scenario.first_quarter)
  = inl 350.
Proof. vm_compute. reflexivity. Qed.

(** * Further properties of the code *)

(** ** The aggregation loop, continued *)

Lemma selected_rows_overlap_witness :
  After (spec.effective_start scenario.query
           (mkSumRow 100 (Date 2024 1 1) (Some (Date 2024 2 1))))
        (spec.effective_end scenario.query
           (mkSumRow 100 (Date 2024 1 1) (Some (Date 2024 2 1))))
  = false.
Proof.
  apply (selected_rows_overlap scenario.user "Netflix" (Date 2024 1 1) (Date 2024 3 1)
           scenario.netflix_stored);
    [reflexivity | reflexivity | reflexivity].
Defined.

Lemma index_le (a b : Time) :
  wf a -> wf b -> Before b a = false -> months.index a <= months.index b.
Proof.
  intros [_ Ha] [_ Hb] Hle. apply not_Before_lex in Hle. unfold months.index. lia.
Qed.

Lemma monthsSpan_index (a b : Time) :
  spec.monthsSpan a b = months.index b - months.index a + 1.
Proof. unfold spec.monthsSpan, months.index. lia. Qed.

Lemma effective_start_from (q : SumSubscription) (row : SumRow) :
  Before (spec.effective_start q row) (From q) = false.
Proof.
  unfold spec.effective_start, spec.time_max.
  destruct (Before (startDate row) (From q)) eqn:Hb; [apply Before_irrefl | exact Hb].
Qed.

Lemma effective_end_to (q : SumSubscription) (row : SumRow) :
  Before (To q) (spec.effective_end q row) = false.
Proof.
  unfold spec.effective_end, spec.time_min.
  destruct (endDate row) as [e|]; [|apply Before_irrefl].
  destruct (Before (To q) e) eqn:Hb; [apply Before_irrefl | exact Hb].
Qed.

(** Times in UTC: with a price that is not negative and [to >= from], what
    a row adds lies between 0 and the price times the number of months
    from [from] to [to]. *)
Lemma Sum_delta_within_query (q : SumSubscription) (row : SumRow) :
  spec.query_ok q -> spec.row_wf row -> 0 <= price row ->
  goint.in_range (price row * spec.monthsSpan (From q) (To q)) ->
  0 <= Sum_delta q row <= price row * spec.monthsSpan (From q) (To q).
Proof.
  intros [Hq Horder] Hrow Hprice Hfit.
  pose proof Hq as [Hf Ht]. pose proof Hrow as [Hs He].
  pose proof (wf_effective_start q row Hf Hs) as Hes.
  pose proof (wf_effective_end q row Ht He) as Hee.
  pose proof (index_le _ _ Hf Hes (effective_start_from q row)) as Hlo.
  pose proof (index_le _ _ Hee Ht (effective_end_to q row)) as Hhi.
  pose proof (index_le _ _ Hf Ht Horder) as Hwidth.
  assert (0 <= spec.contribution q row
          <= price row * spec.monthsSpan (From q) (To q)) as Hbound.
  { unfold spec.contribution, spec.formula. rewrite !monthsSpan_index.
    destruct (After _ _); [nia|].
    destruct (Z.leb_spec (months.index (spec.effective_end q row)
                          - months.index (spec.effective_start q row) + 1) 0); nia. }
  rewrite (delta_contribution q row Hq Hrow), wrap_id; [exact Hbound|].
  unfold goint.in_range in *. unfold goint.min_int in *.
  change (- 2 ^ 63) with (-9223372036854775808) in *. lia.
Qed.

(** ** Splitting a query at a month *)

Lemma canonical_Before (a b : Time) :
  months.canonical a -> months.canonical b ->
  Before a b = (months.index a <? months.index b).
Proof.
  intros ([_ Ha] & Hda & Hna) ([_ Hb] & Hdb & Hnb).
  destruct (Z.ltb_spec (months.index a) (months.index b)) as [Hlt | Hge];
    [apply Before_lex | apply not_Before_lex]; unfold months.index in *; lia.
Qed.

Lemma canonical_effective_start (q : SumSubscription) (row : SumRow) :
  months.canonical (From q) -> months.canonical (startDate row) ->
  months.canonical (spec.effective_start q row)
  /\ months.index (spec.effective_start q row)
     = Z.max (months.index (startDate row)) (months.index (From q)).
Proof.
  intros Hf Hs. unfold spec.effective_start, spec.time_max.
  rewrite (canonical_Before _ _ Hs Hf).
  destruct (Z.ltb_spec (months.index (startDate row)) (months.index (From q)));
    (split; [assumption | lia]).
Qed.

Lemma canonical_effective_end (q : SumSubscription) (row : SumRow) :
  months.canonical (To q) ->
  match endDate row with Some e => months.canonical e | None => True end ->
  months.canonical (spec.effective_end q row)
  /\ months.index (spec.effective_end q row) = months.end_index q row.
Proof.
  intros Ht He. unfold spec.effective_end, spec.time_min, months.end_index.
  destruct (endDate row) as [e|]; [|split; [assumption | reflexivity]].
  rewrite (canonical_Before _ _ Ht He).
  destruct (Z.ltb_spec (months.index (To q)) (months.index e));
    (split; [assumption | lia]).
Qed.

Lemma contribution_index (q : SumSubscription) (row : SumRow) :
  months.canonical (From q) -> months.canonical (To q) -> months.canonical_row row ->
  spec.contribution q row
  = price row
    * Z.max 0 (months.end_index q row
               - Z.max (months.index (startDate row)) (months.index (From q)) + 1).
Proof.
  intros Hf Ht [Hs He].
  destruct (canonical_effective_start q row Hf Hs) as [Hes Hies].
  destruct (canonical_effective_end q row Ht He) as [Hee Hiee].
  unfold spec.contribution, spec.formula, After.
  rewrite (canonical_Before _ _ Hee Hes), monthsSpan_index, Hies, Hiee.
  set (lo := Z.max (months.index (startDate row)) (months.index (From q))).
  set (hi := months.end_index q row).
  destruct (Z.ltb_spec hi lo).
  - rewrite (Z.max_l 0 (hi - lo + 1)) by lia. lia.
  - destruct (Z.leb_spec (hi - lo + 1) 0).
    + rewrite (Z.max_l 0 (hi - lo + 1)) by lia. lia.
    + rewrite (Z.max_r 0 (hi - lo + 1)) by lia. reflexivity.
Qed.

Lemma canonical_next (mid to : Time) :
  months.canonical mid -> months.canonical to -> Before mid to = true ->
  months.canonical (months.next mid)
  /\ months.index (months.next mid) = months.index mid + 1.
Proof.
  intros Hm Ht Hlt. rewrite (canonical_Before _ _ Hm Ht) in Hlt.
  apply Z.ltb_lt in Hlt.
  destruct Hm as ([Hy Hmo] & _ & _), Ht as ([Hyt Hmt] & _ & _).
  unfold months.next, months.canonical, wf, months.index, Date in *.
  destruct (Z.eqb_spec (t_month mid) 12); cbn; repeat split; lia.
Qed.

Lemma contribution_splits (q : SumSubscription) (from mid to : Time) (row : SumRow) :
  months.canonical from -> months.canonical mid -> months.canonical to ->
  Before mid from = false -> Before mid to = true -> months.canonical_row row ->
  spec.contribution (months.between q from to) row
  = spec.contribution (months.between q from mid) row
    + spec.contribution (months.between q (months.next mid) to) row.
Proof.
  intros Hf Hm Ht Hfm Hmt Hrow.
  destruct (canonical_next mid to Hm Ht Hmt) as [Hn Hin].
  rewrite (canonical_Before _ _ Hm Hf) in Hfm. apply Z.ltb_ge in Hfm.
  rewrite (canonical_Before _ _ Hm Ht) in Hmt. apply Z.ltb_lt in Hmt.
  rewrite !contribution_index by assumption.
  unfold months.end_index, months.between. cbn [From To]. rewrite Hin.
  rewrite <- Z.mul_add_distr_l. f_equal.
  destruct (endDate row) as [e|]; lia.
Qed.

Lemma totalCost_splits (q : SumSubscription) (from mid to : Time) (rows : list SumRow) :
  months.canonical from -> months.canonical mid -> months.canonical to ->
  Before mid from = false -> Before mid to = true ->
  Forall months.canonical_row rows ->
  spec.totalCost (months.between q from to) rows
  = spec.totalCost (months.between q from mid) rows
    + spec.totalCost (months.between q (months.next mid) to) rows.
Proof.
  intros Hf Hm Ht Hfm Hmt. induction 1 as [|row rows Hrow _ IH]; [reflexivity|].
  rewrite !totalCost_cons, IH,
    (contribution_splits q from mid to row Hf Hm Ht Hfm Hmt Hrow). lia.
Qed.

Lemma canonical_row_wf (rows : list SumRow) :
  Forall months.canonical_row rows -> Forall spec.row_wf rows.
Proof.
  intros H. eapply Forall_impl; [exact H|]. intros row [[Hs _] He].
  split; [exact Hs|]. destruct (endDate row); [apply He | exact I].
Qed.

(** Times in UTC: the total over [from, to] is the sum, in [int]
    arithmetic, of the totals over [from, mid] and over the month after
    [mid] up to [to]. *)
Lemma aggregate_splits_at_month
    (q : SumSubscription) (from mid to : Time) (rows : list SumRow) :
  months.canonical from -> months.canonical mid -> months.canonical to ->
  Before mid from = false -> Before mid to = true ->
  Forall months.canonical_row rows ->
  exists left right : Z,
    spec.aggregate (months.between q from mid) rows = inl left
    /\ spec.aggregate (months.between q (months.next mid) to) rows = inl right
    /\ spec.aggregate (months.between q from to) rows = inl (goint.add left right).
Proof.
  intros Hf Hm Ht Hfm Hmt Hrows.
  destruct (canonical_next mid to Hm Ht Hmt) as [Hn _].
  pose proof (canonical_row_wf rows Hrows) as Hwf.
  assert (forall a b, months.canonical a -> months.canonical b ->
                      spec.query_wf (months.between q a b)) as Hq
    by (intros a b [Ha _] [Hb _]; split; assumption).
  exists (goint.wrap (spec.totalCost (months.between q from mid) rows)),
         (goint.wrap (spec.totalCost (months.between q (months.next mid) to) rows)).
  rewrite !aggregate_totalCost by auto.
  repeat split.
  rewrite (totalCost_splits q from mid to rows Hf Hm Ht Hfm Hmt Hrows).
  unfold goint.add. rewrite wrap_add_wrap_l, wrap_add_wrap_r. reflexivity.
Qed.

(** ** Rows that cover the query, rows of a single month *)

Lemma Sum_delta_overlap (q : SumSubscription) (row : SumRow) :
  spec.query_wf q -> spec.row_wf row ->
  After (spec.effective_start q row) (spec.effective_end q row) = false ->
  Sum_delta q row
  = goint.mul (price row)
      (spec.monthsSpan (spec.effective_start q row) (spec.effective_end q row)).
Proof.
  intros [Hf Ht] [Hs He] Hov.
  pose proof (wf_effective_start q row Hf Hs) as Hes.
  pose proof (wf_effective_end q row Ht He) as Hee.
  pose proof (monthsSpan_overlap _ _ Hes Hee Hov) as Hspan.
  unfold Sum_delta. rewrite Sum_step_eq, Hov, (months_exact _ _ Hes Hee).
  destruct (Z.ltb_spec (spec.monthsSpan (spec.effective_start q row)
                                        (spec.effective_end q row)) 0); [lia|].
  unfold goint.add, goint.mul. rewrite Z.add_0_l. apply wrap_wrap.
Qed.

Lemma effective_start_early (q : SumSubscription) (row : SumRow) :
  Before (From q) (startDate row) = false -> spec.effective_start q row = From q.
Proof.
  intros Hle. unfold spec.effective_start, spec.time_max.
  destruct (Before (startDate row) (From q)) eqn:Hlt; [reflexivity|].
  apply Before_total; assumption.
Qed.

Lemma effective_end_late (q : SumSubscription) (row : SumRow) :
  match endDate row with Some e => Before e (To q) = false | None => True end ->
  spec.effective_end q row = To q.
Proof.
  intros Hle. unfold spec.effective_end, spec.time_min.
  destruct (endDate row) as [e|]; [|reflexivity].
  destruct (Before (To q) e) eqn:Hlt; [reflexivity|].
  apply Before_total; assumption.
Qed.

(** X4.  A subscription that is active during the whole query (it starts
    at or before [from] and has no end, or ends at or after [to]) is billed
    its price for every month of the query. *)
Theorem covering_row_pays_every_month (q : SumSubscription) (row : SumRow) :
  spec.query_ok q -> spec.row_wf row ->
  Before (From q) (startDate row) = false ->
  match endDate row with Some e => Before e (To q) = false | None => True end ->
  Sum_delta q row = goint.mul (price row) (spec.monthsSpan (From q) (To q))
  /\ 1 <= spec.monthsSpan (From q) (To q).
Proof.
  intros [Hq Horder] Hrow Hstart Hend.
  pose proof (effective_start_early q row Hstart) as Hes.
  pose proof (effective_end_late q row Hend) as Hee.
  assert (After (spec.effective_start q row) (spec.effective_end q row) = false) as Hov
    by (rewrite Hes, Hee; exact Horder).
  rewrite (Sum_delta_overlap q row Hq Hrow Hov), Hes, Hee.
  split; [reflexivity|].
  destruct Hq as [Hf Ht]. apply monthsSpan_overlap; assumption.
Qed.

Lemma covering_row_pays_every_month_witness :
  Sum_delta scenario.query scenario.open_ended = goint.mul 100 3 /\ 1 <= 3.
Proof.
  apply (covering_row_pays_every_month scenario.query scenario.open_ended);
    by_computation.
Defined.

(** Times in UTC: a row of a single month inside the query adds its
    price. *)
Lemma Sum_delta_single_month (q : SumSubscription) (row : SumRow) :
  spec.query_wf q -> wf (startDate row) ->
  endDate row = Some (startDate row) ->
  Before (startDate row) (From q) = false ->
  Before (To q) (startDate row) = false ->
  goint.in_range (price row) ->
  Sum_delta q row = price row.
Proof.
  intros Hq Hs Hend Hlo Hhi Hprice.
  assert (spec.row_wf row) as Hrow by (split; [exact Hs | rewrite Hend; exact Hs]).
  assert (spec.effective_start q row = startDate row) as Hes
    by (unfold spec.effective_start, spec.time_max; rewrite Hlo; reflexivity).
  assert (spec.effective_end q row = startDate row) as Hee
    by (unfold spec.effective_end, spec.time_min; rewrite Hend, Hhi; reflexivity).
  assert (After (spec.effective_start q row) (spec.effective_end q row) = false) as Hov
    by (rewrite Hes, Hee; apply Before_irrefl).
  rewrite (Sum_delta_overlap q row Hq Hrow Hov), Hes, Hee.
  replace (spec.monthsSpan (startDate row) (startDate row)) with 1
    by (unfold spec.monthsSpan; lia).
  unfold goint.mul. rewrite Z.mul_1_r. apply wrap_id, Hprice.
Qed.

(** ** Rows in a Location of their own *)

Lemma in_UTC_Date_of (t : zoned.Time) :
  zoned.in_UTC t -> zoned.Date_of t = Date_of (zoned.instant t).
Proof. intros ->. reflexivity. Qed.

Lemma months_inclusive_in_UTC (from to : zoned.Time) :
  zoned.in_UTC from -> zoned.in_UTC to ->
  zoned.months_inclusive from to
  = months_inclusive (zoned.instant from) (zoned.instant to).
Proof.
  intros Hf Ht. unfold zoned.months_inclusive, months_inclusive.
  rewrite (in_UTC_Date_of from Hf), (in_UTC_Date_of to Ht). reflexivity.
Qed.

Lemma in_UTC_UTC (t : Time) : zoned.in_UTC (zoned.UTC t).
Proof. reflexivity. Qed.

Lemma Sum_step_in_UTC (q : SumSubscription) (total : Z) (row : zoned.SumRow) :
  zoned.row_in_UTC row ->
  zoned.Sum_step (zoned.UTC (From q)) (zoned.UTC (To q)) total row
  = Sum_step q total (zoned.instants row).
Proof.
  intros [Hs He]. unfold zoned.Sum_step, Sum_step, zoned.instants,
    zoned.After, zoned.Before, After.
  cbn [startDate endDate price zoned.instant zoned.UTC].
  destruct (zoned.endDate row) as [e|]; cbn [fmap option_fmap option_map].
  - destruct (Before (From q) (zoned.instant (zoned.startDate row)));
      destruct (Before (zoned.instant e) (To q));
      cbn [zoned.instant zoned.UTC];
      rewrite months_inclusive_in_UTC by (first [assumption | apply in_UTC_UTC]);
      reflexivity.
  - destruct (Before (From q) (zoned.instant (zoned.startDate row)));
      cbn [zoned.instant zoned.UTC];
      rewrite months_inclusive_in_UTC by (first [assumption | apply in_UTC_UTC]);
      reflexivity.
Qed.

Lemma Sum_loop_in_UTC (q : SumSubscription) (rows : list zoned.SumRow) (total : Z) :
  Forall zoned.row_in_UTC rows ->
  zoned.Sum_loop (zoned.UTC (From q)) (zoned.UTC (To q)) (inl <$> rows) total
  = Sum_loop q (inl <$> (zoned.instants <$> rows)) total.
Proof.
  intros Hrows. revert total.
  induction Hrows as [|row rows Hrow _ IH]; intros total; [reflexivity|].
  cbn. rewrite (Sum_step_in_UTC q total row Hrow). apply IH.
Qed.

Lemma aggregate_in_UTC (q : SumSubscription) (rows : list zoned.SumRow) :
  Forall zoned.row_in_UTC rows ->
  zoned.aggregate q rows = spec.aggregate q (zoned.instants <$> rows).
Proof. apply Sum_loop_in_UTC. Qed.

Lemma in_UTC_of_UTC (row : SumRow) : zoned.row_in_UTC (zoned.of_UTC row).
Proof.
  split; [reflexivity|]. unfold zoned.of_UTC. cbn.
  destruct (endDate row); [reflexivity | exact I].
Qed.

(** X2.  A row whose dates the driver holds in UTC is never billed for
    more months than the query has: with a price that is not negative and
    [to >= from], what the row adds lies between 0 and the price times the
    number of months from [from] to [to]. *)
Theorem contribution_within_query (q : SumSubscription) (row : zoned.SumRow) :
  zoned.row_in_UTC row ->
  spec.query_ok q -> spec.row_wf (zoned.instants row) -> 0 <= zoned.price row ->
  goint.in_range (zoned.price row * spec.monthsSpan (From q) (To q)) ->
  0 <= zoned.Sum_delta q row <= zoned.price row * spec.monthsSpan (From q) (To q).
Proof.
  intros Hutc Hq Hrow Hprice Hfit. unfold zoned.Sum_delta.
  rewrite (Sum_step_in_UTC q 0 row Hutc).
  exact (Sum_delta_within_query q (zoned.instants row) Hq Hrow Hprice Hfit).
Qed.

Lemma contribution_within_query_witness :
  0 <= zoned.Sum_delta scenario.query (zoned.of_UTC scenario.february) <= 50 * 3.
Proof.
  apply (contribution_within_query scenario.query (zoned.of_UTC scenario.february));
    [apply in_UTC_of_UTC | by_computation ..].
Defined.

(** Held at -05:00, a row that starts two hours into January 2024 reads
    as December 2023: a query of two months bills it three. *)
Example other_Location_adds_a_month :
  zoned.Sum_delta scenario.two_months
    (zoned.mkSumRow 100 zoned.new_year_at_minus_five None)
  = 300.
Proof. reflexivity. Qed.

(** X3.  A query split at a month boundary neither loses nor double counts
    a month of rows whose dates the driver holds in UTC: for rows and
    bounds that are first instants of months, with [from <= mid < to], the
    total over [from, to] is the sum, in [int] arithmetic, of the totals
    over [from, mid] and over the month after [mid] up to [to]. *)
Theorem query_splits_at_month
    (q : SumSubscription) (from mid to : Time) (rows : list zoned.SumRow) :
  Forall zoned.row_in_UTC rows ->
  months.canonical from -> months.canonical mid -> months.canonical to ->
  Before mid from = false -> Before mid to = true ->
  Forall (fun row => months.canonical_row (zoned.instants row)) rows ->
  exists left right : Z,
    zoned.aggregate (months.between q from mid) rows = inl left
    /\ zoned.aggregate (months.between q (months.next mid) to) rows = inl right
    /\ zoned.aggregate (months.between q from to) rows = inl (goint.add left right).
Proof.
  intros Hutc Hf Hm Ht Hfm Hmt Hrows.
  rewrite !aggregate_in_UTC by exact Hutc.
  apply aggregate_splits_at_month; try assumption.
  apply Forall_fmap. exact Hrows.
Qed.

Lemma query_splits_at_month_witness :
  exists left right : Z,
    zoned.aggregate (months.between scenario.query (Date 2024 1 1) (Date 2024 2 1))
      [zoned.of_UTC scenario.open_ended; zoned.of_UTC scenario.february] = inl left
    /\ zoned.aggregate
         (months.between scenario.query (months.next (Date 2024 2 1)) (Date 2024 3 1))
         [zoned.of_UTC scenario.open_ended; zoned.of_UTC scenario.february] = inl right
    /\ zoned.aggregate (months.between scenario.query (Date 2024 1 1) (Date 2024 3 1))
         [zoned.of_UTC scenario.open_ended; zoned.of_UTC scenario.february]
       = inl (goint.add left right).
Proof.
  apply (query_splits_at_month scenario.query (Date 2024 1 1) (Date 2024 2 1)
           (Date 2024 3 1)
           [zoned.of_UTC scenario.open_ended; zoned.of_UTC scenario.february]);
    [repeat constructor; apply in_UTC_of_UTC
    | by_computation | by_computation | by_computation | reflexivity | reflexivity |].
  repeat constructor; by_computation.
Defined.

(** Held at -05:00, an open-ended row that starts with March 2024 reads as
    February: the query from January to April bills it three months, its
    two halves split after February bill it none and two. *)
Example other_Location_splits_unevenly :
  zoned.aggregate (months.between scenario.query (Date 2024 1 1) (Date 2024 4 1))
    [zoned.mkSumRow 100 zoned.march_at_minus_five None] = inl 300
  /\ zoned.aggregate (months.between scenario.query (Date 2024 1 1) (Date 2024 2 1))
       [zoned.mkSumRow 100 zoned.march_at_minus_five None] = inl 0
  /\ zoned.aggregate (months.between scenario.query (Date 2024 3 1) (Date 2024 4 1))
       [zoned.mkSumRow 100 zoned.march_at_minus_five None] = inl 200.
Proof. repeat split. Qed.

Lemma months_inclusive_same (t : zoned.Time) : zoned.months_inclusive t t = 1.
Proof.
  unfold zoned.months_inclusive, zoned.Date_of, goint.add, goint.mul, goint.sub.
  rewrite !Z.sub_diag. reflexivity.
Qed.

(** X5.  A subscription of a single month (its end is its start) is billed
    its price exactly once when it lies strictly inside the query, in
    whatever Location the driver holds its dates; when it begins with the
    query or ends with it, it is when its dates are held in UTC. *)
Theorem single_month_pays_once (q : SumSubscription) (row : zoned.SumRow) :
  zoned.endDate row = Some (zoned.startDate row) ->
  goint.in_range (zoned.price row) ->
  (zoned.After (zoned.startDate row) (zoned.UTC (From q)) = true
   /\ zoned.Before (zoned.startDate row) (zoned.UTC (To q)) = true)
  \/ (zoned.in_UTC (zoned.startDate row)
      /\ spec.query_wf q /\ wf (zoned.instant (zoned.startDate row))
      /\ zoned.Before (zoned.startDate row) (zoned.UTC (From q)) = false
      /\ zoned.Before (zoned.UTC (To q)) (zoned.startDate row) = false) ->
  zoned.Sum_delta q row = zoned.price row.
Proof.
  intros Hend Hprice [[Hlo Hhi] | (Hutc & Hq & Hs & Hlo & Hhi)].
  - unfold zoned.Sum_delta, zoned.Sum_step. rewrite Hend, Hlo, Hhi.
    unfold zoned.After at 1. unfold zoned.Before at 1. rewrite Before_irrefl.
    rewrite months_inclusive_same. cbn [Z.ltb Z.compare].
    unfold goint.add, goint.mul. rewrite Z.mul_1_r, Z.add_0_l, wrap_wrap.
    apply wrap_id, Hprice.
  - unfold zoned.Sum_delta.
    rewrite (Sum_step_in_UTC q 0 row) by (split; [exact Hutc | rewrite Hend; exact Hutc]).
    apply (Sum_delta_single_month q (zoned.instants row)); try assumption.
    unfold zoned.instants. cbn. rewrite Hend. reflexivity.
Qed.

Lemma single_month_pays_once_witness :
  zoned.Sum_delta scenario.query (zoned.of_UTC scenario.february) = 50.
Proof.
  apply (single_month_pays_once scenario.query (zoned.of_UTC scenario.february));
    [reflexivity | by_computation | left; split; reflexivity].
Defined.

(** Held at -05:00, a row of the single month March 2024 reads as
    February: the query from March to April bills it nothing. *)
Example other_Location_drops_a_month :
  zoned.Sum_delta (months.between scenario.query (Date 2024 3 1) (Date 2024 4 1))
    (zoned.mkSumRow 100 zoned.march_at_minus_five (Some zoned.march_at_minus_five))
  = 0.
Proof. reflexivity. Qed.

(** X25.  The check [months < 0] of [Storage.Sum] never fires on times
    held in UTC: once the clamped interval is not empty, the month count
    is at least 1 and is the exact inclusive count of months. *)
Theorem months_guard_never_fires (from to : zoned.Time) :
  zoned.in_UTC from -> zoned.in_UTC to ->
  wf (zoned.instant from) -> wf (zoned.instant to) ->
  zoned.After from to = false ->
  1 <= zoned.months_inclusive from to
  /\ zoned.months_inclusive from to
     = (zoned.own_year to - zoned.own_year from) * 12
       + (zoned.own_month to - zoned.own_month from) + 1.
Proof.
  intros Hfu Htu Hf Ht Hov.
  rewrite (months_inclusive_in_UTC from to Hfu Htu), (months_exact _ _ Hf Ht).
  split; [exact (monthsSpan_overlap _ _ Hf Ht Hov)|].
  rewrite Hfu, Htu. reflexivity.
Qed.

Lemma months_guard_never_fires_witness :
  1 <= zoned.months_inclusive (zoned.UTC (Date 2023 11 1)) (zoned.UTC (Date 2024 2 1))
  /\ zoned.months_inclusive (zoned.UTC (Date 2023 11 1)) (zoned.UTC (Date 2024 2 1))
     = (2024 - 2023) * 12 + (2 - 11) + 1.
Proof.
  apply (months_guard_never_fires (zoned.UTC (Date 2023 11 1))
           (zoned.UTC (Date 2024 2 1)));
    by_computation.
Defined.

(** Between the first instant of March 2024 in UTC and the same instant
    held at -05:00 the overlap check passes and the month count is 0. *)
Example other_Location_counts_no_month :
  zoned.After (zoned.UTC (Date 2024 3 1)) zoned.march_at_minus_five = false
  /\ zoned.months_inclusive (zoned.UTC (Date 2024 3 1)) zoned.march_at_minus_five = 0.
Proof. split; reflexivity. Qed.

(** ** [Storage.Sum] and [Storage.List] on the cursor *)

Lemma Sum_loop_total (q : SumSubscription) (items : list (SumRow + dberr))
    (total t : Z) :
  Sum_loop q items total = inl t -> exists rows, items = inl <$> rows.
Proof.
  revert total. induction items as [|[row|err] items IH]; intros total; cbn.
  - exists []. reflexivity.
  - intros Hloop. destruct (IH _ Hloop) as [rows ->]. exists (row :: rows). reflexivity.
  - discriminate.
Qed.

Lemma Sum_loop_scan_error (q : SumSubscription) (before : list SumRow) (e : dberr)
    (after : list (SumRow + dberr)) (total : Z) :
  Sum_loop q ((inl <$> before) ++ inr e :: after) total
  = inr (Errorf "scan rows" (dberr_error e)).
Proof.
  revert total. induction before as [|row before IH]; intros total; cbn; auto.
Qed.

Lemma List_loop_rows (subs acc : list Subscription) :
  List_loop (inl <$> subs) acc = inl (acc ++ subs)%list.
Proof.
  revert acc. induction subs as [|sub subs IH]; intros acc; cbn.
  - rewrite app_nil_r. reflexivity.
  - rewrite IH, <- app_assoc. reflexivity.
Qed.

Lemma List_loop_result (items : list (Subscription + dberr))
    (acc result : list Subscription) :
  List_loop items acc = inl result ->
  exists subs, items = inl <$> subs /\ result = (acc ++ subs)%list.
Proof.
  revert acc. induction items as [|[sub|err] items IH]; intros acc; cbn.
  - intros [= <-]. exists []. rewrite app_nil_r. auto.
  - intros Hloop. destruct (IH _ Hloop) as (subs & -> & ->).
    exists (sub :: subs). rewrite <- app_assoc. auto.
  - discriminate.
Qed.

Section CursorFacts.
Context {D : Type} `{Database D}.

(** X6.  [Storage.Sum] answers a total only when the query succeeded, every
    row scanned and the cursor reports no error, and the total is then that
    of exactly the rows scanned; one row that fails to scan makes the whole
    call fail and no partial total is returned. *)
Theorem Sum_counts_every_row_or_fails :
  (forall (db db' : D) (q : SumSubscription) (total : Z),
      storage.Sum db q = (db', inl total) ->
      exists rows,
        SumQuery db (filter_UserID q) (filter_ServiceName q) (From q) (To q)
          = (db', inl (mkRows (inl <$> rows) None))
        /\ spec.aggregate q rows = inl total)
  /\ (forall (db db' : D) (q : SumSubscription) (before : list SumRow) (e : dberr)
        (after : list (SumRow + dberr)) (err : option dberr),
      SumQuery db (filter_UserID q) (filter_ServiceName q) (From q) (To q)
        = (db', inl (mkRows ((inl <$> before) ++ inr e :: after) err)) ->
      storage.Sum db q = (db', inr (Errorf "scan rows" (dberr_error e)))).
Proof.
  split.
  - intros db db' q total. unfold storage.Sum.
    destruct (SumQuery _ _ _ _ _) as [db1 [[items err]|e]]; [|discriminate].
    cbn [rows_items rows_Err].
    destruct (Sum_loop q items 0) as [t|e] eqn:Hloop; [|discriminate].
    destruct err; [discriminate|]. intros [= <- <-].
    destruct (Sum_loop_total q items 0 t Hloop) as [rows ->].
    exists rows. split; [reflexivity | exact Hloop].
  - intros db db' q before e after err Hquery. unfold storage.Sum.
    rewrite Hquery. cbn [rows_items]. rewrite Sum_loop_scan_error. reflexivity.
Qed.

(** X7.  [Storage.List] answers with exactly the rows of the cursor, in the
    order of the cursor, and only when the query succeeded, every row
    scanned and the cursor reports no error. *)
Theorem List_returns_cursor_rows
    (db db' : D) (userID : string) (subs : list Subscription) :
  storage.List db userID = (db', inl subs)
  <-> ListQuery db userID = (db', inl (mkRows (inl <$> subs) None)).
Proof.
  unfold storage.List. split.
  - destruct (ListQuery _ _) as [db1 [[items err]|e]]; [|discriminate].
    cbn [rows_items rows_Err].
    destruct (List_loop items []) as [result|e] eqn:Hloop; [|discriminate].
    destruct err; [discriminate|]. intros [= <- <-].
    destruct (List_loop_result items [] result Hloop) as (l & -> & ->).
    reflexivity.
  - intros ->. cbn [rows_items rows_Err]. rewrite List_loop_rows. reflexivity.
Qed.

End CursorFacts.

Lemma Sum_counts_every_row_or_fails_witness :
  exists rows,
    SumQuery scenario.after_netflix (filter_UserID scenario.query)
      (filter_ServiceName scenario.query) (From scenario.query) (To scenario.query)
    = (scenario.after_netflix, inl (mkRows (inl <$> rows) None))
    /\ spec.aggregate scenario.query rows = inl 200.
Proof.
  apply (proj1 Sum_counts_every_row_or_fails scenario.after_netflix
           scenario.after_netflix scenario.query 200).
  vm_compute. reflexivity.
Defined.

Lemma List_returns_cursor_rows_witness :
  storage.List scenario.after_netflix scenario.user
  = (scenario.after_netflix, inl [scenario.netflix_stored]).
Proof.
  apply (List_returns_cursor_rows scenario.after_netflix scenario.after_netflix
           scenario.user [scenario.netflix_stored]).
  vm_compute. reflexivity.
Defined.

(** ** The service on the storage *)

Section ServiceOnStorage.
Variable strings_TrimSpace : string -> string.
Variable uuid_Parse : string -> bool.
Context {D : Type} `{Database D}.

(** X8.  [Get] with a positive id runs [SelectSubQuery] once: the row found
    is returned as it is, "no rows" becomes [ErrSubscriptionNotFound]
    through the wrapper of the storage, and any other database failure
    comes back wrapped and is not mistaken for a missing row. *)
Theorem Get_maps_the_select (db : D) (id : Z) :
  0 < id ->
  service.Get db id
  = match SelectSubQuery db id with
    | (db', inl sub) => (db', inl sub)
    | (db', inr db_no_rows) => (db', inr ErrSubscriptionNotFound)
    | (db', inr (db_failure msg)) =>
        (db', inr (Errorf "failed to get subscription" (driver_error msg)))
    end.
Proof.
  intros Hid. unfold service.Get.
  destruct (Z.leb_spec id 0); [lia|].
  cbn [service.repo_Get Storage_repository]. unfold storage.Get.
  destruct (SelectSubQuery db id) as [db' [sub|[|msg]]]; reflexivity.
Qed.

(** X9.  [Delete] with a positive id runs [DeleteQuery] once: it succeeds
    when a row was affected, answers [ErrSubscriptionNotFound] when none
    was (or when the database itself says "no rows"), and hands back any
    other database failure wrapped. *)
Theorem Delete_maps_the_rows_affected (db : D) (id : Z) :
  0 < id ->
  service.Delete db id
  = match DeleteQuery db id with
    | (db', inl (inl rows)) =>
        if rows =? 0 then (db', Some ErrSubscriptionNotFound) else (db', None)
    | (db', inl (inr db_no_rows)) | (db', inr db_no_rows) =>
        (db', Some ErrSubscriptionNotFound)
    | (db', inl (inr (db_failure msg))) =>
        (db', Some (Errorf "failed check affected rows" (driver_error msg)))
    | (db', inr (db_failure msg)) =>
        (db', Some (Errorf "failed to delete subscription" (driver_error msg)))
    end.
Proof.
  intros Hid. unfold service.Delete.
  destruct (Z.leb_spec id 0); [lia|].
  cbn [service.repo_Delete Storage_repository]. unfold storage.Delete.
  destruct (DeleteQuery db id) as [db' [[rows|[|msg]]|[|msg]]]; try reflexivity.
  destruct (rows =? 0); reflexivity.
Qed.

(** X10.  [Update] with a positive id and an input that passes every check
    runs [UpdateQuery] once, on the trimmed name, the price, the user id
    and the canonical months of the input under that id; it answers
    [ErrSubscriptionNotFound] when no row was affected. *)
Theorem Update_maps_the_rows_affected
    (db : D) (id : Z) (data : service.CreateSubscription) (start : Time) :
  0 < id ->
  spec.first_failure (spec.Create_checks strings_TrimSpace uuid_Parse data) = None ->
  spec.normalizeMonth (service.StartDate data) = Some start ->
  service.Update strings_TrimSpace uuid_Parse db id data
  = match UpdateQuery db (strings_TrimSpace (service.ServiceName data))
            (service.Price data) (service.UserID data) start
            (spec.end_or_open (service.EndDate data)) id with
    | (db', inl (inl rows)) =>
        if rows =? 0 then (db', Some ErrSubscriptionNotFound) else (db', None)
    | (db', inl (inr db_no_rows)) | (db', inr db_no_rows) =>
        (db', Some ErrSubscriptionNotFound)
    | (db', inl (inr (db_failure msg))) =>
        (db', Some (Errorf "failed to check affected rows" (driver_error msg)))
    | (db', inr (db_failure msg)) =>
        (db', Some (Errorf "failed to update table" (driver_error msg)))
    end.
Proof.
  intros Hid Hchecks Hstart. rewrite Update_spec, Hchecks, Hstart.
  destruct (Z.leb_spec id 0); [lia|].
  cbn [service.repo_Update Storage_repository]. unfold storage.Update, spec.updated.
  cbn [ServiceName Price UserID StartDate EndDate ID].
  destruct (UpdateQuery _ _ _ _ _ _ _) as [db' [[rows|[|msg]]|[|msg]]];
    try reflexivity.
  destruct (rows =? 0); reflexivity.
Qed.

(** X11.  What a successful [Create] returns is the row it inserted: the
    one [InsertSubQuery] ran on the fields of the returned subscription and
    answered with its ID.  A failure that is not a validation error is the
    wrapped failure of that one statement, run on the normalized input. *)
Theorem Create_returns_the_inserted_row
    (db db' : D) (data : service.CreateSubscription) :
  (forall sub,
      service.Create strings_TrimSpace uuid_Parse db data = (db', inl sub) ->
      InsertSubQuery db (ServiceName sub) (Price sub) (UserID sub)
                     (StartDate sub) (EndDate sub)
      = (db', inl (ID sub)))
  /\ (forall e,
      service.Create strings_TrimSpace uuid_Parse db data = (db', inr e) ->
      is_validation_error e = false ->
      exists start failure,
        spec.normalizeMonth (service.StartDate data) = Some start
        /\ InsertSubQuery db (strings_TrimSpace (service.ServiceName data))
             (service.Price data) (service.UserID data) start
             (spec.end_or_open (service.EndDate data))
           = (db', inr failure)
        /\ e = Errorf "failed to create new row" (dberr_error failure)).
Proof.
  rewrite Create_spec.
  destruct (spec.first_failure _) as [err|] eqn:Hchecks.
  { split; [discriminate|]. intros e [= <- <-] Hv.
    unfold spec.Create_checks in Hchecks. cbn [spec.first_failure] in Hchecks.
    repeat match type of Hchecks with
           | context [if ?b then _ else _] => destruct b
           end; try discriminate; injection Hchecks as <-; discriminate. }
  destruct (spec.normalizeMonth _) as [start|];
    [|split; [discriminate|]; intros e [= <- <-]; discriminate].
  cbn [service.repo_Create Storage_repository]. unfold storage.Create, spec.stored.
  cbn [ServiceName Price UserID StartDate EndDate].
  destruct (InsertSubQuery _ _ _ _ _ _) as [db1 [id|failure]] eqn:Hinsert; cbn.
  - split; [|discriminate]. intros sub [= <- <-]. cbn. exact Hinsert.
  - split; [discriminate|]. intros e [= <- <-] _. eauto.
Qed.

End ServiceOnStorage.

Lemma Get_maps_the_select_witness :
  service.Get scenario.after_netflix 1
  = (scenario.after_netflix, inl scenario.netflix_stored).
Proof.
  rewrite (Get_maps_the_select scenario.after_netflix 1) by lia.
  vm_compute. reflexivity.
Defined.

Lemma Delete_maps_the_rows_affected_witness :
  service.Delete scenario.after_netflix 7
  = (scenario.after_netflix, Some ErrSubscriptionNotFound).
Proof.
  rewrite (Delete_maps_the_rows_affected scenario.after_netflix 7) by lia.
  vm_compute. reflexivity.
Defined.

Lemma Update_maps_the_rows_affected_witness :
  service.Update ascii_libs.TrimSpace ascii_libs.uuid_Parse scenario.after_netflix 7
    scenario.netflix_open
  = (scenario.after_netflix, Some ErrSubscriptionNotFound).
Proof.
  rewrite (Update_maps_the_rows_affected ascii_libs.TrimSpace ascii_libs.uuid_Parse
             scenario.after_netflix 7 scenario.netflix_open (Date 2024 1 1));
    [vm_compute; reflexivity | lia | reflexivity | reflexivity].
Defined.

Lemma Create_returns_the_inserted_row_witness :
  InsertSubQuery memdb.empty "Netflix" 100 scenario.user (Date 2024 1 1)
                 (Some (Date 2024 2 1))
  = (scenario.after_netflix, inl 1).
Proof.
  apply (proj1 (Create_returns_the_inserted_row ascii_libs.TrimSpace
                  ascii_libs.uuid_Parse memdb.empty scenario.after_netflix
                  scenario.netflix)
           scenario.netflix_stored).
  vm_compute. reflexivity.
Defined.

(** ** The service on the in-memory database *)

Section OnMemdb.
Variable strings_TrimSpace : string -> string.
Variable uuid_Parse : string -> bool.

Lemma memdb_Get (db : memdb.t) (id : Z) :
  0 < id ->
  service.Get db id
  = (db, match memdb.subscriptions db !! id with
         | Some sub => inl sub
         | None => inr ErrSubscriptionNotFound
         end).
Proof.
  intros Hid. unfold service.Get. destruct (Z.leb_spec id 0); [lia|].
  cbn [service.repo_Get Storage_repository]. unfold storage.Get.
  cbn [SelectSubQuery memdb.database].
  destruct (memdb.subscriptions db !! id); reflexivity.
Qed.

(** X12.  On the in-memory database, a subscription that [Create] returned
    is the one [Get] reads back under its ID, the ID is positive, and the
    other rows read as before. *)
Theorem created_row_reads_back
    (db db' : memdb.t) (data : service.CreateSubscription) (sub : Subscription) :
  0 <= memdb.last_id db ->
  service.Create strings_TrimSpace uuid_Parse db data = (db', inl sub) ->
  0 < ID sub
  /\ service.Get db' (ID sub) = (db', inl sub)
  /\ (forall id, id <> ID sub -> snd (service.Get db' id) = snd (service.Get db id)).
Proof.
  intros Hlast. rewrite Create_spec.
  destruct (spec.first_failure _); [discriminate|].
  destruct (spec.normalizeMonth _) as [start|]; [|discriminate].
  cbn. intros [= <- <-]. cbn.
  assert (0 < memdb.last_id db + 1) as Hid by lia.
  split; [exact Hid|]. split.
  - rewrite (memdb_Get _ _ Hid). cbn. rewrite lookup_insert_eq. reflexivity.
  - intros id Hne. destruct (Z.leb_spec id 0) as [Hle | Hpos].
    + unfold service.Get. destruct (Z.leb_spec id 0); [reflexivity | lia].
    + rewrite !(memdb_Get _ _ Hpos). cbn.
      rewrite lookup_insert_ne by congruence. reflexivity.
Qed.

(** X13.  On the in-memory database, a row that [Delete] removed is not
    found afterwards while the other rows read as before; and [Delete] of
    an id that holds no row answers [ErrSubscriptionNotFound] and changes
    nothing. *)
Theorem deleted_row_is_gone (db : memdb.t) (id : Z) :
  0 < id ->
  (forall db',
      service.Delete db id = (db', None) ->
      service.Get db' id = (db', inr ErrSubscriptionNotFound)
      /\ (forall id', id' <> id ->
            snd (service.Get db' id') = snd (service.Get db id')))
  /\ (memdb.subscriptions db !! id = None ->
      service.Delete db id = (db, Some ErrSubscriptionNotFound)).
Proof.
  intros Hid. unfold service.Delete. destruct (Z.leb_spec id 0); [lia|].
  cbn [service.repo_Delete Storage_repository]. unfold storage.Delete.
  cbn [DeleteQuery memdb.database].
  destruct (memdb.subscriptions db !! id) as [sub|] eqn:Hrow; cbn.
  - split; [|discriminate]. intros db' [= <-]. split.
    + rewrite (memdb_Get _ _ Hid). cbn. rewrite lookup_delete_eq. reflexivity.
    + intros id' Hne. destruct (Z.leb_spec id' 0) as [Hle | Hpos].
      * unfold service.Get. destruct (Z.leb_spec id' 0); [reflexivity | lia].
      * rewrite !(memdb_Get _ _ Hpos). cbn.
        rewrite lookup_delete_ne by congruence. reflexivity.
  - split; [discriminate | reflexivity].
Qed.

(** X14.  On the in-memory database, after a successful [Update] the row
    under that id reads back with the trimmed name, the price and the user
    id of the input, and the other rows read as before. *)
Theorem updated_row_reads_back
    (db db' : memdb.t) (id : Z) (data : service.CreateSubscription) :
  service.Update strings_TrimSpace uuid_Parse db id data = (db', None) ->
  (exists sub,
      service.Get db' id = (db', inl sub)
      /\ ID sub = id
      /\ ServiceName sub = strings_TrimSpace (service.ServiceName data)
      /\ Price sub = service.Price data
      /\ UserID sub = service.UserID data
      /\ spec.normalizeMonth (service.StartDate data) = Some (StartDate sub)
      /\ EndDate sub = spec.end_or_open (service.EndDate data))
  /\ (forall id', id' <> id -> snd (service.Get db' id') = snd (service.Get db id')).
Proof.
  rewrite Update_spec. destruct (Z.leb_spec id 0) as [|Hid]; [discriminate|].
  destruct (spec.first_failure _); [discriminate|].
  destruct (spec.normalizeMonth _) as [start|]; [|discriminate].
  cbn [service.repo_Update Storage_repository]. unfold storage.Update, spec.updated.
  cbn [UpdateQuery memdb.database ServiceName Price UserID StartDate EndDate ID].
  destruct (memdb.subscriptions db !! id) as [old|] eqn:Hrow; cbn; [|discriminate].
  intros [= <-]. split.
  - eexists. rewrite (memdb_Get _ _ Hid). cbn. rewrite lookup_insert_eq.
    repeat split.
  - intros id' Hne. destruct (Z.leb_spec id' 0) as [Hle | Hpos].
    + unfold service.Get. destruct (Z.leb_spec id' 0); [reflexivity | lia].
    + rewrite !(memdb_Get _ _ Hpos). cbn.
      rewrite lookup_insert_ne by congruence. reflexivity.
Qed.

End OnMemdb.

Lemma created_row_reads_back_witness :
  0 < 1
  /\ service.Get scenario.after_netflix 1
     = (scenario.after_netflix, inl scenario.netflix_stored).
Proof.
  destruct (created_row_reads_back ascii_libs.TrimSpace ascii_libs.uuid_Parse
              memdb.empty scenario.after_netflix scenario.netflix
              scenario.netflix_stored) as (Hid & Hget & _);
    [by_computation | vm_compute; reflexivity |].
  split; [exact Hid | exact Hget].
Defined.

Lemma deleted_row_is_gone_witness :
  service.Get (memdb.mk ∅ 1) 1 = (memdb.mk ∅ 1, inr ErrSubscriptionNotFound).
Proof.
  destruct (deleted_row_is_gone scenario.after_netflix 1) as [Hgone _]; [lia|].
  destruct (Hgone (memdb.mk ∅ 1)) as [Hget _];
    [vm_compute; reflexivity | exact Hget].
Defined.

Lemma updated_row_reads_back_witness :
  exists sub,
    service.Get scenario.after_netflix 1 = (scenario.after_netflix, inl sub)
    /\ ID sub = 1
    /\ ServiceName sub = "Netflix".
Proof.
  destruct (updated_row_reads_back ascii_libs.TrimSpace ascii_libs.uuid_Parse
              scenario.after_netflix scenario.after_netflix 1 scenario.netflix)
    as [(sub & Hget & Hid & Hname & _) _]; [vm_compute; reflexivity|].
  exists sub. split; [exact Hget|]. split; [exact Hid | exact Hname].
Defined.

(** ** The handlers *)

Example ParseInt_decimal : strconv.ParseInt "42" = strconv.ok 42.
Proof. reflexivity. Qed.

Example ParseInt_signed :
  strconv.ParseInt "-7" = strconv.ok (-7) /\ strconv.ParseInt "+5" = strconv.ok 5.
Proof. split; reflexivity. Qed.

Example ParseInt_not_a_number :
  strconv.ParseInt "abc" = strconv.ErrSyntax
  /\ strconv.ParseInt "" = strconv.ErrSyntax
  /\ strconv.ParseInt "-" = strconv.ErrSyntax
  /\ strconv.ParseInt "1_000" = strconv.ErrSyntax.
Proof. repeat split; reflexivity. Qed.

Example ParseInt_out_of_range :
  strconv.ParseInt "9223372036854775807" = strconv.ok (2 ^ 63 - 1)
  /\ strconv.ParseInt "9223372036854775808" = strconv.ErrRange (2 ^ 63 - 1)
  /\ strconv.ParseInt "-9223372036854775808" = strconv.ok (- 2 ^ 63)
  /\ strconv.ParseInt "99999999999999999999999" = strconv.ErrRange (2 ^ 63 - 1).
Proof. repeat split; reflexivity. Qed.

Lemma errors_Is_root (e target : error) :
  errors_root target = target -> (forall m w, target <> Errorf m w) ->
  errors_Is e target = bool_decide (errors_root e = target).
Proof.
  intros Hroot Hflat. induction e as [| | | | | | | | msg | msg wrapped IH];
    try (cbn; destruct (decide _) as [<- | Hne];
         [rewrite bool_decide_eq_true_2; reflexivity
         |rewrite bool_decide_eq_false_2; [reflexivity | congruence]]).
  cbn [errors_Is errors_root]. destruct (decide _) as [Heq | _].
  - exfalso. exact (Hflat _ _ (eq_sym Heq)).
  - exact IH.
Qed.

Lemma errors_Is_validation (e sentinel : error) :
  is_validation_error sentinel = true ->
  errors_Is e sentinel = true -> errors_root e = sentinel.
Proof.
  intros Hs. rewrite errors_Is_root.
  - apply bool_decide_eq_true_1.
  - destruct sentinel; try discriminate Hs; reflexivity.
  - intros m w ->. discriminate Hs.
Qed.

Lemma plain_error_Is (e sentinel : error) :
  plain_error e -> is_validation_error sentinel = true ->
  errors_Is e sentinel = true -> is_validation_error e = true.
Proof.
  intros [Hbare | Hroot] Hs Hmatch; [exact Hbare|].
  rewrite (errors_Is_validation e sentinel Hs Hmatch), Hs in Hroot. discriminate.
Qed.

Lemma sealed_foreign (R : Type) `{service.SubscriptionRepository R} :
  sealed_errors R -> spec.foreign_errors R.
Proof.
  assert (forall e, is_validation_error (errors_root e) = false ->
                    is_validation_error e = false) as Hflat
    by (intros e; destruct e; cbn; auto).
  intros (S1 & S2 & S3 & S4 & S5 & S6). repeat split; intros; apply Hflat; eauto.
Qed.

Lemma checks_are_validation_errors (checks : list (bool * error)) (e : error) :
  Forall (fun c => is_validation_error (snd c) = true) checks ->
  spec.first_failure checks = Some e -> is_validation_error e = true.
Proof.
  induction 1 as [|[[|] err] checks Herr _ IH]; cbn; [discriminate| |exact IH].
  intros [= <-]. exact Herr.
Qed.

Section PlainErrors.
Variable strings_TrimSpace : string -> string.
Variable uuid_Parse : string -> bool.
Context {R : Type} `{service.SubscriptionRepository R}.
Hypothesis sealed : sealed_errors R.

Lemma Create_checks_validation (data : service.CreateSubscription) (e : error) :
  spec.first_failure (spec.Create_checks strings_TrimSpace uuid_Parse data) = Some e ->
  is_validation_error e = true.
Proof. apply checks_are_validation_errors. repeat constructor. Qed.

Lemma Sum_checks_validation (filter : service.FilterForSumSubscription) (e : error) :
  spec.first_failure (spec.Sum_checks strings_TrimSpace uuid_Parse filter) = Some e ->
  is_validation_error e = true.
Proof. apply checks_are_validation_errors. repeat constructor. Qed.

Lemma Create_error_plain (repo repo' : R) data e :
  service.Create strings_TrimSpace uuid_Parse repo data = (repo', inr e) ->
  plain_error e.
Proof.
  destruct sealed as (S1 & _). rewrite Create_spec.
  destruct (spec.first_failure _) eqn:Hchecks.
  { intros [= <- <-]. left. exact (Create_checks_validation _ _ Hchecks). }
  destruct (spec.normalizeMonth _); [|intros [= <- <-]; left; reflexivity].
  destruct (service.repo_Create _ _) as [[r1 sub1] [id|err]] eqn:Hcall; cbn;
    [discriminate|].
  intros [= <- <-]. right. exact (S1 _ _ _ _ _ Hcall).
Qed.

Lemma Get_error_plain (repo repo' : R) id e :
  service.Get repo id = (repo', inr e) -> plain_error e.
Proof.
  destruct sealed as (_ & S2 & _). unfold service.Get.
  destruct (id <=? 0); [intros [= <- <-]; left; reflexivity|].
  destruct (service.repo_Get _ _) as [r1 [sub|err]] eqn:Hcall; [discriminate|].
  destruct (errors_Is err sql_ErrNoRows); intros [= <- <-]; right;
    [reflexivity | exact (S2 _ _ _ _ Hcall)].
Qed.

Lemma Update_error_plain (repo repo' : R) id data e :
  service.Update strings_TrimSpace uuid_Parse repo id data = (repo', Some e) ->
  plain_error e.
Proof.
  destruct sealed as (_ & _ & S3 & _). rewrite Update_spec.
  destruct (id <=? 0); [intros [= <- <-]; left; reflexivity|].
  destruct (spec.first_failure _) eqn:Hchecks.
  { intros [= <- <-]. left. exact (Create_checks_validation _ _ Hchecks). }
  destruct (spec.normalizeMonth _); [|intros [= <- <-]; left; reflexivity].
  unfold spec.updated.
  destruct (service.repo_Update _ _) as [r1 [err|]] eqn:Hcall; [|discriminate].
  destruct (errors_Is err sql_ErrNoRows); intros [= <- <-]; right;
    [reflexivity | exact (S3 _ _ _ _ Hcall)].
Qed.

Lemma Delete_error_plain (repo repo' : R) id e :
  service.Delete repo id = (repo', Some e) -> plain_error e.
Proof.
  destruct sealed as (_ & _ & _ & S4 & _). unfold service.Delete.
  destruct (id <=? 0); [intros [= <- <-]; left; reflexivity|].
  destruct (service.repo_Delete _ _) as [r1 [err|]] eqn:Hcall; [|discriminate].
  destruct (errors_Is err sql_ErrNoRows); intros [= <- <-]; right;
    [reflexivity | exact (S4 _ _ _ _ Hcall)].
Qed.

Lemma List_error_plain (repo repo' : R) userID e :
  service.List uuid_Parse repo userID = (repo', inr e) -> plain_error e.
Proof.
  destruct sealed as (_ & _ & _ & _ & S5 & _). unfold service.List.
  destruct (uuid_Parse userID); cbn [negb]; [|intros [= <- <-]; left; reflexivity].
  destruct (service.repo_List _ _) as [r1 [l|err]] eqn:Hcall; [discriminate|].
  intros [= <- <-]. right. exact (S5 _ _ _ _ Hcall).
Qed.

Lemma Sum_error_plain (repo repo' : R) filter e :
  service.Sum strings_TrimSpace uuid_Parse repo filter = (repo', inr e) ->
  plain_error e.
Proof.
  destruct sealed as (_ & _ & _ & _ & _ & S6). rewrite Sum_spec.
  destruct (spec.first_failure _) eqn:Hchecks.
  { intros [= <- <-]. left. exact (Sum_checks_validation _ _ Hchecks). }
  destruct (spec.normalizeMonth _); [|intros [= <- <-]; left; reflexivity].
  destruct (spec.normalizeMonth _); [|intros [= <- <-]; left; reflexivity].
  intros Hcall. right. exact (S6 _ _ _ _ Hcall).
Qed.

End PlainErrors.

Ltac handler_cases :=
  repeat match goal with
         | |- context [match ?x with _ => _ end] => destruct x eqn:?
         end.

Section HandlerFacts.
Variable strings_TrimSpace : string -> string.
Variable uuid_Parse : string -> bool.
Variable json_Decode : string -> service.CreateSubscription + string.
Variable json_Encode_error : handlers.payload -> option string.
Context {R : Type} `{service.SubscriptionRepository R}.

(** X15.  Every handler sets the status of its response exactly once, by
    one call of [WriteHeader] or of [http.Error], and only to the codes of
    its own documentation: 201, 400 or 500 for create; 200, 400, 404 or 500
    for get; 204, 400, 404 or 500 for update and delete; 200, 400 or 500
    for list and sum. *)
Theorem handlers_set_one_status (repo : R) (r : handlers.Request) :
  (exists c,
      handlers.statuses (handlers.calls (snd
        (handlers.CreateSubscriptionHandler strings_TrimSpace uuid_Parse json_Decode
           json_Encode_error repo r))) = [c]
      /\ (c = 201 \/ c = 400 \/ c = 500))
  /\ (exists c,
      handlers.statuses (handlers.calls (snd
        (handlers.GetSubscriptionHandler json_Encode_error repo r))) = [c]
      /\ (c = 200 \/ c = 400 \/ c = 404 \/ c = 500))
  /\ (exists c,
      handlers.statuses (handlers.calls (snd
        (handlers.UpdateSubscriptionHandler strings_TrimSpace uuid_Parse json_Decode
           repo r))) = [c]
      /\ (c = 204 \/ c = 400 \/ c = 404 \/ c = 500))
  /\ (exists c,
      handlers.statuses (handlers.calls (snd
        (handlers.DeleteSubscriptionsHandler repo r))) = [c]
      /\ (c = 204 \/ c = 400 \/ c = 404 \/ c = 500))
  /\ (exists c,
      handlers.statuses (handlers.calls (snd
        (handlers.ListSubscriptionHandler uuid_Parse json_Encode_error repo r))) = [c]
      /\ (c = 200 \/ c = 400 \/ c = 500))
  /\ (exists c,
      handlers.statuses (handlers.calls (snd
        (handlers.SumSubscriptionHandler strings_TrimSpace uuid_Parse
           json_Encode_error repo r))) = [c]
      /\ (c = 200 \/ c = 400 \/ c = 500)).
Proof.
  unfold handlers.CreateSubscriptionHandler, handlers.GetSubscriptionHandler,
    handlers.UpdateSubscriptionHandler, handlers.DeleteSubscriptionsHandler,
    handlers.ListSubscriptionHandler, handlers.SumSubscriptionHandler.
  cbv zeta.
  repeat split; handler_cases; cbn; eexists; (split; [reflexivity|]);
    unfold handlers.StatusOK, handlers.StatusCreated, handlers.StatusNoContent,
      handlers.StatusBadRequest, handlers.StatusNotFound,
      handlers.StatusInternalServerError; tauto.
Qed.



Section Sealed.
Hypothesis sealed : sealed_errors R.

Lemma validation_Is_leaves_repository :
  (forall repo data repo' e sentinel,
      service.Create strings_TrimSpace uuid_Parse repo data = (repo', inr e) ->
      is_validation_error sentinel = true -> errors_Is e sentinel = true ->
      repo' = repo)
  /\ (forall repo id repo' e sentinel,
      service.Get repo id = (repo', inr e) ->
      is_validation_error sentinel = true -> errors_Is e sentinel = true ->
      repo' = repo)
  /\ (forall repo id data repo' e sentinel,
      service.Update strings_TrimSpace uuid_Parse repo id data = (repo', Some e) ->
      is_validation_error sentinel = true -> errors_Is e sentinel = true ->
      repo' = repo)
  /\ (forall repo id repo' e sentinel,
      service.Delete repo id = (repo', Some e) ->
      is_validation_error sentinel = true -> errors_Is e sentinel = true ->
      repo' = repo)
  /\ (forall repo userID repo' e sentinel,
      service.List uuid_Parse repo userID = (repo', inr e) ->
      is_validation_error sentinel = true -> errors_Is e sentinel = true ->
      repo' = repo)
  /\ (forall repo filter repo' e sentinel,
      service.Sum strings_TrimSpace uuid_Parse repo filter = (repo', inr e) ->
      is_validation_error sentinel = true -> errors_Is e sentinel = true ->
      repo' = repo).
Proof.
  destruct (validation_error_leaves_repository strings_TrimSpace uuid_Parse
              (sealed_foreign R sealed))
    as (VCreate & VGet & VUpdate & VDelete & VList & VSum).
  repeat split; intros.
  - eapply VCreate; [eassumption|].
    eapply plain_error_Is; [eapply Create_error_plain|..]; eassumption.
  - eapply VGet; [eassumption|].
    eapply plain_error_Is; [eapply Get_error_plain|..]; eassumption.
  - eapply VUpdate; [eassumption|].
    eapply plain_error_Is; [eapply Update_error_plain|..]; eassumption.
  - eapply VDelete; [eassumption|].
    eapply plain_error_Is; [eapply Delete_error_plain|..]; eassumption.
  - eapply VList; [eassumption|].
    eapply plain_error_Is; [eapply List_error_plain|..]; eassumption.
  - eapply VSum; [eassumption|].
    eapply plain_error_Is; [eapply Sum_error_plain|..]; eassumption.
Qed.

Ltac by_validation V :=
  eapply V; [eassumption | | eassumption]; reflexivity.

Lemma bad_request_leaves_repository (repo : R) (r : handlers.Request) :
  let untouched (out : R * handlers.Response) :=
    handlers.statuses (handlers.calls (snd out)) = [400] -> fst out = repo in
  untouched (handlers.CreateSubscriptionHandler strings_TrimSpace uuid_Parse
               json_Decode json_Encode_error repo r)
  /\ untouched (handlers.GetSubscriptionHandler json_Encode_error repo r)
  /\ untouched (handlers.UpdateSubscriptionHandler strings_TrimSpace uuid_Parse
                  json_Decode repo r)
  /\ untouched (handlers.DeleteSubscriptionsHandler repo r)
  /\ untouched (handlers.ListSubscriptionHandler uuid_Parse json_Encode_error repo r)
  /\ untouched (handlers.SumSubscriptionHandler strings_TrimSpace uuid_Parse
                  json_Encode_error repo r).
Proof.
  destruct validation_Is_leaves_repository
    as (VCreate & VGet & VUpdate & VDelete & VList & VSum).
  unfold handlers.CreateSubscriptionHandler, handlers.GetSubscriptionHandler,
    handlers.UpdateSubscriptionHandler, handlers.DeleteSubscriptionsHandler,
    handlers.ListSubscriptionHandler, handlers.SumSubscriptionHandler.
  cbv zeta.
  repeat split; handler_cases; cbn; intros Hstatus; try reflexivity;
    try discriminate Hstatus.
  all: first [by_validation VCreate | by_validation VGet | by_validation VUpdate
             | by_validation VDelete | by_validation VList | by_validation VSum].
Qed.

End Sealed.
End HandlerFacts.

Lemma List_loop_error_root (items : list (Subscription + dberr))
    (result : list Subscription) (e : error) :
  List_loop items result = inr e -> is_validation_error (errors_root e) = false.
Proof.
  revert result. induction items as [|[res|err] items IH]; intros result; cbn.
  - discriminate.
  - apply IH.
  - intros [= <-]. destruct err; reflexivity.
Qed.

Lemma Sum_loop_error_root (q : SumSubscription) (items : list (SumRow + dberr))
    (total : Z) (e : error) :
  Sum_loop q items total = inr e -> is_validation_error (errors_root e) = false.
Proof.
  revert total. induction items as [|[row|err] items IH]; intros total; cbn.
  - discriminate.
  - apply IH.
  - intros [= <-]. destruct err; reflexivity.
Qed.

Lemma traced_sealed (R : Type) `{service.SubscriptionRepository R} :
  sealed_errors R -> sealed_errors (R * list traced.call).
Proof.
  intros (S1 & S2 & S3 & S4 & S5 & S6).
  repeat split; cbn.
  - intros [r log] sub r' sub' e.
    destruct (service.repo_Create _ _) as [[r1 sub1] res] eqn:Hcall.
    intros [= <- <- ->]. exact (S1 _ _ _ _ _ Hcall).
  - intros [r log] id r' e.
    destruct (service.repo_Get _ _) as [r1 res] eqn:Hcall.
    intros [= <- ->]. exact (S2 _ _ _ _ Hcall).
  - intros [r log] sub r' e.
    destruct (service.repo_Update _ _) as [r1 res] eqn:Hcall.
    intros [= <- ->]. exact (S3 _ _ _ _ Hcall).
  - intros [r log] id r' e.
    destruct (service.repo_Delete _ _) as [r1 res] eqn:Hcall.
    intros [= <- ->]. exact (S4 _ _ _ _ Hcall).
  - intros [r log] userID r' e.
    destruct (service.repo_List _ _) as [r1 res] eqn:Hcall.
    intros [= <- ->]. exact (S5 _ _ _ _ Hcall).
  - intros [r log] filter r' e.
    destruct (service.repo_Sum _ _) as [r1 res] eqn:Hcall.
    intros [= <- ->]. exact (S6 _ _ _ _ Hcall).
Qed.

Section HandlersOnStorage.
Variable strings_TrimSpace : string -> string.
Variable uuid_Parse : string -> bool.
Variable json_Decode : string -> service.CreateSubscription + string.
Variable json_Encode_error : handlers.payload -> option string.
Context {D : Type} `{Database D}.

Lemma Storage_sealed : sealed_errors D.
Proof.
  repeat split; cbn.
  - intros db sub db' sub' e. unfold storage.Create.
    destruct (InsertSubQuery _ _ _ _ _ _) as [db1 [id|[|msg]]];
      intros [= <- <- <-]; reflexivity.
  - intros db id db' e. unfold storage.Get.
    destruct (SelectSubQuery _ _) as [db1 [sub|[|msg]]];
      intros [= <- <-]; reflexivity.
  - intros db sub db' e. unfold storage.Update.
    destruct (UpdateQuery _ _ _ _ _ _ _) as [db1 [[rows|[|msg]]|[|msg]]];
      try (intros [= <- <-]; reflexivity).
    destruct (rows =? 0); [|discriminate]. intros [= <- <-]. reflexivity.
  - intros db id db' e. unfold storage.Delete.
    destruct (DeleteQuery _ _) as [db1 [[rows|[|msg]]|[|msg]]];
      try (intros [= <- <-]; reflexivity).
    destruct (rows =? 0); [|discriminate]. intros [= <- <-]. reflexivity.
  - intros db userID db' e. unfold storage.List.
    destruct (ListQuery _ _) as [db1 [rows|[|msg]]];
      try (intros [= <- <-]; reflexivity).
    destruct (List_loop _ _) as [result|err] eqn:Hloop.
    + destruct (rows_Err rows) as [[|msg]|]; [| |discriminate];
        intros [= <- <-]; reflexivity.
    + intros [= <- <-]. exact (List_loop_error_root _ _ _ Hloop).
  - intros db filter db' e. unfold storage.Sum.
    destruct (SumQuery _ _ _ _ _) as [db1 [rows|[|msg]]];
      try (intros [= <- <-]; reflexivity).
    destruct (Sum_loop _ _ _) as [total|err] eqn:Hloop.
    + destruct (rows_Err rows) as [[|msg]|]; [| |discriminate];
        intros [= <- <-]; reflexivity.
    + intros [= <- <-]. exact (Sum_loop_error_root _ _ _ _ Hloop).
Qed.

(** X17.  With the storage as repository and every call to it logged: a
    handler that answers 400 has left the database and the log of
    repository calls as they were. *)
Theorem bad_request_leaves_database
    (st : D * list traced.call) (r : handlers.Request) :
  let untouched (out : D * list traced.call * handlers.Response) :=
    handlers.statuses (handlers.calls (snd out)) = [400] -> fst out = st in
  untouched (handlers.CreateSubscriptionHandler strings_TrimSpace uuid_Parse
               json_Decode json_Encode_error st r)
  /\ untouched (handlers.GetSubscriptionHandler json_Encode_error st r)
  /\ untouched (handlers.UpdateSubscriptionHandler strings_TrimSpace uuid_Parse
                  json_Decode st r)
  /\ untouched (handlers.DeleteSubscriptionsHandler st r)
  /\ untouched (handlers.ListSubscriptionHandler uuid_Parse json_Encode_error st r)
  /\ untouched (handlers.SumSubscriptionHandler strings_TrimSpace uuid_Parse
                  json_Encode_error st r).
Proof.
  exact (bad_request_leaves_repository strings_TrimSpace uuid_Parse json_Decode
           json_Encode_error (traced_sealed D Storage_sealed) st r).
Qed.

(** X18.  GET /subscriptions/{id} with a positive decimal id runs
    [SelectSubQuery] once and answers by what it finds: 200 with the row
    encoded, 404 when there is no row, 500 with the failure logged for any
    other database failure. *)
Theorem GET_follows_the_select (db : D) (r : handlers.Request) (id : Z) :
  handlers.chi_URLParam r "id" <> "" ->
  strconv.ParseInt (handlers.chi_URLParam r "id") = strconv.ok id ->
  0 < id ->
  handlers.GetSubscriptionHandler json_Encode_error db r
  = match SelectSubQuery db id with
    | (db', inl sub) =>
        (db', handlers.mkResponse
                [handlers.Header_Set "Content-Type" "application/json";
                 handlers.WriteHeader 200;
                 handlers.json_Encode (handlers.json_Subscription sub)]
                (handlers.encode_logs json_Encode_error "error encoding response: %v"
                   (handlers.json_Subscription sub)))
    | (db', inr db_no_rows) =>
        (db', handlers.mkResponse
                [handlers.http_Error "subscription not found" 404] [])
    | (db', inr (db_failure msg)) =>
        (db', handlers.mkResponse
                [handlers.http_Error "internal server error" 500]
                [handlers.Errorf_log "failed to get subscription id=%d: %v"
                   [handlers.arg_int id;
                    handlers.arg_error
                      (Errorf "failed to get subscription" (driver_error msg))]])
    end.
Proof.
  intros Hpresent Hparse Hid. unfold handlers.GetSubscriptionHandler. cbv zeta.
  destruct (String.eqb_spec (handlers.chi_URLParam r "id") ""); [contradiction|].
  rewrite Hparse. unfold service.Get. destruct (Z.leb_spec id 0); [lia|].
  cbn [service.repo_Get Storage_repository]. unfold storage.Get.
  destruct (SelectSubQuery db id) as [db' [sub|[|msg]]]; reflexivity.
Qed.

(** X19.  DELETE /subscriptions/{id} with a positive decimal id runs
    [DeleteQuery] once: 204 when a row was affected, 404 when none was,
    500 for any other database failure; whatever the failure, it is
    logged. *)
Theorem DELETE_follows_the_rows_affected
    (db : D) (r : handlers.Request) (id : Z) :
  handlers.chi_URLParam r "id" <> "" ->
  strconv.ParseInt (handlers.chi_URLParam r "id") = strconv.ok id ->
  0 < id ->
  let failed (db' : D) (message : string) (code : Z) (err : error) :=
    (db', handlers.mkResponse [handlers.http_Error message code]
            [handlers.Errorf_log "failed to delete subscription id=%d: %v"
               [handlers.arg_int id; handlers.arg_error err]]) in
  handlers.DeleteSubscriptionsHandler db r
  = match DeleteQuery db id with
    | (db', inl (inl rows)) =>
        if rows =? 0
        then failed db' "subscription not found" 404 ErrSubscriptionNotFound
        else (db', handlers.mkResponse [handlers.WriteHeader 204]
                     [handlers.Infow_log "subscription deleted"
                        [("id", handlers.arg_int id)]])
    | (db', inl (inr db_no_rows)) | (db', inr db_no_rows) =>
        failed db' "subscription not found" 404 ErrSubscriptionNotFound
    | (db', inl (inr (db_failure msg))) =>
        failed db' "internal server error" 500
          (Errorf "failed check affected rows" (driver_error msg))
    | (db', inr (db_failure msg)) =>
        failed db' "internal server error" 500
          (Errorf "failed to delete subscription" (driver_error msg))
    end.
Proof.
  intros Hpresent Hparse Hid failed. subst failed.
  unfold handlers.DeleteSubscriptionsHandler. cbv zeta.
  destruct (String.eqb_spec (handlers.chi_URLParam r "id") ""); [contradiction|].
  rewrite Hparse. unfold service.Delete. destruct (Z.leb_spec id 0); [lia|].
  cbn [service.repo_Delete Storage_repository]. unfold storage.Delete.
  destruct (DeleteQuery db id) as [db' [[rows|[|msg]]|[|msg]]]; try reflexivity.
  destruct (rows =? 0); reflexivity.
Qed.

(** X20.  POST /subscriptions with a body that decodes and passes every
    check runs [InsertSubQuery] once on the normalized input: 201 with the
    inserted row encoded under the id the database returned, 500 with the
    wrapped failure logged when the insert fails. *)
Theorem POST_follows_the_insert
    (db : D) (r : handlers.Request) (req : service.CreateSubscription)
    (start : Time) :
  json_Decode (handlers.Body r) = inl req ->
  spec.first_failure (spec.Create_checks strings_TrimSpace uuid_Parse req) = None ->
  spec.normalizeMonth (service.StartDate req) = Some start ->
  handlers.CreateSubscriptionHandler strings_TrimSpace uuid_Parse json_Decode
    json_Encode_error db r
  = match InsertSubQuery db (strings_TrimSpace (service.ServiceName req))
            (service.Price req) (service.UserID req) start
            (spec.end_or_open (service.EndDate req)) with
    | (db', inl id) =>
        let resp :=
          mkSubscription id (strings_TrimSpace (service.ServiceName req))
            (service.Price req) (service.UserID req) start
            (spec.end_or_open (service.EndDate req)) in
        (db', handlers.mkResponse
                [handlers.Header_Set "Content-Type" "application/json";
                 handlers.WriteHeader 201;
                 handlers.json_Encode (handlers.json_Subscription resp)]
                (handlers.encode_logs json_Encode_error "error encoding response: %v"
                   (handlers.json_Subscription resp)
                 ++ [handlers.Infow_log "subscription created"
                       [("id", handlers.arg_int id);
                        ("user_id", handlers.arg_text (service.UserID req));
                        ("service_name",
                         handlers.arg_text
                           (strings_TrimSpace (service.ServiceName req)))]])%list)
    | (db', inr failure) =>
        (db', handlers.mkResponse
                [handlers.http_Error "internal server error" 500]
                [handlers.Errorf_log "internal error in Create: %v"
                   [handlers.arg_error
                      (Errorf "failed to create new row" (dberr_error failure))]])
    end.
Proof.
  intros Hdecode Hchecks Hstart. unfold handlers.CreateSubscriptionHandler.
  rewrite Hdecode, Create_spec, Hchecks, Hstart.
  cbn [service.repo_Create Storage_repository]. unfold storage.Create, spec.stored.
  cbn [ServiceName Price UserID StartDate EndDate].
  destruct (InsertSubQuery _ _ _ _ _ _) as [db' [id|[|msg]]]; reflexivity.
Qed.

End HandlersOnStorage.


Lemma bad_request_leaves_database_witness :
  fst (handlers.GetSubscriptionHandler requests.encode_error
         (scenario.after_netflix, @nil traced.call) (requests.with_id "0" ""))
  = (scenario.after_netflix, []).
Proof.
  apply (proj1 (proj2 (bad_request_leaves_database ascii_libs.TrimSpace
                         ascii_libs.uuid_Parse requests.decode requests.encode_error
                         (scenario.after_netflix, []) (requests.with_id "0" "")))).
  vm_compute. reflexivity.
Defined.

Lemma GET_follows_the_select_witness :
  handlers.statuses (handlers.calls (snd
    (handlers.GetSubscriptionHandler requests.encode_error scenario.after_netflix
       (requests.with_id "1" ""))))
  = [200].
Proof.
  rewrite (GET_follows_the_select requests.encode_error scenario.after_netflix
             (requests.with_id "1" "") 1);
    [vm_compute; reflexivity | vm_compute; discriminate | reflexivity | lia].
Defined.

Lemma DELETE_follows_the_rows_affected_witness :
  handlers.statuses (handlers.calls (snd
    (handlers.DeleteSubscriptionsHandler scenario.after_netflix
       (requests.with_id "7" ""))))
  = [404].
Proof.
  rewrite (DELETE_follows_the_rows_affected scenario.after_netflix
             (requests.with_id "7" "") 7);
    [vm_compute; reflexivity | vm_compute; discriminate | reflexivity | lia].
Defined.

Lemma POST_follows_the_insert_witness :
  handlers.calls (snd
    (handlers.CreateSubscriptionHandler ascii_libs.TrimSpace ascii_libs.uuid_Parse
       requests.decode requests.encode_error memdb.empty
       (requests.with_body "netflix")))
  = [handlers.Header_Set "Content-Type" "application/json";
     handlers.WriteHeader 201;
     handlers.json_Encode (handlers.json_Subscription scenario.netflix_stored)].
Proof.
  rewrite (POST_follows_the_insert ascii_libs.TrimSpace ascii_libs.uuid_Parse
             requests.decode requests.encode_error memdb.empty
             (requests.with_body "netflix") scenario.netflix (Date 2024 1 1));
    [vm_compute; reflexivity | reflexivity | reflexivity | reflexivity].
Defined.

(** ** The logging middleware *)

Section Middleware.
Import middleware.
Context {W : Type} `{ResponseWriter W}.

Lemma last_status_cons (default : Z) (ev : event) (evs : list event) :
  last_status default (ev :: evs)
  = last_status (match ev with
                 | ev_WriteHeader statusCode => statusCode
                 | _ => default
                 end) evs.
Proof. reflexivity. Qed.

Lemma ServeHTTP_logging (h : Handler) (w : W) (rd : responseData) :
  goint.in_range (size rd) ->
  ServeHTTP h (w, rd)
  = (ServeHTTP h w,
     mkResponseData (goint.wrap (size rd + bytes_written (events h w)))
                    (last_status (status rd) (events h w)))
  /\ events h (w, rd) = events h w.
Proof.
  revert w rd. induction h as [|op next IH|n next IH|statusCode next IH];
    intros w rd Hrange.
  - cbn. rewrite Z.add_0_r, wrap_id by exact Hrange. destruct rd. auto.
  - cbn [ServeHTTP events rw_Header loggingResponseWritter fst snd].
    destruct (IH (rw_Header w op) rd Hrange) as [-> ->].
    rewrite last_status_cons. auto.
  - cbn [ServeHTTP events rw_Write loggingResponseWritter fst snd].
    destruct (rw_Write w n) as [w' [written err]].
    destruct (IH written err w'
                (mkResponseData (goint.add (size rd) written) (status rd))
                (wrap_in_range _)) as [-> ->].
    rewrite last_status_cons. cbn [size status bytes_written foldr].
    unfold goint.add. rewrite wrap_add_wrap_l. split; [|reflexivity].
    do 3 f_equal. unfold bytes_written. lia.
  - cbn [ServeHTTP events rw_WriteHeader loggingResponseWritter fst snd].
    destruct (IH (rw_WriteHeader w statusCode)
                (mkResponseData (size rd) statusCode) Hrange) as [-> ->].
    rewrite last_status_cons. auto.
Qed.

(** X21.  The middleware is transparent: the writer underneath ends up as
    if the handler had been served on it directly, and the handler makes
    the same calls and gets the same answers from [Write]. *)
Theorem LoggingMiddleware_is_transparent
    (next : Handler) (RequestURI Method : string) (start finish : Z) (w : W) :
  fst (LoggingMiddleware next RequestURI Method start finish w) = ServeHTTP next w
  /\ events next (w, mkResponseData 0 200) = events next w.
Proof.
  unfold LoggingMiddleware.
  destruct (ServeHTTP_logging next w (mkResponseData 0 handlers.StatusOK)
              zero_in_range) as [Hserve Hevents].
  rewrite Hserve. split; [reflexivity | exact Hevents].
Qed.

(** X22.  The entry the middleware logs carries the URI and the method of
    the request, the code of the last [WriteHeader] the handler called (200
    when it called none), the sum of the byte counts the writer underneath
    reported for the handler's writes (an [int]), and the time between the
    two clock readings. *)
Theorem LoggingMiddleware_logs_status_and_size
    (next : Handler) (RequestURI Method : string) (start finish : Z) (w : W) :
  snd (LoggingMiddleware next RequestURI Method start finish w)
  = mk_http_request RequestURI Method
      (last_status 200 (events next w))
      (goint.wrap (bytes_written (events next w)))
      (finish - start).
Proof.
  unfold LoggingMiddleware.
  destruct (ServeHTTP_logging next w (mkResponseData 0 handlers.StatusOK)
              zero_in_range) as [Hserve _].
  rewrite Hserve. reflexivity.
Qed.

End Middleware.

(** The middleware's own test: the recorder holds 201 and "test-data", the
    log holds 201 and 9 bytes. *)
Example middleware_test_data :
  middleware.LoggingMiddleware served.test_data "/test" "GET" 0 5
    middleware.NewRecorder
  = (middleware.mk_recorder 201 true "test-data" [],
     middleware.mk_http_request "/test" "GET" 201 9 5).
Proof. reflexivity. Qed.

(** A handler that sets the status twice: the recorder keeps the first
    code, the log the last. *)
Example middleware_last_status :
  middleware.LoggingMiddleware served.twice "/test" "GET" 0 5 middleware.NewRecorder
  = (middleware.mk_recorder 201 true "" [],
     middleware.mk_http_request "/test" "GET" 500 0 5).
Proof. reflexivity. Qed.

(** A handler that does nothing: the logged status is 200. *)
Example middleware_default_status :
  snd (middleware.LoggingMiddleware middleware.Return "/empty" "GET" 0 5
         middleware.NewRecorder)
  = middleware.mk_http_request "/empty" "GET" 200 0 5.
Proof. reflexivity. Qed.

(** ** The configuration *)

(** X23.  [Load] succeeds exactly when DATABASE_DSN is set to a text that
    is not empty; the configuration then holds that text, and as address
    SERVER_ADDR when it is set and not empty, ":8080" otherwise, so neither
    field is ever empty. *)
Theorem Load_needs_the_DSN (env : gmap string string) (cfg : config.Config) :
  config.Load env = inl cfg
  <-> (exists dsn,
         env !! "DATABASE_DSN" = Some dsn /\ dsn <> ""
         /\ config.DatabaseDSN cfg = dsn)
      /\ config.ServerAddr cfg
         = match env !! "SERVER_ADDR" with
           | Some addr => if String.eqb addr "" then ":8080" else addr
           | None => ":8080"
           end
      /\ config.ServerAddr cfg <> "".
Proof.
  unfold config.Load, config.os_Getenv. split.
  - destruct (env !! "DATABASE_DSN") as [dsn|]; cbn; [|discriminate].
    destruct (String.eqb_spec dsn ""); [discriminate|]. intros [= <-]. cbn.
    split; [eauto|].
    destruct (env !! "SERVER_ADDR") as [addr|]; cbn.
    + destruct (String.eqb_spec addr ""); split;
        first [reflexivity | assumption | discriminate].
    + split; [reflexivity | discriminate].
  - intros ((dsn & Hdsn & Hne & Hcfg) & Haddr & _). rewrite Hdsn. cbn.
    destruct (String.eqb_spec dsn ""); [contradiction|].
    destruct cfg as [addr' dsn']. cbn in *. subst dsn'. f_equal. f_equal.
    rewrite Haddr. destruct (env !! "SERVER_ADDR") as [addr|]; reflexivity.
Qed.

Lemma Load_needs_the_DSN_witness :
  config.Load {[ "DATABASE_DSN" := "postgres://localhost/subs" ]}
  = inl (config.mkConfig ":8080" "postgres://localhost/subs").
Proof.
  apply (Load_needs_the_DSN {[ "DATABASE_DSN" := "postgres://localhost/subs" ]}
           (config.mkConfig ":8080" "postgres://localhost/subs")).
  split; [|split].
  - exists "postgres://localhost/subs". repeat split. discriminate.
  - reflexivity.
  - discriminate.
Defined.

(** ** More on the rows of [SumQuery] and on parsed months *)

(** X24.  The date conditions of [SumQuery] only drop rows that would add
    nothing: a row that starts after [to], or that ends before [from],
    leaves the total of the loop as it is. *)
Theorem date_filter_drops_only_empty_rows (q : SumSubscription) (row : SumRow) :
  After (startDate row) (To q) = true
  \/ (exists e, endDate row = Some e /\ Before e (From q) = true) ->
  Sum_delta q row = 0.
Proof.
  intros Hdropped. apply Sum_delta_no_overlap. left.
  unfold After in *. unfold spec.effective_start, spec.effective_end,
    spec.time_max, spec.time_min.
  destruct Hdropped as [Hlate | (e & -> & Hearly)].
  - destruct (endDate row) as [e|];
      destruct (Before (startDate row) (From q)) eqn:H1;
      try destruct (Before (To q) e) eqn:H2;
      rewrite ?Before_lex, ?not_Before_lex in *; lia.
  - destruct (Before (startDate row) (From q)) eqn:H1,
             (Before (To q) e) eqn:H2;
      rewrite ?Before_lex, ?not_Before_lex in *; lia.
Qed.

Lemma date_filter_drops_only_empty_rows_witness :
  Sum_delta scenario.query scenario.starts_later = 0.
Proof.
  apply (date_filter_drops_only_empty_rows scenario.query scenario.starts_later).
  left. reflexivity.
Defined.

(** Every time [time.Parse] yields at the layout "01-2006" is the first
    instant of a month of a year from 0 to 9999. *)
Lemma parsed_months_are_canonical (s : string) (t : Time) :
  Parse_01_2006 s = Some t ->
  months.canonical t /\ 0 <= t_year t <= 9999.
Proof.
  rewrite Parse_normalizeMonth. unfold spec.normalizeMonth.
  destruct (spec.read_month s) as [[y m]|] eqn:Hread; [|discriminate].
  intros [= <-]. destruct (read_month_Some s y m Hread) as (Hy & Hm & _).
  unfold months.canonical, wf, spec.canonical_month, Date. cbn.
  change (2 ^ 39) with 549755813888. repeat split; lia.
Qed.

(** ** What the repository is handed *)

Ltac no_call := exists []; split; [symmetry; apply app_nil_r | split; [cbn; lia | constructor]].

Ltac one_call :=
  cbn;
  match goal with
  | |- context [service.repo_Create ?r ?sub] =>
      destruct (service.repo_Create r sub) as [[? ?] [?|?]]
  | |- context [service.repo_Update ?r ?sub] =>
      destruct (service.repo_Update r sub) as [? [?|]]
  | |- context [service.repo_Sum ?r ?f] =>
      destruct (service.repo_Sum r f) as [? [?|?]]
  end;
  cbn; try match goal with |- context [if ?b then _ else _] => destruct b end;
  cbn; eexists (cons _ nil);
  (split; [reflexivity|]); (split; [cbn; lia|]); (constructor; [|constructor]);
  cbn; auto.

Section CanonicalCalls.
Variable strings_TrimSpace : string -> string.
Variable uuid_Parse : string -> bool.
Context {R : Type} `{service.SubscriptionRepository R}.

Lemma parsed_month_canonical (s : string) (t : Time) :
  Parse_01_2006 s = Some t -> months.canonical t.
Proof. intros Hparse. exact (proj1 (parsed_months_are_canonical s t Hparse)). Qed.

(** X26.  Whatever the input, what the service hands to the repository
    carries canonical months: [Create] and [Update] make at most one call,
    on a subscription whose start is the first instant of a month and whose
    end, if any, is one too and is not before the start; [Sum] makes at
    most one call, on a filter whose bounds are first instants of months
    with [to] not before [from]. *)
Theorem repository_receives_canonical_months (st : R * list traced.call) :
  (forall data, exists calls,
      snd (fst (service.Create strings_TrimSpace uuid_Parse st data))
        = (snd st ++ calls)%list
      /\ (List.length calls <= 1)%nat /\ Forall months.canonical_call calls)
  /\ (forall id data, exists calls,
      snd (fst (service.Update strings_TrimSpace uuid_Parse st id data))
        = (snd st ++ calls)%list
      /\ (List.length calls <= 1)%nat /\ Forall months.canonical_call calls)
  /\ (forall filter, exists calls,
      snd (fst (service.Sum strings_TrimSpace uuid_Parse st filter))
        = (snd st ++ calls)%list
      /\ (List.length calls <= 1)%nat /\ Forall months.canonical_call calls).
Proof.
  repeat split.
  - intros data. unfold service.Create.
    cbn [service.ServiceName service.Price service.UserID service.StartDate
         service.EndDate].
    destruct (String.eqb _ ""); [no_call|].
    destruct (_ <=? 0); [no_call|].
    destruct (uuid_Parse _); cbn [negb]; [|no_call].
    destruct (Parse_01_2006 (service.StartDate data)) as [start|] eqn:Hstart;
      [|no_call].
    apply parsed_month_canonical in Hstart.
    destruct (service.EndDate data) as [raw|].
    + destruct (String.eqb raw ""); cbn [negb].
      * one_call.
      * destruct (Parse_01_2006 raw) as [e|] eqn:He; [|no_call].
        apply parsed_month_canonical in He.
        destruct (Before e start) eqn:Hb; [no_call|]. one_call.
    + one_call.
  - intros id data. unfold service.Update.
    cbn [service.ServiceName service.Price service.UserID service.StartDate
         service.EndDate].
    destruct (id <=? 0); [no_call|].
    destruct (String.eqb _ ""); [no_call|].
    destruct (_ <=? 0); [no_call|].
    destruct (uuid_Parse _); cbn [negb]; [|no_call].
    destruct (Parse_01_2006 (service.StartDate data)) as [start|] eqn:Hstart;
      [|no_call].
    apply parsed_month_canonical in Hstart.
    destruct (service.EndDate data) as [raw|].
    + destruct (String.eqb raw ""); cbn [negb].
      * one_call.
      * destruct (Parse_01_2006 raw) as [e|] eqn:He; [|no_call].
        apply parsed_month_canonical in He.
        destruct (Before e start) eqn:Hb; [no_call|]. one_call.
    + one_call.
  - intros filter. unfold service.Sum.
    cbn [service.filter_ServiceName service.filter_UserID service.From service.To].
    destruct (String.eqb _ ""); [no_call|].
    destruct (uuid_Parse _); cbn [negb]; [|no_call].
    destruct (Parse_01_2006 (service.From filter)) as [from|] eqn:Hfrom; [|no_call].
    apply parsed_month_canonical in Hfrom.
    destruct (Parse_01_2006 (service.To filter)) as [to|] eqn:Hto; [|no_call].
    apply parsed_month_canonical in Hto.
    destruct (Before to from) eqn:Hb; [no_call|]. one_call.
Qed.
End CanonicalCalls.
